(** * Ionicons build script ([scripts/build.ts]): model and properties

    The script turns a directory of source SVG files into optimized SVGs,
    a metadata catalog, an icon package, a sprite document and a cheatsheet.
    This development embeds the script function by function:

    - [Js]        the JavaScript string and array primitives the script calls;
    - [Camel]     [camelize] and [upFirst];
    - [Optimizer] the [addFillNoneCss] plugin callback;
    - [Catalog]   the reconciliation steps of [createDataJson];
    - [Build]     the loader [getSvgs], the emitters and [build] itself, as a
                  computation that logs every file-system operation.

    Strings are sequences of 8-bit characters; case mapping acts on the ASCII
    letters and leaves every other character alone. On ASCII text this is
    [String.prototype.toLowerCase] and [toUpperCase]; outside ASCII the two
    JavaScript functions follow Unicode, which the model does not, so that
    the statements that turn on which characters are upper-case are made for
    ASCII text ([isAscii]). Comparison of strings is the code-unit
    lexicographic order ([String.compare]), which is what [<] on JavaScript
    strings and the default [Array.prototype.sort] use.

    Three library functions are parameters of [Build]: [svgo.optimize] and the
    two forms of [String.prototype.replace]. What is written to a file is kept
    as a value: a text, or the object handed to [JSON.stringify].

    [Build] runs on a [Disk]: the manifest, the listing of [src/svg], whatever
    [data.json] parses to, and the cheatsheet template when it can be read.
    A [World] is a disk of the expected shape, with a [data.json] that is
    missing or holds a catalog and a template that is there; it is read as a
    [Disk] wherever one is expected. Emptying and listing directories,
    reading the listed files, writing and copying are taken to succeed.

    The second part proves, on these definitions: what the plugin does to an
    element; what reconciliation adds, removes and keeps; where the loader
    throws and that the build then writes nothing; that a second build
    reproduces the first; which catalogs a build writes; and how a run ends
    and what it has written by then. *)

From Stdlib Require Import String Ascii List Bool Arith ZArith Lia.
From Stdlib Require Import Sorted Permutation DecimalString OrdersEx RelationClasses.
Import ListNotations.

Local Open Scope list_scope.
Local Open Scope string_scope.

(** [++] appends strings; [+++] appends lists. *)
Infix "+++" := app (right associativity, at level 60).

(** ** Results of code that may throw *)

Inductive Error : Type :=
| NotLowercase (fileName : string)    (* svg filename must be all lowercase *)
| TooManyPeriods (fileName : string)  (* svg filename cannot contain more than one period *)
| TypeError                           (* a member read, written or called on a value without it *)
| ReadError                           (* a read of the manifest or of the template failed *)
| SvgoError (fileName : string).      (* svgo rejected the document *)

Inductive result (A : Type) : Type :=
| Ok (a : A)
| Err (e : Error).

Arguments Ok {A} a.
Arguments Err {A} e.

Definition rbind {A B : Type} (r : result A) (k : A -> result B) : result B :=
  match r with
  | Ok a => k a
  | Err e => Err e
  end.

(** [xs.map(f)] where [f] may throw: the first exception, in array order,
    propagates. *)
Fixpoint mapR {A B : Type} (f : A -> result B) (xs : list A) : result (list B) :=
  match xs with
  | [] => Ok []
  | x :: rest =>
      rbind (f x) (fun y => rbind (mapR f rest) (fun ys => Ok (y :: ys)))
  end.

(** ** JavaScript primitives *)

Module Js.

(** The ASCII letters [A] to [Z], and [a] to [z]. *)
Definition isUpperChar (c : ascii) : bool :=
  let n := nat_of_ascii c in (65 <=? n)%nat && (n <=? 90)%nat.

Definition isLowerChar (c : ascii) : bool :=
  let n := nat_of_ascii c in (97 <=? n)%nat && (n <=? 122)%nat.

Definition toLowerChar (c : ascii) : ascii :=
  if isUpperChar c then ascii_of_nat (nat_of_ascii c + 32) else c.

Definition toUpperChar (c : ascii) : ascii :=
  if isLowerChar c then ascii_of_nat (nat_of_ascii c - 32) else c.

(** [s.toLowerCase()] on ASCII text: [A] to [Z] go to [a] to [z]. A
    character outside ASCII is left as it is, where JavaScript follows the
    Unicode mapping. *)
Fixpoint toLowerCase (s : string) : string :=
  match s with
  | EmptyString => EmptyString
  | String c r => String (toLowerChar c) (toLowerCase r)
  end.

(** [s.toUpperCase()] on ASCII text: [a] to [z] go to [A] to [Z]. A
    character outside ASCII is left as it is, where JavaScript follows the
    Unicode mapping (which can also lengthen the text). *)
Fixpoint toUpperCase (s : string) : string :=
  match s with
  | EmptyString => EmptyString
  | String c r => String (toUpperChar c) (toUpperCase r)
  end.

(** [s[0]]: [None] stands for [undefined]. *)
Definition charAt0 (s : string) : option string :=
  match s with
  | EmptyString => None
  | String c _ => Some (String c EmptyString)
  end.

(** [s.slice(1)] *)
Definition slice1 (s : string) : string :=
  match s with
  | EmptyString => EmptyString
  | String _ r => r
  end.

(** [s.split(sep)] for a separator that matches exactly one character (a
    one-character string, or a character class): the result is never empty,
    and two adjacent separators enclose an empty string. *)
Fixpoint split (isSep : ascii -> bool) (s : string) : list string :=
  match s with
  | EmptyString => [EmptyString]
  | String c r =>
      if isSep c then EmptyString :: split isSep r
      else match split isSep r with
           | [] => [String c EmptyString]
           | w :: ws => String c w :: ws
           end
  end.

(** [xs.join('')] *)
Definition join (xs : list string) : string := String.concat EmptyString xs.

(** [s.startsWith(p)] *)
Definition startsWith (p s : string) : bool := String.prefix p s.

(** [s.endsWith(p)] *)
Definition endsWith (p s : string) : bool :=
  let n := String.length s in
  let k := String.length p in
  (k <=? n)%nat && String.eqb (String.substring (n - k) k s) p.

(** Comparators return a negative number, zero or a positive number. The
    script's three comparators all have this shape, on a string key. *)
Definition compareBy {A : Type} (key : A -> string) (a b : A) : Z :=
  if String.ltb (key a) (key b) then (-1)%Z
  else if String.ltb (key b) (key a) then 1%Z
  else 0%Z.

(** [xs.sort(cmp)]: the sorted permutation that keeps elements which compare
    equal in their original order (the sort is stable). *)
Fixpoint insert {A : Type} (cmp : A -> A -> Z) (x : A) (l : list A) : list A :=
  match l with
  | [] => [x]
  | y :: r => if (cmp x y <=? 0)%Z then x :: y :: r else y :: insert cmp x r
  end.

Fixpoint sort {A : Type} (cmp : A -> A -> Z) (l : list A) : list A :=
  match l with
  | [] => []
  | x :: r => insert cmp x (sort cmp r)
  end.

(** [xs.sort()] on an array of strings compares by code units. *)
Definition sortStrings (l : list string) : list string :=
  sort (compareBy (fun s => s)) l.

(** [n.toString()] for an array length. *)
Definition natToString (n : nat) : string :=
  NilEmpty.string_of_uint (Nat.to_uint n).

End Js.

(** ** [camelize] and [upFirst] *)

Module Camel.

(** The character class of the regular expression [/[-_]/g]. *)
Definition isDashOrUnderscore (c : ascii) : bool :=
  Ascii.eqb c "-" || Ascii.eqb c "_".

(** [word[0].toUpperCase() + word.toLowerCase().slice(1)]; [word[0]] is
    [undefined] on the empty string and the method call on it throws. *)
Definition upFirst (word : string) : result string :=
  match Js.charAt0 word with
  | None => Err TypeError
  | Some c => Ok (Js.toUpperCase c ++ Js.slice1 (Js.toLowerCase word))
  end.

Definition camelize (text : string) : result string :=
  let words := Js.split isDashOrUnderscore text in
  match words with
  | [] => Err TypeError
  | w0 :: rest =>
      let head := Js.toLowerCase w0 in
      rbind (mapR upFirst rest) (fun ws => Ok (head ++ Js.join ws))
  end.

(** The conversion as the specification words it: split on hyphen or
    underscore, lower-case the first segment, and for every later segment
    upper-case its first character and lower-case the remainder. *)
Definition capitalize_spec (segment : string) : string :=
  match segment with
  | EmptyString => EmptyString
  | String c r => String (Js.toUpperChar c) (Js.toLowerCase r)
  end.

Definition camelize_spec (text : string) : string :=
  match Js.split isDashOrUnderscore text with
  | [] => EmptyString
  | first :: later =>
      Js.toLowerCase first ++ String.concat EmptyString (map capitalize_spec later)
  end.

(** The segments after the first one. *)
Definition laterSegments (text : string) : list string :=
  tl (Js.split isDashOrUnderscore text).

End Camel.

(** ** The [addFillNoneCss] plugin *)

Module Optimizer.

(** svgo (version 1, the one with [perItem] plugins and [item.eachAttr])
    hands the plugin one parsed node at a time. Of svgo's node interface the
    callback uses [isElem], [eachAttr], [removeAttr] and [class.add]. *)
Record Attr : Type := { attrName : string; attrValue : string }.

(** The attributes object of a node. The parser gives a node one object
    [attrs], keyed by attribute name in document order, and a class list
    [item.class] that keeps its own reference to that object and shows in
    it as the [class] key. [others] are the attributes other than [class];
    [classNames] are the names of the class list, none when the object has
    no [class] key (a [class] attribute always holds a name: [class=""]
    holds the empty one).

    [removeAttr] deletes [node.attrs] once it has taken the last key away.
    From then on, [Deleted], the node has no attribute and gets none: what
    [class.add] writes goes to the object the node has let go of. *)
Inductive AttrsObject : Type :=
| Deleted
| Present (others : list Attr) (classNames : list string).

Record Item : Type := {
  isElem : bool;
  attrsObject : AttrsObject
}.

(** The attributes of the node other than [class], in document order. *)
Definition attrs (item : Item) : list Attr :=
  match attrsObject item with
  | Deleted => []
  | Present others _ => others
  end.

(** The class names the node shows. *)
Definition classes (item : Item) : list string :=
  match attrsObject item with
  | Deleted => []
  | Present _ classNames => classNames
  end.

Definition hasAttr (name : string) (item : Item) : bool :=
  existsb (fun a => String.eqb (attrName a) name) (attrs item).

(** [item.removeAttr(name)]: nothing happens when the node has no such
    attribute; otherwise the key is deleted, and [node.attrs] with it when
    no key is left. *)
Definition removeAttr (name : string) (item : Item) : Item :=
  if hasAttr name item then
    let others :=
      filter (fun a => negb (String.eqb (attrName a) name)) (attrs item) in
    {| isElem := isElem item;
       attrsObject := match others, classes item with
                      | [], [] => Deleted
                      | _, _ => Present others (classes item)
                      end |}
  else item.

(** [item.class.add(c)]: the class list is a set. On a node whose [attrs]
    was deleted the name does not reach the node. *)
Definition classAdd (c : string) (item : Item) : Item :=
  match attrsObject item with
  | Deleted => item
  | Present others classNames =>
      {| isElem := isElem item;
         attrsObject :=
           Present others
                   (if existsb (String.eqb c) classNames
                    then classNames
                    else (classNames +++ [c])) |}
  end.

(** The callback given to [item.eachAttr]. *)
Definition onAttr (attr : Attr) (item : Item) : Item :=
  if String.eqb (attrName attr) "fill" then
    let item1 :=
      if String.eqb (attrValue attr) "none"
      then classAdd "ionicon-fill-none" item
      else item in
    removeAttr "fill" item1
  else if String.eqb (attrName attr) "stroke" then
    removeAttr "stroke" item
  else if String.eqb (attrName attr) "stroke-width"
          && String.eqb (attrValue attr) "32" then
    classAdd "ionicon-stroke-width" (removeAttr "stroke-width" item)
  else item.

(** [item.eachAttr(cb)] enumerates the attribute names the node has when
    the loop starts; a name removed before its turn is skipped. The [class]
    key is enumerated too; the callback has no rule for it. *)
Fixpoint eachAttrFrom (pending : list Attr) (cb : Attr -> Item -> Item)
         (item : Item) : Item :=
  match pending with
  | [] => item
  | a :: rest =>
      if hasAttr (attrName a) item
      then eachAttrFrom rest cb (cb a item)
      else eachAttrFrom rest cb item
  end.

Definition eachAttr (cb : Attr -> Item -> Item) (item : Item) : Item :=
  eachAttrFrom (attrs item) cb item.

(** The plugin function [fn]. *)
Definition addFillNoneCss (item : Item) : Item :=
  if isElem item then eachAttr onAttr item else item.

End Optimizer.

(** ** Data model *)

Definition path : Type := list string.

(** [join(dir, name)] for a plain file or directory name. *)
Definition join (dir : path) (name : string) : path := (dir +++ [name]).

Record SvgData : Type := {
  fileName : string;
  srcFilePath : path;
  srcSvgContent : string;
  optimizedFilePath : path;
  optimizedSvgContent : option string;   (* null until the optimizer ran *)
  iconName : string;
  fileNameMjs : string;
  fileNameCjs : string;
  exportName : string
}.

(** An entry of the catalog: [{ name: string; tags?: string[] }]. *)
Record IconEntry : Type := {
  name : string;
  tags : option (list string)
}.

(** The catalog object read from and written to [data.json]. [icons] is
    [None] when the object has no such member. [members] lists the other
    top-level members (such as [name] and [version]) in the order of the file;
    the script never reads or writes them. *)
Record JsonData : Type := {
  members : list (string * string);
  icons : option (list IconEntry)
}.

(** What [JSON.parse] can give for [data.json], as far as the script tells
    the values apart. [createDataJson] reads members of whatever it finds,
    outside its [try]: [data.icons] of [null], [i.name] of a [null] entry,
    [data.icons.some] and [icon.tags.sort] of a value that is no array all
    throw a TypeError.

    An entry of [icons] is an object with a string [name] whose [tags] is
    absent, falsy or an array, taken to hold strings ([Named]); such an object whose [tags] is
    truthy and no array ([BadTags]); [null] ([NullEntry]); or any other
    value, whose [name] is no string ([Nameless]). *)
Inductive RawEntry : Type :=
| Named (e : IconEntry)
| BadTags (name : string)
| NullEntry
| Nameless.

(** The [icons] member: absent or falsy, an array, or a truthy value that is
    no array. *)
Inductive RawIcons : Type :=
| NoIcons
| IconsArray (entries : list RawEntry)
| IconsOther.

(** [src/data.json]: missing or no JSON ([readJson] throws); [null] or a
    number, string or boolean; an array, with its elements as they are
    serialized; or an object, with its members other than [icons]. *)
Inductive DataFile : Type :=
| Unreadable
| NotObject
| TopArray (items : list string)
| TopObject (members : list (string * string)) (icons : RawIcons).

(** The object written as the icon package's [package.json]. *)
Record Manifest : Type := {
  pkgName : string;
  pkgVersion : string;
  pkgModule : string;
  pkgMain : string;
  pkgTypings : string;
  pkgSideEffects : list string;
  pkgPrivate : bool
}.

(** What is written to a file: text, or [JSON.stringify(obj, null, 2) + '\n']
    of an object. *)
Inductive Content : Type :=
| Text (s : string)
| JsonCatalog (d : JsonData)
| JsonManifest (m : Manifest)
| JsonArray (items : list string).

(** ** Catalog reconciliation ([createDataJson]) *)

Module Catalog.

Definition hasName (n : string) (l : list IconEntry) : bool :=
  existsb (fun i => String.eqb (name i) n) l.

Definition isCurrent (srcSvgData : list SvgData) (dataIcon : IconEntry) : bool :=
  existsb (fun svgData => String.eqb (name dataIcon) (iconName svgData)) srcSvgData.

(** add new icons: the [forEach] pushes onto the array it tests. *)
Definition addNewIcons (dataIcons : list IconEntry) (srcSvgData : list SvgData)
  : list IconEntry :=
  fold_left
    (fun acc svgData =>
       if hasName (iconName svgData) acc then acc
       else (acc +++ [{| name := iconName svgData; tags := None |}]))
    srcSvgData dataIcons.

(** remove dead icons *)
Definition removeDeadIcons (dataIcons : list IconEntry) (srcSvgData : list SvgData)
  : list IconEntry :=
  filter (isCurrent srcSvgData) dataIcons.

(** sort *)
Definition sortIcons (dataIcons : list IconEntry) : list IconEntry :=
  Js.sort (Js.compareBy name) dataIcons.

Definition isHyphen (c : ascii) : bool := Ascii.eqb c "-".

(** [icon.tags = icon.tags || icon.name.split('-'); icon.tags = icon.tags.sort()];
    an array, even an empty one, is truthy. *)
Definition withTags (icon : IconEntry) : IconEntry :=
  let t := match tags icon with
           | Some t => t
           | None => Js.split isHyphen (name icon)
           end in
  {| name := name icon; tags := Some (Js.sortStrings t) |}.

(** The three steps on the entry list, before tags are filled in. *)
Definition reconcile (dataIcons : list IconEntry) (srcSvgData : list SvgData)
  : list IconEntry :=
  sortIcons (removeDeadIcons (addNewIcons dataIcons srcSvgData) srcSvgData).

(** [data.icons || []] *)
Definition dataIcons (data : JsonData) : list IconEntry :=
  match icons data with
  | Some l => l
  | None => []
  end.

(** [data.icons] when [createDataJson] serializes [data]. *)
Definition finalIcons (data : JsonData) (srcSvgData : list SvgData)
  : list IconEntry :=
  map withTags (reconcile (dataIcons data) srcSvgData).

(** [data] as written back to the source-of-truth location. *)
Definition srcCatalog (data : JsonData) (srcSvgData : list SvgData) : JsonData :=
  {| members := members data; icons := Some (finalIcons data srcSvgData) |}.

(** [distJsonData] *)
Definition distCatalog (version : string) (data : JsonData)
           (srcSvgData : list SvgData) : JsonData :=
  {| members := [("name", "ionicons"); ("version", version)];
     icons := Some (finalIcons data srcSvgData) |}.

(** [{}], the catalog used when [data.json] cannot be read or parsed. *)
Definition emptyData : JsonData := {| members := []; icons := None |}.

Definition isNullEntry (r : RawEntry) : bool :=
  match r with
  | NullEntry => true
  | _ => false
  end.

(** The entry has tags that are no array, and the name of a current icon:
    it passes the filter and [icon.tags.sort] is called on it. *)
Definition hasBadTags (srcSvgData : list SvgData) (r : RawEntry) : bool :=
  match r with
  | BadTags n => existsb (fun svgData => String.eqb n (iconName svgData)) srcSvgData
  | _ => false
  end.

(** The entries the steps can keep. The other entries never have the name
    of an icon: no [some] test finds them and the filter removes them. *)
Definition namedEntries (entries : list RawEntry) : list IconEntry :=
  flat_map (fun r => match r with
                     | Named e => [e]
                     | _ => []
                     end) entries.

(** The entries of an [icons] array as lines 377 to 400 go through them.
    With at least one icon, the filter reads [dataIcon.name] of every entry
    and throws on a [null] entry (when the first loop has not done so
    already); with no icon no name is read. [icon.tags.sort] throws on the
    entries that are left and whose tags are no array. *)
Definition loadEntries (entries : list RawEntry) (srcSvgData : list SvgData)
  : result (list IconEntry) :=
  match srcSvgData with
  | [] => Ok (namedEntries entries)
  | _ :: _ =>
      if existsb isNullEntry entries then Err TypeError
      else if existsb (hasBadTags srcSvgData) entries then Err TypeError
      else Ok (namedEntries entries)
  end.

(** The object the reconciliation works on, from
    [try { data = await fs.readJson(...) } catch (e) { data = {} }] and
    [data.icons = data.icons || []]: [{}] after a failed read; a TypeError
    for [null] (the member is read) and for a number, string or boolean (the
    member is assigned, in strict code); an array takes the member [icons]
    like an object. A truthy [icons] that is no array throws at
    [data.icons.some], or at [data.icons.filter] when there is no icon. *)
Definition load (file : DataFile) (srcSvgData : list SvgData) : result JsonData :=
  match file with
  | Unreadable => Ok emptyData
  | NotObject => Err TypeError
  | TopArray _ => Ok emptyData
  | TopObject members NoIcons => Ok {| members := members; icons := None |}
  | TopObject members IconsOther => Err TypeError
  | TopObject members (IconsArray entries) =>
      rbind (loadEntries entries srcSvgData) (fun l =>
      Ok {| members := members; icons := Some l |})
  end.

End Catalog.

(** ** The build as a logged computation *)

(** Every call into [fs] is logged, in the order the script issues it.
    Operations started together by [Promise.all] touch different paths; they
    are logged in array order. *)
Inductive Effect : Type :=
| EmptyDir (p : path)
| EnsureDir (p : path)
| ReadDir (p : path)
| ReadFile (p : path)
| ReadJson (p : path)
| WriteFile (p : path) (c : Content)
| CopyFile (src dst : path).

(** A computation returns its log and either a value or the exception that
    ended it. *)
Definition M (A : Type) : Type := (list Effect * result A)%type.

Definition ret {A : Type} (a : A) : M A := ([], Ok a).

Definition throw {A : Type} (e : Error) : M A := ([], Err e).

Definition effect (e : Effect) : M unit := ([e], Ok tt).

Definition lift {A : Type} (r : result A) : M A := ([], r).

Definition bind {A B : Type} (m : M A) (k : A -> M B) : M B :=
  match m with
  | (log, Ok a) => let (log', r) := k a in ((log +++ log'), r)
  | (log, Err e) => (log, Err e)
  end.

Notation "x <- m ;; k" := (bind m (fun x => k))
  (at level 61, m at next level, right associativity).

Notation "m ;;; k" := (bind m (fun _ => k))
  (at level 61, right associativity).

(** [await Promise.all(ms)]: every computation of the array is started and
    runs to its end; the result is the array of values, or the first exception
    in array order. *)
Fixpoint all {A : Type} (ms : list (M A)) : M (list A) :=
  match ms with
  | [] => ret []
  | (log, r) :: rest =>
      let (log', rs) := all rest in
      ((log +++ log'),
       match r, rs with
       | Err e, _ => Err e
       | Ok _, Err e => Err e
       | Ok a, Ok vs => Ok (a :: vs)
       end)
  end.

Definition isWrite (e : Effect) : bool :=
  match e with
  | WriteFile _ _ => true
  | CopyFile _ _ => true
  | _ => false
  end.

(** What the build finds on disk, when [data.json] is missing or holds a
    catalog and the template is there. *)
Record World : Type := {
  (** [version] of [package.json]; [None] when the manifest cannot be read *)
  manifestVersion : option string;
  (** the listing of [src/svg], each name with the content of its file *)
  svgDir : list (string * string);
  (** [src/data.json]; [None] when it is missing or does not parse *)
  dataJson : option JsonData;
  (** [scripts/cheatsheet-template.html] *)
  cheatsheetTemplate : string
}.

(** What the build finds on disk, whatever [data.json] parses to and
    whether or not the template can be read. *)
Record Disk : Type := {
  (** [version] of [package.json]; [None] when the manifest cannot be read *)
  manifest : option string;
  (** the listing of [src/svg], each name with the content of its file *)
  listing : list (string * string);
  (** [src/data.json] *)
  dataFile : DataFile;
  (** [scripts/cheatsheet-template.html]; [None] when it cannot be read *)
  template : option string
}.

(** The file behind a catalog of the expected shape: every entry of [icons]
    has a name and tags that are absent or a list. *)
Definition dataFileOf (d : option JsonData) : DataFile :=
  match d with
  | None => Unreadable
  | Some data =>
      TopObject (members data)
                (match icons data with
                 | None => NoIcons
                 | Some l => IconsArray (map Named l)
                 end)
  end.

(** The disk of a world. *)
Definition diskOf (w : World) : Disk :=
  {| manifest := manifestVersion w;
     listing := svgDir w;
     dataFile := dataFileOf (dataJson w);
     template := Some (cheatsheetTemplate w) |}.

(** A [World] stands for its disk wherever a [Disk] is expected. *)
Coercion diskOf : World >-> Disk.

Definition withDataJson (w : World) (d : option JsonData) : World :=
  {| manifestVersion := manifestVersion w;
     svgDir := svgDir w;
     dataJson := d;
     cheatsheetTemplate := cheatsheetTemplate w |}.

Definition nl : string := String (ascii_of_nat 10) EmptyString.

Definition dq : string := String (ascii_of_nat 34) EmptyString.

(** [lines.join('\n')] *)
Definition joinLines (lines : list string) : string := String.concat nl lines.

Module Build.

(** The object [createDataJson] works on when [data.json] is missing or has
    the expected shape: what was read, or [{}]. *)
Definition loadedData (w : World) : JsonData :=
  match dataJson w with
  | Some d => d
  | None => Catalog.emptyData
  end.

Section WithLibraries.

(** [svgo.optimize(content, { path })] with the plugin list of
    [optimizeSvgs]: the optimized markup, or [None] when it rejects. *)
Variable svgo : string -> path -> option string.

(** [subject.replace(pattern, replacement)] for a string pattern. *)
Variable replaceFirst : string -> string -> string -> string.

(** [subject.replace(/pattern/g, replacement)] *)
Variable replaceAll : string -> string -> string -> string.

Variable w : Disk.

Definition isDot (c : ascii) : bool := Ascii.eqb c ".".

(** The filter of [getSvgs] on the directory listing. *)
Definition isSvgFile (fileName : string) : bool :=
  negb (Js.startsWith "." fileName) && Js.endsWith ".svg" fileName.

(** The body of the [map] callback of [getSvgs], up to its first [await]:
    the validations and the derived names. *)
Definition svgNames (fileName : string) : result (string * string) :=
  if negb (String.eqb (Js.toLowerCase fileName) fileName) then
    Err (NotLowercase fileName)
  else
    let dotSplit := Js.split isDot fileName in
    if (2 <? List.length dotSplit)%nat then Err (TooManyPeriods fileName)
    else
      match dotSplit with
      | [] => Err TypeError
      | iconName :: _ =>
          rbind (Camel.camelize iconName) (fun exportName =>
          Ok (iconName, exportName))
      end.

Definition svgRecord (srcSvgDir optimizedSvgDir : path) (file : string * string)
  : M SvgData :=
  let (fileName, content) := file in
  names <- lift (svgNames fileName) ;;
  let (iconName, exportName) := names : string * string in
  let srcFilePath := join srcSvgDir fileName in
  effect (ReadFile srcFilePath) ;;;
  ret {| fileName := fileName;
         srcFilePath := srcFilePath;
         srcSvgContent := content;
         optimizedFilePath := join optimizedSvgDir fileName;
         optimizedSvgContent := None;
         iconName := iconName;
         fileNameMjs := iconName ++ ".mjs";
         fileNameCjs := iconName ++ ".js";
         exportName := exportName |}.

Definition getSvgs (srcSvgDir rootDir distIoniconsDir : path) : M (list SvgData) :=
  let optimizedSvgDir := join distIoniconsDir "svg" in
  effect (EmptyDir optimizedSvgDir) ;;;
  effect (ReadDir srcSvgDir) ;;;
  let svgFiles := filter (fun file => isSvgFile (fst file)) (listing w) in
  svgData <- all (map (svgRecord srcSvgDir optimizedSvgDir) svgFiles) ;;
  ret (Js.sort (Js.compareBy exportName) svgData).

Definition setOptimized (svgData : SvgData) (data : string) : SvgData :=
  {| fileName := fileName svgData;
     srcFilePath := srcFilePath svgData;
     srcSvgContent := srcSvgContent svgData;
     optimizedFilePath := optimizedFilePath svgData;
     optimizedSvgContent := Some data;
     iconName := iconName svgData;
     fileNameMjs := fileNameMjs svgData;
     fileNameCjs := fileNameCjs svgData;
     exportName := exportName svgData |}.

(** The source tree is not written by the build: the second read of the
    file returns the content the loader saw. *)
Definition optimizeSvg (svgData : SvgData) : M SvgData :=
  effect (ReadFile (srcFilePath svgData)) ;;;
  match svgo (srcSvgContent svgData) (srcFilePath svgData) with
  | None => throw (SvgoError (fileName svgData))
  | Some data =>
      effect (WriteFile (optimizedFilePath svgData) (Text data)) ;;;
      ret (setOptimized svgData data)
  end.

(** The records are updated in place; the updated array is returned. *)
Definition optimizeSvgs (srcSvgData : list SvgData) : M (list SvgData) :=
  all (map optimizeSvg srcSvgData).

Definition optimizedText (svgData : SvgData) : result string :=
  match optimizedSvgContent svgData with
  | Some s => Ok s
  | None => Err TypeError
  end.

Definition copyToTesting (rootDir distDir : path) (srcSvgData : list SvgData)
  : M unit :=
  let testDir := join rootDir "www" in
  let testBuildDir := join testDir "build" in
  let testSvgDir := join testBuildDir "svg" in
  effect (EnsureDir testSvgDir) ;;;
  all (map (fun svgData =>
              content <- lift (optimizedText svgData) ;;
              effect (WriteFile (join testSvgDir (fileName svgData)) (Text content)))
           srcSvgData) ;;;
  effect (CopyFile (join distDir "cheatsheet.html") (join testDir "cheatsheet.html")).

Definition symbolOf (svgData : SvgData) : result string :=
  rbind (optimizedText svgData) (fun optimized =>
  Ok (replaceFirst
        (replaceFirst optimized
           ("<svg xmlns=" ++ dq ++ "http://www.w3.org/2000/svg" ++ dq)
           ("<symbol id=" ++ dq ++ iconName svgData ++ dq))
        "</svg>" "</symbol>")).

(** The array is sorted in place, so the caller's array is sorted too: the
    sorted array is returned next to the document. *)
Definition createSvgSymbols (version : string) (distDir : path)
           (srcSvgData : list SvgData) : M (string * list SvgData) :=
  let srcSvgData := Js.sort (Js.compareBy iconName) srcSvgData in
  let symbolsSvgFilePath := join distDir "ionicons.symbols.svg" in
  let lines :=
    [ "<svg data-ionicons=" ++ dq ++ version ++ dq ++ " style="
        ++ dq ++ "display:none" ++ dq ++ ">";
      "<style>";
      ".ionicon {";
      "  fill: currentColor;";
      "  stroke: currentColor;";
      "}";
      ".ionicon-fill-none {";
      "  fill: none;";
      "}";
      ".ionicon-stroke-width {";
      "  stroke-width: 32px;";
      "}";
      "</style>" ] in
  symbols <- lift (mapR symbolOf srcSvgData) ;;
  let lines := (lines +++ symbols +++ ["</svg>"; EmptyString]) in
  let content := joinLines lines in
  effect (WriteFile symbolsSvgFilePath (Text content)) ;;;
  ret (content, srcSvgData).

Definition createCheatsheet (version : string) (rootDir distDir : path)
           (svgSymbolsContent : string) (srcSvgData : list SvgData) : M unit :=
  let CheatsheetTmpFilePath :=
    join (join rootDir "scripts") "cheatsheet-template.html" in
  let distCheatsheetFilePath := join distDir "cheatsheet.html" in
  let uses :=
    map (fun svgData =>
           "<svg><use href=" ++ dq ++ "#" ++ iconName svgData ++ dq
             ++ " xlink:href=" ++ dq ++ "#" ++ iconName svgData ++ dq
             ++ "/></svg>")
        srcSvgData in
  let c := (uses +++ [svgSymbolsContent]) in
  effect (ReadFile CheatsheetTmpFilePath) ;;;
  match template w with
  | None => throw ReadError
  | Some text =>
      let html :=
        replaceAll
          (replaceAll
             (replaceAll text "{{version}}" version)
             "{{count}}" (Js.natToString (List.length srcSvgData)))
          "{{content}}" (joinLines c) in
      effect (WriteFile distCheatsheetFilePath (Text html))
  end.


Definition createEsmIcons (version : string) (iconDir iconImportsDir : path)
           (srcSvgData : list SvgData) : M unit :=
  let iconEsmFilePath := join iconDir "index.mjs" in
  let imports :=
    map (fun svgData =>
           "import " ++ exportName svgData ++ " from './imports/"
             ++ fileNameMjs svgData ++ "';")
        srcSvgData in
  let exports :=
    map (fun svgData => "export { " ++ exportName svgData ++ " }") srcSvgData in
  let esmIndex :=
    ["/* Ionicons v" ++ version ++ ", ES Modules */"; EmptyString]
      +++ imports +++ exports in
  all (map (fun svgData =>
              let varName := exportName svgData ++ "Svg" in
              let content :=
                joinLines
                  [ "import " ++ varName ++ " from '../../dist/ionicons/svg/"
                      ++ fileName svgData ++ "';";
                    "export default /*#__PURE__*/ " ++ varName ++ ";";
                    EmptyString ] in
              effect (WriteFile (join iconImportsDir (fileNameMjs svgData))
                                (Text content)))
           srcSvgData) ;;;
  effect (WriteFile iconEsmFilePath (Text (joinLines esmIndex ++ nl))).

Definition createCjsIcons (version : string) (iconDir iconImportsDir : path)
           (srcSvgData : list SvgData) : M unit :=
  let iconCjsFilePath := join iconDir "index.js" in
  let requires :=
    map (fun svgData =>
           "exports." ++ exportName svgData
             ++ " = /*#__PURE__*/ require('./imports/"
             ++ fileNameCjs svgData ++ "');")
        srcSvgData in
  let cjsIndex :=
    ["/* Ionicons v" ++ version ++ ", CommonJS */"; EmptyString]
      +++ requires in
  all (map (fun svgData =>
              let content :=
                joinLines
                  [ "module.exports = /*#__PURE__*/ require('../../dist/ionicons/svg/"
                      ++ fileName svgData ++ "');";
                    EmptyString ] in
              effect (WriteFile (join iconImportsDir (fileNameCjs svgData))
                                (Text content)))
           srcSvgData) ;;;
  effect (WriteFile iconCjsFilePath (Text (joinLines cjsIndex ++ nl))).

Definition createDtsIcons (version : string) (iconDir : path)
           (srcSvgData : list SvgData) : M unit :=
  let iconDtsFilePath := join iconDir "index.d.ts" in
  let decls :=
    map (fun svgData => "export declare var " ++ exportName svgData ++ ": string;")
        srcSvgData in
  let dtsIndex :=
    ["/* Ionicons v" ++ version ++ ", Types */"; EmptyString] +++ decls in
  effect (WriteFile iconDtsFilePath (Text (joinLines dtsIndex ++ nl))).

Definition createIconPackage (version : string) (iconDir : path)
           (srcSvgData : list SvgData) : M unit :=
  let iconImportsDir := join iconDir "imports" in
  let iconPkgJsonFilePath := join iconDir "package.json" in
  effect (EmptyDir iconImportsDir) ;;;
  all [ createEsmIcons version iconDir iconImportsDir srcSvgData;
        createCjsIcons version iconDir iconImportsDir srcSvgData;
        createDtsIcons version iconDir srcSvgData ] ;;;
  let iconPkgJson :=
    {| pkgName := "ionicons/icons";
       pkgVersion := version;
       pkgModule := "index.mjs";
       pkgMain := "index.js";
       pkgTypings := "index.d.ts";
       pkgSideEffects := ["imports/"];
       pkgPrivate := true |} in
  effect (WriteFile iconPkgJsonFilePath (JsonManifest iconPkgJson)).

(** Nothing is written before the entries are reconciled and tagged, so
    that a TypeError leaves both catalogs as they were.
    [JSON.stringify] of an array writes its elements and not the member
    [icons] the script has put on it. *)
Definition createDataJson (version : string) (srcDir distDir : path)
           (srcSvgData : list SvgData) : M unit :=
  let srcDataJsonPath := join srcDir "data.json" in
  let distDataJsonPath := join distDir "ionicons.json" in
  effect (ReadJson srcDataJsonPath) ;;;
  data <- lift (Catalog.load (dataFile w) srcSvgData) ;;
  effect (WriteFile srcDataJsonPath
                    (match dataFile w with
                     | TopArray items => JsonArray items
                     | _ => JsonCatalog (Catalog.srcCatalog data srcSvgData)
                     end)) ;;;
  effect (WriteFile distDataJsonPath
                    (JsonCatalog (Catalog.distCatalog version data srcSvgData))).

Definition readVersion (pkgJsonPath : path) : M string :=
  effect (ReadJson pkgJsonPath) ;;;
  match manifest w with
  | Some version => ret version
  | None => throw ReadError
  end.

Definition build (rootDir : path) : M unit :=
  let pkgJsonPath := join rootDir "package.json" in
  let srcDir := join rootDir "src" in
  let srcSvgDir := join srcDir "svg" in
  let iconDir := join rootDir "icons" in
  let distDir := join rootDir "dist" in
  let distIoniconsDir := join distDir "ionicons" in
  all [effect (EmptyDir iconDir); effect (EmptyDir distDir)] ;;;
  effect (EmptyDir distIoniconsDir) ;;;
  version <- readVersion pkgJsonPath ;;
  srcSvgData <- getSvgs srcSvgDir rootDir distIoniconsDir ;;
  srcSvgData <- optimizeSvgs srcSvgData ;;
  all [ createDataJson version srcDir distDir srcSvgData;
        createIconPackage version iconDir srcSvgData ] ;;;
  symbols <- createSvgSymbols version distDir srcSvgData ;;
  let (svgSymbolsContent, srcSvgData) := symbols : string * list SvgData in
  createCheatsheet version rootDir distDir svgSymbolsContent srcSvgData ;;;
  copyToTesting rootDir distDir srcSvgData.

End WithLibraries.
End Build.

(** The files written by a run, in order. *)
Definition writes (log : list Effect) : list Effect := filter isWrite log.

(** ** Vocabulary of the statements *)

(** The string has one of the letters [A] to [Z]. For ASCII text this is
    the code's test [s.toLowerCase() !== s]. *)
Definition hasUpper (s : string) : bool :=
  existsb Js.isUpperChar (list_ascii_of_string s).


(** The number of characters of [s] that satisfy [isC]. *)
Fixpoint countChar (isC : ascii -> bool) (s : string) : nat :=
  match s with
  | EmptyString => 0
  | String c r => (if isC c then 1 else 0) + countChar isC r
  end.

(** [a] does not come after [b] in the order of their keys. *)
Definition keyLe {A : Type} (key : A -> string) (a b : A) : Prop :=
  String.leb (key a) (key b) = true.

(** The attributes the plugin's rules take away, and the class each rule
    puts in their place. *)
Definition isRemoved (a : Optimizer.Attr) : bool :=
  String.eqb (Optimizer.attrName a) "fill"
  || String.eqb (Optimizer.attrName a) "stroke"
  || (String.eqb (Optimizer.attrName a) "stroke-width"
      && String.eqb (Optimizer.attrValue a) "32").

Definition classFor (a : Optimizer.Attr) : option string :=
  if String.eqb (Optimizer.attrName a) "fill"
     && String.eqb (Optimizer.attrValue a) "none"
  then Some "ionicon-fill-none"
  else if String.eqb (Optimizer.attrName a) "stroke-width"
          && String.eqb (Optimizer.attrValue a) "32"
  then Some "ionicon-stroke-width"
  else None.

(** An attribute of the name of [b] is among [pending]. *)
Definition nameIn (pending : list Optimizer.Attr) (b : Optimizer.Attr) : bool :=
  existsb (fun q => String.eqb (Optimizer.attrName q) (Optimizer.attrName b)) pending.

(** The record the loader makes for the file [iconName.svg] of a source
    directory [src/svg], for an identifier without separators. *)
Definition plainRecord (iconName content : string) : SvgData :=
  {| fileName := iconName ++ ".svg";
     srcFilePath := ["src"; "svg"; iconName ++ ".svg"];
     srcSvgContent := content;
     optimizedFilePath := ["dist"; "ionicons"; "svg"; iconName ++ ".svg"];
     optimizedSvgContent := None;
     iconName := iconName;
     fileNameMjs := iconName ++ ".mjs";
     fileNameCjs := iconName ++ ".js";
     exportName := iconName |}.

(** The icon identifier of a file name: what precedes its first period. *)
Definition iconNameOf (fileName : string) : string :=
  hd EmptyString (Js.split Build.isDot fileName).

(** The world with another listing of [src/svg]. *)
Definition withSvgDir (w : World) (listing : list (string * string)) : World :=
  {| manifestVersion := manifestVersion w;
     svgDir := listing;
     dataJson := dataJson w;
     cheatsheetTemplate := cheatsheetTemplate w |}.


(** The two places the catalog is written to. *)
Definition srcDataJsonPath (rootDir : path) : path :=
  join (join rootDir "src") "data.json".

Definition distDataJsonPath (rootDir : path) : path :=
  join (join rootDir "dist") "ionicons.json".

(** The operation does not write to [target]. *)
Definition avoids (target : path) (e : Effect) : Prop :=
  match e with
  | WriteFile p _ => p <> target
  | CopyFile _ dst => dst <> target
  | _ => True
  end.

(** Every operation of the log of [m] satisfies [P]. *)
Definition logAll {A : Type} (P : Effect -> Prop) (m : M A) : Prop :=
  Forall P (fst m).


(** The operation leaves [target] alone, or writes [content] to it. *)
Definition onlyWrite (target : path) (content : Content) (e : Effect) : Prop :=
  avoids target e \/ e = WriteFile target content.

(** The validations and derivations of [getSvgs] accept the file name. *)
Definition isValidName (fileName : string) : bool :=
  match Build.svgNames fileName with
  | Ok _ => true
  | Err _ => false
  end.

(** The entries of the listing of [src/svg] that pass the filter of
    [getSvgs]. *)
Definition survivors (w : Disk) : list (string * string) :=
  filter (fun file => Build.isSvgFile (fst file)) (listing w).

(** The optimizer has filled in the markup of the record. *)
Definition hasContent (r : SvgData) : Prop := optimizedSvgContent r <> None.

(** [r] is the record the [map] callback of [getSvgs] builds for [file]. *)
Definition builtFrom (srcSvgDir optimizedSvgDir : path) (file : string * string)
           (r : SvgData) : Prop :=
  exists iconName exportName,
    Build.svgNames (fst file) = Ok (iconName, exportName)
    /\ r = {| fileName := fst file;
              srcFilePath := join srcSvgDir (fst file);
              srcSvgContent := snd file;
              optimizedFilePath := join optimizedSvgDir (fst file);
              optimizedSvgContent := None;
              iconName := iconName;
              fileNameMjs := iconName ++ ".mjs";
              fileNameCjs := iconName ++ ".js";
              exportName := exportName |}.

(** The record the loader makes for the file [iconName.svg] of [src/svg]
    whose export identifier is [exportName]. *)
Definition plainRecordAs (iconName exportName content : string) : SvgData :=
  {| fileName := iconName ++ ".svg";
     srcFilePath := ["src"; "svg"; iconName ++ ".svg"];
     srcSvgContent := content;
     optimizedFilePath := ["dist"; "ionicons"; "svg"; iconName ++ ".svg"];
     optimizedSvgContent := None;
     iconName := iconName;
     fileNameMjs := iconName ++ ".mjs";
     fileNameCjs := iconName ++ ".js";
     exportName := exportName |}.

(** The optimized markup of a record, once the optimizer has filled it in. *)
Definition markup (r : SvgData) : string :=
  match optimizedSvgContent r with
  | Some s => s
  | None => EmptyString
  end.

(** [svgo] accepts the source of [r] and [r'] is [r] with the result stored
    in it. *)
Definition optimizedFrom (svgo : string -> path -> option string)
           (r r' : SvgData) : Prop :=
  exists data,
    svgo (srcSvgContent r) (srcFilePath r) = Some data
    /\ r' = Build.setOptimized r data.

(** The path a write or a copy puts a file at. *)
Definition target (e : Effect) : list path :=
  match e with
  | WriteFile p _ => [p]
  | CopyFile _ dst => [dst]
  | _ => []
  end.

(** The paths a log writes to, in order. *)
Definition targets (log : list Effect) : list path := flat_map target log.

(** The directories of a run below [rootDir]. *)
Definition srcSvgDirOf (rootDir : path) : path := join (join rootDir "src") "svg".

Definition distIoniconsDirOf (rootDir : path) : path :=
  join (join rootDir "dist") "ionicons".

Definition optimizedDirOf (rootDir : path) : path :=
  join (distIoniconsDirOf rootDir) "svg".

Definition testSvgDirOf (rootDir : path) : path :=
  join (join (join rootDir "www") "build") "svg".

Definition importsDirOf (rootDir : path) : path :=
  join (join rootDir "icons") "imports".

(** The loader as [build] calls it. *)
Definition loadSources (w : Disk) (rootDir : path) : M (list SvgData) :=
  Build.getSvgs w (srcSvgDirOf rootDir) rootDir (distIoniconsDirOf rootDir).

(** The files of a distribution of the icons [names], in the order [build]
    puts them on disk: the optimized files, the two catalogs, the import
    wrappers with their indexes, the package manifest, the sprite, the
    cheatsheet, and the copies for the test page. *)
Definition outputs (rootDir : path) (names : list string) : list path :=
  map (fun n => join (optimizedDirOf rootDir) (n ++ ".svg")) names
  +++ [srcDataJsonPath rootDir; distDataJsonPath rootDir]
  +++ map (fun n => join (importsDirOf rootDir) (n ++ ".mjs")) names
  +++ [join (join rootDir "icons") "index.mjs"]
  +++ map (fun n => join (importsDirOf rootDir) (n ++ ".js")) names
  +++ [join (join rootDir "icons") "index.js";
       join (join rootDir "icons") "index.d.ts";
       join (join rootDir "icons") "package.json";
       join (join rootDir "dist") "ionicons.symbols.svg";
       join (join rootDir "dist") "cheatsheet.html"]
  +++ map (fun n => join (testSvgDirOf rootDir) (n ++ ".svg")) (Js.sortStrings names)
  +++ [join (join rootDir "www") "cheatsheet.html"].

(** The record the [map] callback of [getSvgs] returns for a listed file
    whose name it accepts. *)
Definition recordOf (srcSvgDir optimizedSvgDir : path) (file : string * string)
  : SvgData :=
  {| fileName := fst file;
     srcFilePath := join srcSvgDir (fst file);
     srcSvgContent := snd file;
     optimizedFilePath := join optimizedSvgDir (fst file);
     optimizedSvgContent := None;
     iconName := iconNameOf (fst file);
     fileNameMjs := iconNameOf (fst file) ++ ".mjs";
     fileNameCjs := iconNameOf (fst file) ++ ".js";
     exportName := Camel.camelize_spec (iconNameOf (fst file)) |}.

(** The cheatsheet for the icons [names] and the sprite document [sprite]:
    the template with its three placeholders filled in. *)
Definition cheatsheetHtml (replaceAll : string -> string -> string -> string)
           (template version : string) (names : list string) (sprite : string)
  : string :=
  replaceAll
    (replaceAll
       (replaceAll template "{{version}}" version)
       "{{count}}" (Js.natToString (List.length names)))
    "{{content}}"
    (joinLines
       (map (fun n => "<svg><use href=" ++ dq ++ "#" ++ n ++ dq
                        ++ " xlink:href=" ++ dq ++ "#" ++ n ++ dq ++ "/></svg>")
            names
          +++ [sprite])).

(** The text with every underscore turned into a hyphen. *)
Fixpoint hyphenate (s : string) : string :=
  match s with
  | EmptyString => EmptyString
  | String c r => String (if Ascii.eqb c "_" then "-"%char else c) (hyphenate r)
  end.

(** [p] is [dir] or a path below it. *)
Definition below (dir p : path) : Prop := exists rest, p = dir +++ rest.


(** * Properties *)

(** ** Strings and arrays *)

Section JsFacts.

Lemma split_not_nil (isSep : ascii -> bool) (s : string) :
  Js.split isSep s <> [].
Proof.
  destruct s as [|c r]; simpl; [discriminate|].
  destruct (isSep c); [discriminate|].
  destruct (Js.split isSep r); discriminate.
Qed.

(** Lower-casing acts character by character, so it commutes with dropping
    the first character. *)
Lemma slice1_toLowerCase (s : string) :
  Js.slice1 (Js.toLowerCase s) = Js.toLowerCase (Js.slice1 s).
Proof. destruct s; reflexivity. Qed.

Lemma toLowerChar_fixed (c : ascii) :
  Js.toLowerChar c = c <-> Js.isUpperChar c = false.
Proof.
  destruct c as [[] [] [] [] [] [] [] []]; vm_compute; split; congruence.
Qed.

(** A string is its own lower-casing exactly when it has no upper-case
    letter. *)
Lemma toLowerCase_fixed (s : string) :
  Js.toLowerCase s = s <-> hasUpper s = false.
Proof.
  unfold hasUpper.
  induction s as [|c r IH]; simpl; [tauto|].
  rewrite orb_false_iff, <- IH, <- toLowerChar_fixed.
  split.
  - intros H; injection H; auto.
  - intros [Hc Hr]; now rewrite Hc, Hr.
Qed.

(** Splitting yields one more piece than there are separators. *)
Lemma split_length (isSep : ascii -> bool) (s : string) :
  List.length (Js.split isSep s) = S (countChar isSep s).
Proof.
  induction s as [|c r IH]; simpl; [reflexivity|].
  destruct (isSep c); simpl; [now rewrite IH|].
  destruct (Js.split isSep r) eqn:E; simpl in *; lia.
Qed.

End JsFacts.

(** ** Sorting *)

Section SortFacts.

Context {A : Type} (key : A -> string).

Lemma compareBy_le (a b : A) :
  (Js.compareBy key a b <=? 0)%Z = true <-> keyLe key a b.
Proof.
  unfold Js.compareBy, keyLe, String.ltb, String.leb.
  rewrite (String.compare_antisym (key a) (key b)).
  destruct (String.compare (key b) (key a)); simpl; split; intros H;
    reflexivity || discriminate.
Qed.

Lemma compareBy_gt (a b : A) :
  (Js.compareBy key a b <=? 0)%Z = false -> keyLe key b a.
Proof.
  unfold Js.compareBy, keyLe, String.ltb, String.leb.
  rewrite (String.compare_antisym (key a) (key b)).
  destruct (String.compare (key b) (key a)); simpl; intros H;
    reflexivity || discriminate.
Qed.

Lemma insert_perm (x : A) (l : list A) :
  Permutation (x :: l) (Js.insert (Js.compareBy key) x l).
Proof.
  induction l as [|y r IH]; simpl; [reflexivity|].
  destruct (Js.compareBy key x y <=? 0)%Z; [reflexivity|].
  rewrite perm_swap. now constructor.
Qed.

Lemma sort_perm (l : list A) : Permutation l (Js.sort (Js.compareBy key) l).
Proof.
  induction l as [|x r IH]; simpl; [constructor|].
  rewrite <- insert_perm. now constructor.
Qed.

Lemma insert_hdrel (a x : A) (l : list A) :
  keyLe key a x -> HdRel (keyLe key) a l ->
  HdRel (keyLe key) a (Js.insert (Js.compareBy key) x l).
Proof.
  intros Hax Hal.
  destruct l as [|y r]; simpl; [now constructor|].
  destruct (Js.compareBy key x y <=? 0)%Z; constructor; auto.
  now inversion Hal.
Qed.

Lemma insert_sorted (x : A) (l : list A) :
  Sorted (keyLe key) l -> Sorted (keyLe key) (Js.insert (Js.compareBy key) x l).
Proof.
  induction 1 as [|y r Hr IH Hy]; simpl.
  - repeat constructor.
  - destruct (Js.compareBy key x y <=? 0)%Z eqn:E.
    + constructor; [now constructor|].
      constructor. now apply compareBy_le.
    + constructor; [assumption|].
      apply insert_hdrel; [|assumption].
      now apply compareBy_gt.
Qed.

Lemma sort_sorted (l : list A) : Sorted (keyLe key) (Js.sort (Js.compareBy key) l).
Proof.
  induction l as [|x r IH]; simpl; [constructor|].
  now apply insert_sorted.
Qed.

(** Sorting a sorted array changes nothing. *)
Lemma sort_of_sorted (l : list A) :
  Sorted (keyLe key) l -> Js.sort (Js.compareBy key) l = l.
Proof.
  induction 1 as [|x r Hr IH Hx]; simpl; [reflexivity|].
  rewrite IH.
  destruct Hx as [|y r' Hxy]; simpl; [reflexivity|].
  apply compareBy_le in Hxy. now rewrite Hxy.
Qed.

(** The code-unit order on strings is the order of [String_as_OT]. *)
Lemma leb_lt_or_eq (a b : string) :
  String.leb a b = true <-> String_as_OT.lt a b \/ a = b.
Proof.
  unfold String.leb, String_as_OT.lt.
  change (String.compare a b) with (String_as_OT.compare a b).
  destruct (String_as_OT.compare_spec a b) as [H|H|H].
  - split; auto.
  - split; auto.
  - split; [discriminate|]. intros [H'|H']; [discriminate|].
    subst b. exfalso. exact (StrictOrder_Irreflexive a H).
Qed.

Lemma keyLe_trans : Transitive (keyLe key).
Proof.
  intros a b c. unfold keyLe. rewrite !leb_lt_or_eq.
  intros [Hab|Hab] [Hbc|Hbc]; try rewrite Hab; try rewrite <- Hbc; auto.
  left. exact (StrictOrder_Transitive _ _ _ Hab Hbc).
Qed.

(** In a sorted array every element is followed only by elements that are
    not smaller. *)
Lemma sorted_strongly (l : list A) :
  Sorted (keyLe key) l -> StronglySorted (keyLe key) l.
Proof. apply Sorted_StronglySorted. exact keyLe_trans. Qed.

Lemma sort_idem (l : list A) :
  Js.sort (Js.compareBy key) (Js.sort (Js.compareBy key) l)
  = Js.sort (Js.compareBy key) l.
Proof. apply sort_of_sorted, sort_sorted. Qed.

Lemma sort_In (l : list A) (a : A) :
  In a (Js.sort (Js.compareBy key) l) <-> In a l.
Proof.
  split; apply Permutation_in; [symmetry|]; apply sort_perm.
Qed.

End SortFacts.

(** ** [camelize] *)

Section CamelFacts.

Lemma upFirst_nonempty (word : string) :
  word <> EmptyString -> Camel.upFirst word = Ok (Camel.capitalize_spec word).
Proof.
  destruct word as [|c r]; [congruence|].
  intros _. unfold Camel.upFirst. simpl Js.charAt0. cbv iota.
  now rewrite slice1_toLowerCase.
Qed.

Lemma mapR_upFirst_nonempty (ws : list string) :
  Forall (fun seg => seg <> EmptyString) ws ->
  mapR Camel.upFirst ws = Ok (map Camel.capitalize_spec ws).
Proof.
  induction 1 as [|x r Hx Hr IH]; simpl; [reflexivity|].
  now rewrite (upFirst_nonempty x Hx), IH.
Qed.

Lemma mapR_upFirst_empty (ws : list string) :
  Exists (fun seg => seg = EmptyString) ws ->
  mapR Camel.upFirst ws = Err TypeError.
Proof.
  induction 1 as [x r Hx|x r Hr IH]; simpl.
  - now rewrite Hx.
  - destruct x as [|c x']; [reflexivity|].
    rewrite (upFirst_nonempty (String c x')) by discriminate.
    simpl. now rewrite IH.
Qed.

Lemma camelize_on_nonempty (text : string) :
  Forall (fun seg => seg <> EmptyString) (Camel.laterSegments text) ->
  Camel.camelize text = Ok (Camel.camelize_spec text).
Proof.
  unfold Camel.laterSegments, Camel.camelize, Camel.camelize_spec.
  destruct (Js.split Camel.isDashOrUnderscore text) as [|w0 rest] eqn:E.
  - now apply split_not_nil in E.
  - simpl. intros H. now rewrite (mapR_upFirst_nonempty rest H).
Qed.

Lemma camelize_on_empty (text : string) :
  Exists (fun seg => seg = EmptyString) (Camel.laterSegments text) ->
  Camel.camelize text = Err TypeError.
Proof.
  unfold Camel.laterSegments, Camel.camelize.
  destruct (Js.split Camel.isDashOrUnderscore text) as [|w0 rest] eqn:E.
  - reflexivity.
  - simpl. intros H. now rewrite (mapR_upFirst_empty rest H).
Qed.

Lemma segments_dec (ws : list string) :
  Forall (fun seg => seg <> EmptyString) ws
  \/ Exists (fun seg => seg = EmptyString) ws.
Proof.
  induction ws as [|x r [IH|IH]].
  - left. constructor.
  - destruct x as [|c x']; [right; now constructor|].
    left. constructor; [discriminate|assumption].
  - right. now constructor 2.
Qed.

(** When [camelize] returns, it returns the conversion of the
    specification. *)
Lemma camelize_ok (text exportName : string) :
  Camel.camelize text = Ok exportName -> exportName = Camel.camelize_spec text.
Proof.
  intros Hok.
  destruct (segments_dec (Camel.laterSegments text)) as [Hall|Hex].
  - rewrite (camelize_on_nonempty text Hall) in Hok. congruence.
  - rewrite (camelize_on_empty text Hex) in Hok. discriminate.
Qed.


End CamelFacts.

(** ** The optimizer plugin *)

Section OptimizerFacts.

Import Optimizer.

Local Abbreviation ruleClass c :=
  (c = "ionicon-fill-none" \/ c = "ionicon-stroke-width").

Lemma filter_filter_and {A : Type} (p q : A -> bool) (l : list A) :
  filter p (filter q l) = filter (fun x => p x && q x) l.
Proof.
  induction l as [|x r IH]; simpl; [reflexivity|].
  destruct (q x); simpl.
  - rewrite andb_true_r. destruct (p x); now rewrite IH.
  - now rewrite andb_false_r.
Qed.

Lemma hasAttr_In (a : Attr) (item : Item) :
  In a (attrs item) -> hasAttr (attrName a) item = true.
Proof.
  intros H. apply existsb_exists. exists a. split; [assumption|].
  apply String.eqb_refl.
Qed.

Lemma removeAttr_attrs (n : string) (item : Item) :
  attrs (removeAttr n item)
  = filter (fun b => negb (String.eqb (attrName b) n)) (attrs item).
Proof.
  unfold removeAttr. destruct (hasAttr n item) eqn:Hhas.
  - unfold attrs at 1. cbn [attrsObject].
    destruct (filter _ (attrs item)), (classes item); reflexivity.
  - symmetry. apply forallb_filter_id. apply forallb_forall. intros b Hb.
    destruct (String.eqb (attrName b) n) eqn:E; [|reflexivity].
    unfold hasAttr in Hhas.
    assert (Hex : existsb (fun a => String.eqb (attrName a) n) (attrs item) = true).
    { apply existsb_exists. now exists b. }
    congruence.
Qed.

Lemma removeAttr_classes (n : string) (item : Item) :
  classes (removeAttr n item) = classes item.
Proof.
  unfold removeAttr. destruct (hasAttr n item); [|reflexivity].
  unfold classes at 1. cbn [attrsObject].
  destruct (filter _ (attrs item)), (classes item); reflexivity.
Qed.

Lemma removeAttr_isElem (n : string) (item : Item) :
  isElem (removeAttr n item) = isElem item.
Proof. unfold removeAttr. now destruct (hasAttr n item). Qed.

Lemma classAdd_attrs (c : string) (item : Item) :
  attrs (classAdd c item) = attrs item.
Proof.
  unfold classAdd, attrs.
  destruct (attrsObject item) eqn:E; cbn [attrsObject]; now rewrite ?E.
Qed.

Lemma classAdd_isElem (c : string) (item : Item) :
  isElem (classAdd c item) = isElem item.
Proof. unfold classAdd. now destruct (attrsObject item). Qed.

(** [class.add] keeps the names the node shows and appends at most the new
    one. *)
Lemma classAdd_appends (c : string) (item : Item) :
  exists added,
    classes (classAdd c item) = classes item +++ added
    /\ Forall (fun c' => c' = c) added.
Proof.
  unfold classAdd, classes.
  destruct (attrsObject item) as [|others names] eqn:E; cbn [attrsObject].
  - rewrite E. exists []. split; [reflexivity|constructor].
  - destruct (existsb (String.eqb c) names).
    + exists []. split; [now rewrite app_nil_r|constructor].
    + exists [c]. split; [reflexivity|now repeat constructor].
Qed.

(** On a node that still has its attributes object, [class.add] makes the
    name one of the node's. *)
Lemma classAdd_present (c : string) (item : Item) :
  attrsObject item <> Deleted -> In c (classes (classAdd c item)).
Proof.
  unfold classAdd, classes.
  destruct (attrsObject item) as [|others names]; [congruence|].
  intros _. cbn [attrsObject].
  destruct (existsb (String.eqb c) names) eqn:E.
  - apply existsb_exists in E. destruct E as [x [Hx Hcx]].
    apply String.eqb_eq in Hcx. now subst x.
  - apply in_or_app. right. now left.
Qed.

Lemma classes_deleted (item : Item) :
  attrsObject item = Deleted -> classes item = [] /\ attrs item = [].
Proof. unfold classes, attrs. now intros ->. Qed.

Lemma onAttr_attrs (a : Attr) (item : Item) :
  attrs (onAttr a item)
  = if isRemoved a
    then filter (fun b => negb (String.eqb (attrName b) (attrName a))) (attrs item)
    else attrs item.
Proof.
  unfold onAttr, isRemoved.
  destruct (String.eqb_spec (attrName a) "fill") as [Hf|Hf].
  - rewrite Hf, removeAttr_attrs.
    destruct (String.eqb (attrValue a) "none"); [|reflexivity].
    now rewrite classAdd_attrs.
  - destruct (String.eqb_spec (attrName a) "stroke") as [Hs|Hs].
    + rewrite Hs. apply removeAttr_attrs.
    + destruct (String.eqb_spec (attrName a) "stroke-width") as [Hw|Hw];
        [|reflexivity].
      rewrite Hw. destruct (String.eqb (attrValue a) "32"); [|reflexivity].
      cbn [andb orb]. now rewrite classAdd_attrs, removeAttr_attrs.
Qed.

Lemma onAttr_fixed (a : Attr) (item : Item) :
  isRemoved a = false -> onAttr a item = item.
Proof.
  unfold isRemoved, onAttr. intros H.
  apply orb_false_iff in H. destruct H as [H Hw].
  apply orb_false_iff in H. destruct H as [Hf Hs].
  now rewrite Hf, Hs, Hw.
Qed.

Lemma eachAttrFrom_fixed (pending : list Attr) (item : Item) :
  Forall (fun a => isRemoved a = false) pending ->
  eachAttrFrom pending onAttr item = item.
Proof.
  induction 1 as [|a rest Ha Hrest IH]; simpl; [reflexivity|].
  rewrite (onAttr_fixed a item Ha), IH. now destruct (hasAttr (attrName a) item).
Qed.

(** What one call of the callback leaves alone: the node stays the kind of
    node it is, and the names it shows stay, with at most a rule's class
    after them. *)
Lemma onAttr_frame (a : Attr) (item : Item) :
  isElem (onAttr a item) = isElem item
  /\ exists added,
       classes (onAttr a item) = classes item +++ added
       /\ Forall (fun c => ruleClass c) added
       /\ Forall (fun c => classFor a = Some c) added.
Proof.
  unfold onAttr, classFor.
  destruct (String.eqb (attrName a) "fill") eqn:Hfill.
  - destruct (String.eqb (attrValue a) "none"); cbn [andb].
    + rewrite removeAttr_isElem, removeAttr_classes, classAdd_isElem.
      split; [reflexivity|].
      destruct (classAdd_appends "ionicon-fill-none" item) as [added [Heq Hall]].
      exists added. split; [exact Heq|].
      split; (revert Hall; apply Forall_impl; intros c ->; auto).
    + rewrite removeAttr_isElem, removeAttr_classes.
      split; [reflexivity|]. exists [].
      split; [now rewrite app_nil_r|split; constructor].
  - cbn [andb]. destruct (String.eqb (attrName a) "stroke").
    + rewrite removeAttr_isElem, removeAttr_classes.
      split; [reflexivity|]. exists [].
      split; [now rewrite app_nil_r|split; constructor].
    + destruct (String.eqb (attrName a) "stroke-width"
                && String.eqb (attrValue a) "32").
      * rewrite classAdd_isElem, removeAttr_isElem.
        split; [reflexivity|].
        destruct (classAdd_appends "ionicon-stroke-width"
                                   (removeAttr "stroke-width" item))
          as [added [Heq Hall]].
        rewrite removeAttr_classes in Heq.
        exists added. split; [exact Heq|].
        split; (revert Hall; apply Forall_impl; intros c ->; auto).
      * split; [reflexivity|]. exists [].
        split; [now rewrite app_nil_r|split; constructor].
Qed.

Lemma eachAttrFrom_frame (pending : list Attr) :
  forall item : Item,
    isElem (eachAttrFrom pending onAttr item) = isElem item
    /\ exists added,
         classes (eachAttrFrom pending onAttr item) = classes item +++ added
         /\ Forall (fun c => ruleClass c) added.
Proof.
  induction pending as [|a rest IH]; intros item; simpl.
  - split; [reflexivity|]. exists []. split; [now rewrite app_nil_r|constructor].
  - destruct (hasAttr (attrName a) item); [|apply IH].
    destruct (IH (onAttr a item)) as [Helem [added [Heq Hall]]].
    destruct (onAttr_frame a item) as [Helem1 [added1 [Heq1 [Hall1 _]]]].
    split; [now rewrite Helem|].
    exists (added1 +++ added). split.
    + now rewrite Heq, Heq1, app_assoc.
    + apply Forall_app. now split.
Qed.

(** Once [node.attrs] is deleted the loop finds no attribute any more. *)
Lemma eachAttrFrom_deleted (pending : list Attr) (item : Item) :
  attrsObject item = Deleted -> eachAttrFrom pending onAttr item = item.
Proof.
  intros Hdel. induction pending as [|a rest IH]; simpl; [reflexivity|].
  unfold hasAttr. rewrite (proj2 (classes_deleted item Hdel)). exact IH.
Qed.

(** In an object keyed by name, two attributes of the same name are the
    same attribute. *)
Lemma same_name_same_attr (l : list Attr) (a b : Attr) :
  NoDup (map attrName l) -> In a l -> In b l -> attrName a = attrName b -> a = b.
Proof.
  induction l as [|x r IH]; simpl; [tauto|].
  intros Hnd [Ha|Ha] [Hb|Hb] Hn; inversion Hnd as [|? ? Hx Hr]; subst.
  - reflexivity.
  - exfalso. apply Hx. rewrite Hn. now apply in_map.
  - exfalso. apply Hx. rewrite <- Hn. now apply in_map.
  - now apply IH.
Qed.

Lemma NoDup_map_filter {V K : Type} (key : V -> K) (keep : V -> bool)
      (entries : list V) (Hnd : NoDup (map key entries)) :
  NoDup (map key (filter keep entries)).
Proof.
  revert Hnd. induction entries as [|x r IH]; simpl; [auto|].
  intros H. inversion H as [|? ? Hx Hr]; subst.
  destruct (keep x); simpl; [|auto].
  constructor; [|auto].
  intros Hin. apply Hx.
  apply in_map_iff in Hin. destruct Hin as [y [Hy Hin]].
  apply filter_In in Hin. rewrite <- Hy. apply in_map. tauto.
Qed.

(** One step of the loop keeps what the induction needs: the names stay
    distinct, and the attributes still to visit are still there. *)
Lemma onAttr_step (a : Attr) (rest : list Attr) (item : Item) :
  NoDup (map attrName (a :: rest)) ->
  NoDup (map attrName (attrs item)) ->
  incl (a :: rest) (attrs item) ->
  NoDup (map attrName (attrs (onAttr a item)))
  /\ incl rest (attrs (onAttr a item)).
Proof.
  intros Hp Hi Hincl. inversion Hp as [|? ? Hnotin Hrest]; subst.
  split.
  - rewrite onAttr_attrs. destruct (isRemoved a); [|assumption].
    now apply NoDup_map_filter.
  - intros q Hq. rewrite onAttr_attrs.
    destruct (isRemoved a); [|apply Hincl; now right].
    apply filter_In. split; [apply Hincl; now right|].
    apply negb_true_iff, String.eqb_neq. intros Heq.
    apply Hnotin. rewrite <- Heq. now apply in_map.
Qed.

(** The loop invariant of [eachAttr]: of the attributes still to visit,
    those a rule removes are gone at the end and every other attribute stays
    where it was; a class the node shows at the end was there before or is
    the class of a visited rule. *)
Lemma eachAttrFrom_onAttr (pending : list Attr) :
  forall item : Item,
    NoDup (map attrName pending) ->
    NoDup (map attrName (attrs item)) ->
    incl pending (attrs item) ->
    let out := eachAttrFrom pending onAttr item in
    attrs out
    = filter (fun b => negb (isRemoved b && nameIn pending b)) (attrs item)
    /\ (forall c, In c (classes out) ->
                  In c (classes item)
                  \/ exists a, In a pending /\ classFor a = Some c).
Proof.
  induction pending as [|a rest IH]; intros item Hp Hi Hincl; simpl.
  - split; [|auto].
    rewrite <- (filter_ext (fun _ => true)).
    + symmetry. apply forallb_filter_id. now apply forallb_forall.
    + intros b. now rewrite andb_false_r.
  - assert (Ha : In a (attrs item)) by (apply Hincl; now left).
    rewrite (hasAttr_In a item Ha).
    destruct (onAttr_step a rest item Hp Hi Hincl) as [Hi' Hincl'].
    inversion Hp as [|? ? Hnotin Hrest]; subst.
    destruct (IH (onAttr a item) Hrest Hi' Hincl') as [IHa IHc].
    split.
    + rewrite IHa, onAttr_attrs.
      destruct (isRemoved a) eqn:Hrem.
      * rewrite filter_filter_and.
        apply filter_ext_in. intros b Hb.
        destruct (String.eqb_spec (attrName a) (attrName b)) as [Hn|Hn].
        -- rewrite String.eqb_sym, (proj2 (String.eqb_eq _ _) Hn).
           assert (a = b) by (now apply (same_name_same_attr (attrs item))).
           subst b. rewrite Hrem. simpl. now rewrite andb_false_r.
        -- rewrite String.eqb_sym, (proj2 (String.eqb_neq _ _) Hn).
           simpl. now rewrite andb_true_r.
      * apply filter_ext_in. intros b Hb.
        destruct (String.eqb_spec (attrName a) (attrName b)) as [Hn|Hn];
          [|reflexivity].
        assert (a = b) by (now apply (same_name_same_attr (attrs item))).
        subst b. now rewrite Hrem.
    + intros c Hc. apply IHc in Hc.
      destruct (onAttr_frame a item) as [_ [added [Heq [_ Hfor]]]].
      destruct Hc as [Hc|[x [Hx Hc]]].
      * rewrite Heq in Hc. apply in_app_or in Hc. destruct Hc as [Hc|Hc];
          [now left|].
        right. exists a. split; [now left|].
        rewrite Forall_forall in Hfor. now apply Hfor.
      * right. exists x. split; [now right|assumption].
Qed.

(** The rule for [stroke-width="32"] removes the attribute first and adds
    the class afterwards. The class is on the node at the end of the loop
    exactly when the removal did not empty the attributes object. *)
Lemma eachAttrFrom_strokeWidth (pending : list Attr) :
  forall (item : Item) (a : Attr),
    NoDup (map attrName pending) ->
    NoDup (map attrName (attrs item)) ->
    incl pending (attrs item) ->
    In a pending ->
    attrName a = "stroke-width" ->
    attrValue a = "32" ->
    let out := eachAttrFrom pending onAttr item in
    In "ionicon-stroke-width" (classes out) <-> attrsObject out <> Deleted.
Proof.
  induction pending as [|b rest IH]; intros item a Hp Hi Hincl Ha Hn Hv;
    [contradiction|].
  simpl.
  assert (Hb : In b (attrs item)) by (apply Hincl; now left).
  rewrite (hasAttr_In b item Hb).
  destruct (onAttr_step b rest item Hp Hi Hincl) as [Hi' Hincl'].
  inversion Hp as [|? ? Hnotin Hrest]; subst.
  destruct Ha as [Hab|Ha]; [|now apply (IH (onAttr b item) a)].
  subst b.
  assert (Hstep : onAttr a item
                  = classAdd "ionicon-stroke-width"
                             (removeAttr "stroke-width" item)).
  { unfold onAttr. now rewrite Hn, Hv. }
  rewrite Hstep.
  destruct (attrsObject (removeAttr "stroke-width" item)) as [|others names]
    eqn:Hobj.
  - assert (Hdel : attrsObject (classAdd "ionicon-stroke-width"
                                         (removeAttr "stroke-width" item))
                   = Deleted).
    { unfold classAdd. now rewrite Hobj. }
    rewrite (eachAttrFrom_deleted rest _ Hdel).
    rewrite (proj1 (classes_deleted _ Hdel)). split; [intros []|congruence].
  - assert (Hin : In "ionicon-stroke-width"
                     (classes (classAdd "ionicon-stroke-width"
                                        (removeAttr "stroke-width" item)))).
    { apply classAdd_present. congruence. }
    destruct (eachAttrFrom_frame
                rest (classAdd "ionicon-stroke-width"
                               (removeAttr "stroke-width" item)))
      as [_ [added [Heq _]]].
    assert (Hout : In "ionicon-stroke-width"
                      (classes (eachAttrFrom rest onAttr
                                  (classAdd "ionicon-stroke-width"
                                            (removeAttr "stroke-width" item))))).
    { rewrite Heq. apply in_or_app. now left. }
    split; [intros _|intros _; exact Hout].
    intros Hdel. rewrite (proj1 (classes_deleted _ Hdel)) in Hout. exact Hout.
Qed.

End OptimizerFacts.

Section OptimizerRules.

Import Optimizer.

Lemma addFillNoneCss_elem (item : Item) :
  isElem item = true ->
  NoDup (map attrName (attrs item)) ->
  attrs (addFillNoneCss item) = filter (fun b => negb (isRemoved b)) (attrs item)
  /\ (forall c, In c (classes (addFillNoneCss item)) ->
                In c (classes item)
                \/ exists a, In a (attrs item) /\ classFor a = Some c).
Proof.
  intros He Hnd. unfold addFillNoneCss, eachAttr. rewrite He.
  destruct (eachAttrFrom_onAttr (attrs item) item Hnd Hnd (incl_refl _)) as [Ha Hc].
  split; [|exact Hc].
  rewrite Ha. apply filter_ext_in. intros b Hb.
  assert (Hin : nameIn (attrs item) b = true).
  { apply existsb_exists. exists b. split; [assumption|apply String.eqb_refl]. }
  now rewrite Hin, andb_true_r.
Qed.

Lemma hasAttr_filtered (n : string) (item out : Item) :
  attrs out = filter (fun b => negb (isRemoved b)) (attrs item) ->
  (forall b, In b (attrs item) -> attrName b = n -> isRemoved b = true) ->
  hasAttr n out = false.
Proof.
  intros Hout Hrem. unfold hasAttr. rewrite Hout.
  destruct (existsb _ _) eqn:E; [|reflexivity].
  apply existsb_exists in E. destruct E as [b [Hb Hn]].
  apply filter_In in Hb. destruct Hb as [Hin Hb].
  apply String.eqb_eq in Hn. rewrite (Hrem b Hin Hn) in Hb. discriminate.
Qed.

End OptimizerRules.

(** C2. The rule for [stroke-width="32"] removes the attribute before it
    adds the class, where the rule for [fill="none"] adds the class before
    it removes the attribute. On an element whose last attribute the removal
    takes, [<g stroke="#000" stroke-width="32">], svgo deletes the
    attributes object with it and the class does not reach the element: the
    plugin returns the element with no attribute and no class. An element
    with only [fill="none"] does get its class, and so does an element that
    keeps another attribute next to [stroke-width="32"]. In general, on an
    element with a [stroke-width="32"] attribute the attribute is removed,
    and the class [ionicon-stroke-width] is on the element afterwards
    exactly when the element still has its attributes object. *)
Theorem stroke_width_class_is_lost :
  let stroke := {| Optimizer.attrName := "stroke"; Optimizer.attrValue := "#000" |} in
  let wide := {| Optimizer.attrName := "stroke-width"; Optimizer.attrValue := "32" |} in
  let fillNone := {| Optimizer.attrName := "fill"; Optimizer.attrValue := "none" |} in
  let d := {| Optimizer.attrName := "d"; Optimizer.attrValue := "M0 0h8" |} in
  Optimizer.addFillNoneCss
    {| Optimizer.isElem := true;
       Optimizer.attrsObject := Optimizer.Present [stroke; wide] [] |}
  = {| Optimizer.isElem := true; Optimizer.attrsObject := Optimizer.Deleted |}
  /\ Optimizer.addFillNoneCss
       {| Optimizer.isElem := true;
          Optimizer.attrsObject := Optimizer.Present [fillNone] [] |}
     = {| Optimizer.isElem := true;
          Optimizer.attrsObject := Optimizer.Present [] ["ionicon-fill-none"] |}
  /\ Optimizer.addFillNoneCss
       {| Optimizer.isElem := true;
          Optimizer.attrsObject := Optimizer.Present [stroke; wide; d] [] |}
     = {| Optimizer.isElem := true;
          Optimizer.attrsObject := Optimizer.Present [d] ["ionicon-stroke-width"] |}
  /\ (forall (item : Optimizer.Item) (a : Optimizer.Attr),
         Optimizer.isElem item = true ->
         NoDup (map Optimizer.attrName (Optimizer.attrs item)) ->
         In a (Optimizer.attrs item) ->
         Optimizer.attrName a = "stroke-width" ->
         Optimizer.attrValue a = "32" ->
         Optimizer.hasAttr "stroke-width" (Optimizer.addFillNoneCss item) = false
         /\ (In "ionicon-stroke-width"
                (Optimizer.classes (Optimizer.addFillNoneCss item))
             <-> Optimizer.attrsObject (Optimizer.addFillNoneCss item)
                 <> Optimizer.Deleted)).
Proof.
  intros stroke wide fillNone d.
  split; [reflexivity|]. split; [reflexivity|]. split; [reflexivity|].
  intros item a He Hnd Ha Hn Hv. split.
  - apply (hasAttr_filtered "stroke-width" item).
    + now apply addFillNoneCss_elem.
    + intros b Hb Hbn.
      assert (b = a)
        by (apply (same_name_same_attr (Optimizer.attrs item)); congruence).
      subst b. unfold isRemoved. rewrite Hn, Hv. reflexivity.
  - unfold Optimizer.addFillNoneCss, Optimizer.eachAttr. rewrite He.
    now apply (eachAttrFrom_strokeWidth (Optimizer.attrs item) item a Hnd Hnd
                                        (incl_refl _)).
Qed.

(** ** Catalog reconciliation *)

Section CatalogFacts.

Lemma hasName_In (n : string) (l : list IconEntry) :
  Catalog.hasName n l = true <-> In n (map name l).
Proof.
  unfold Catalog.hasName. rewrite existsb_exists, in_map_iff.
  split; intros [x [H1 H2]]; exists x.
  - apply String.eqb_eq in H2. tauto.
  - split; [assumption|]. now apply String.eqb_eq.
Qed.

Lemma isCurrent_In (srcSvgData : list SvgData) (e : IconEntry) :
  Catalog.isCurrent srcSvgData e = true <-> In (name e) (map iconName srcSvgData).
Proof.
  unfold Catalog.isCurrent. rewrite existsb_exists, in_map_iff.
  split; intros [x [H1 H2]]; exists x.
  - apply String.eqb_eq in H2. split; [congruence|assumption].
  - split; [assumption|]. apply String.eqb_eq. congruence.
Qed.

(** What the first loop appends: one untagged entry for every current
    identifier the catalog lacks, and nothing else. *)
Lemma addNewIcons_appends (srcSvgData : list SvgData) :
  forall dataIcons : list IconEntry,
  exists added : list IconEntry,
    Catalog.addNewIcons dataIcons srcSvgData = dataIcons +++ added
    /\ Forall (fun e => tags e = None
                        /\ In (name e) (map iconName srcSvgData)
                        /\ ~ In (name e) (map name dataIcons)) added
    /\ NoDup (map name added)
    /\ (forall s, In s srcSvgData ->
                  In (iconName s) (map name (dataIcons +++ added))).
Proof.
  unfold Catalog.addNewIcons.
  induction srcSvgData as [|s rest IH]; intros dataIcons; simpl.
  - exists []. rewrite app_nil_r. repeat split; try constructor. intros s [].
  - destruct (Catalog.hasName (iconName s) dataIcons) eqn:E.
    + destruct (IH dataIcons) as [added [Heq [Hall [Hnd Hcov]]]].
      exists added. split; [assumption|]. split; [|split; [assumption|]].
      * eapply Forall_impl; [|exact Hall]. simpl. intuition.
      * intros s' [Hs|Hs]; [|now apply Hcov].
        subst s'. rewrite map_app, in_app_iff. left. now apply hasName_In.
    + destruct (IH (dataIcons +++ [{| name := iconName s; tags := None |}]))
        as [added [Heq [Hall [Hnd Hcov]]]].
      exists ({| name := iconName s; tags := None |} :: added).
      split; [rewrite Heq, <- app_assoc; reflexivity|].
      assert (Hfresh : ~ In (iconName s) (map name dataIcons)).
      { rewrite <- hasName_In, E. discriminate. }
      split; [|split].
      * constructor; [simpl; tauto|].
        eapply Forall_impl; [|exact Hall]. simpl.
        intros e [Ht [Hin Hout]]. split; [assumption|]. split; [tauto|].
        intros Hc. apply Hout. rewrite map_app, in_app_iff. now left.
      * simpl. constructor; [|assumption].
        intros Hin. rewrite Forall_forall in Hall.
        apply in_map_iff in Hin. destruct Hin as [e [Hne He]].
        destruct (Hall e He) as [_ [_ Hout]]. apply Hout.
        rewrite map_app, in_app_iff. right. simpl. now left.
      * intros s' [Hs|Hs].
        -- subst s'. rewrite map_app, in_app_iff. right. simpl. now left.
        -- specialize (Hcov s' Hs).
           rewrite !map_app, !in_app_iff in *. simpl in *. tauto.
Qed.

Lemma withTags_name (e : IconEntry) : name (Catalog.withTags e) = name e.
Proof. reflexivity. Qed.

Lemma map_withTags_names (l : list IconEntry) :
  map name (map Catalog.withTags l) = map name l.
Proof. rewrite map_map. apply map_ext. intros e. reflexivity. Qed.

Lemma reconcile_In (dataIcons : list IconEntry) (srcSvgData : list SvgData)
      (e : IconEntry) :
  In e (Catalog.reconcile dataIcons srcSvgData)
  <-> In e (Catalog.addNewIcons dataIcons srcSvgData)
      /\ In (name e) (map iconName srcSvgData).
Proof.
  unfold Catalog.reconcile, Catalog.sortIcons, Catalog.removeDeadIcons.
  now rewrite sort_In, filter_In, isCurrent_In.
Qed.

Lemma Sorted_map_key {A B : Type} (f : A -> B) (ka : A -> string) (kb : B -> string)
      (l : list A) :
  (forall a, kb (f a) = ka a) ->
  Sorted (keyLe ka) l -> Sorted (keyLe kb) (map f l).
Proof.
  intros Hk. induction 1 as [|x r Hr IH Hx]; simpl; constructor; [assumption|].
  destruct Hx as [|y r' Hxy]; simpl; constructor.
  unfold keyLe in *. now rewrite !Hk.
Qed.

End CatalogFacts.

Lemma reconcile_names
      (dataIcons : list IconEntry) (srcSvgData : list SvgData) (n : string) :
  In n (map name (Catalog.reconcile dataIcons srcSvgData))
  <-> In n (map iconName srcSvgData).
Proof.
  destruct (addNewIcons_appends srcSvgData dataIcons)
    as [added [Heq [_ [_ Hcov]]]].
  split.
  - intros Hn. apply in_map_iff in Hn. destruct Hn as [e [Hne He]].
    apply reconcile_In in He. now rewrite <- Hne.
  - intros Hn. apply in_map_iff in Hn. destruct Hn as [s [Hsn Hs]].
    specialize (Hcov s Hs). rewrite <- Heq in Hcov.
    apply in_map_iff in Hcov. destruct Hcov as [e [Hne He]].
    apply in_map_iff. exists e. split; [congruence|].
    apply reconcile_In. split; [assumption|].
    rewrite Hne. now apply in_map.
Qed.

Lemma finalIcons_sorted (data : JsonData) (srcSvgData : list SvgData) :
  Sorted (keyLe name) (Catalog.finalIcons data srcSvgData).
Proof.
  apply (Sorted_map_key Catalog.withTags name name); [reflexivity|].
  apply sort_sorted.
Qed.

(** C3. Reconciliation of a persisted entry list with the current icon
    records: the first loop appends one new entry, without tags, for every
    current identifier that has no entry, and appends nothing else; the filter
    removes exactly the entries whose name is no current identifier; and the
    list that results is sorted by name, also once the tags are filled in. *)
Theorem reconcile_adds_removes_sorts
        (dataIcons : list IconEntry) (srcSvgData : list SvgData) :
  (exists added : list IconEntry,
      Catalog.addNewIcons dataIcons srcSvgData = dataIcons +++ added
      /\ (forall s, In s srcSvgData ->
                    ~ In (iconName s) (map name dataIcons) ->
                    In {| name := iconName s; tags := None |} added)
      /\ (forall e, In e added ->
                    tags e = None
                    /\ In (name e) (map iconName srcSvgData)
                    /\ ~ In (name e) (map name dataIcons)))
  /\ (forall e,
         In e (Catalog.removeDeadIcons
                 (Catalog.addNewIcons dataIcons srcSvgData) srcSvgData)
         <-> In e (Catalog.addNewIcons dataIcons srcSvgData)
             /\ In (name e) (map iconName srcSvgData))
  /\ (forall n, In n (map name (Catalog.reconcile dataIcons srcSvgData))
                <-> In n (map iconName srcSvgData))
  /\ StronglySorted (keyLe name) (Catalog.reconcile dataIcons srcSvgData)
  /\ StronglySorted (keyLe name)
                    (map Catalog.withTags (Catalog.reconcile dataIcons srcSvgData)).
Proof.
  destruct (addNewIcons_appends srcSvgData dataIcons)
    as [added [Heq [Hall [Hnd Hcov]]]].
  rewrite Forall_forall in Hall.
  split; [|split; [|split; [|split]]].
  - exists added. split; [assumption|]. split; [|exact Hall].
    intros s Hs Hfresh.
    specialize (Hcov s Hs). rewrite map_app, in_app_iff in Hcov.
    destruct Hcov as [Hc|Hc]; [contradiction|].
    apply in_map_iff in Hc. destruct Hc as [e [Hne He]].
    destruct (Hall e He) as [Ht _].
    destruct e as [n t]; simpl in *. now subst.
  - intros e. unfold Catalog.removeDeadIcons.
    now rewrite filter_In, isCurrent_In.
  - intros n. apply reconcile_names.
  - apply sorted_strongly, sort_sorted.
  - apply sorted_strongly.
    apply (Sorted_map_key Catalog.withTags name name); [reflexivity|].
    apply sort_sorted.
Qed.

Lemma reconcile_adds_removes_sorts_witness :
  let old := [ {| name := "star"; tags := Some ["favorite"] |};
               {| name := "gone"; tags := None |} ] in
  let src := [ plainRecord "star" "s"; plainRecord "add" "a" ] in
  In {| name := "add"; tags := None |} (Catalog.reconcile old src)
  /\ ~ In "gone" (map name (Catalog.reconcile old src)).
Proof.
  intros old src.
  destruct (reconcile_adds_removes_sorts old src) as [_ [_ [Hnames _]]].
  split.
  - vm_compute. now left.
  - intros Hin. apply Hnames in Hin. simpl in Hin.
    destruct Hin as [H|[H|[]]]; discriminate.
Defined.

(** Splitting at hyphens takes every hyphen out and nothing else: the
    segments have no hyphen, and joined by hyphens they give the text back. *)
Lemma split_hyphen_segments (text : string) :
  Js.split Catalog.isHyphen text <> []
  /\ Forall (fun seg => countChar (fun c => Ascii.eqb c "-") seg = 0)
            (Js.split Catalog.isHyphen text)
  /\ String.concat "-" (Js.split Catalog.isHyphen text) = text.
Proof.
  split; [apply split_not_nil|].
  induction text as [|c r [IHclean IHjoin]]; [split; [repeat constructor|reflexivity]|].
  cbn [Js.split].
  destruct (Js.split Catalog.isHyphen r) as [|seg segs] eqn:Er.
  { now apply split_not_nil in Er. }
  destruct (Catalog.isHyphen c) eqn:Hc; unfold Catalog.isHyphen in Hc.
  - apply Ascii.eqb_eq in Hc. subst c.
    split; [constructor; [reflexivity|exact IHclean]|].
    change (String.concat "-" (EmptyString :: seg :: segs))
      with ("-" ++ String.concat "-" (seg :: segs)).
    now rewrite IHjoin.
  - inversion IHclean as [|? ? Hseg Hsegs]; subst.
    split.
    + constructor; [|exact Hsegs]. simpl. now rewrite Hc.
    + destruct segs; reflexivity.
Qed.

(** C4. Every entry of the catalog that is written comes from an entry of the
    reconciled list, which is a persisted entry or a new one without tags. If
    that entry had no tags, the tags are its name split on hyphens, sorted:
    the segments hold no hyphen and, joined by hyphens, give the name back.
    If it had tags, they are the same tags sorted again: none added, none
    removed. A persisted entry of a current icon is always carried over. *)
Theorem tags_derived_or_resorted (data : JsonData) (srcSvgData : list SvgData) :
  (forall e', In e' (Catalog.finalIcons data srcSvgData) ->
     exists e,
       In e (Catalog.reconcile (Catalog.dataIcons data) srcSvgData)
       /\ (In e (Catalog.dataIcons data) \/ tags e = None)
       /\ name e' = name e
       /\ (tags e = None ->
           tags e' = Some (Js.sortStrings (Js.split Catalog.isHyphen (name e)))
           /\ exists segments,
                tags e' = Some (Js.sortStrings segments)
                /\ segments <> []
                /\ Forall (fun seg => countChar (fun c => Ascii.eqb c "-") seg = 0)
                          segments
                /\ String.concat "-" segments = name e)
       /\ (forall t, tags e = Some t ->
                     tags e' = Some (Js.sortStrings t)
                     /\ Permutation t (Js.sortStrings t))
       /\ (exists t', tags e' = Some t' /\ StronglySorted (keyLe (fun s => s)) t'))
  /\ (forall e, In e (Catalog.dataIcons data) ->
                In (name e) (map iconName srcSvgData) ->
                In (Catalog.withTags e) (Catalog.finalIcons data srcSvgData)).
Proof.
  unfold Catalog.finalIcons. split.
  - intros e' He'. apply in_map_iff in He'. destruct He' as [e [Hee He]].
    exists e. subst e'. split; [assumption|].
    split.
    { apply reconcile_In in He. destruct He as [He _].
      destruct (addNewIcons_appends srcSvgData (Catalog.dataIcons data))
        as [added [Heq [Hall _]]].
      rewrite Heq, in_app_iff in He. destruct He as [He|He]; [now left|].
      rewrite Forall_forall in Hall. right. now apply Hall. }
    split; [reflexivity|].
    unfold Catalog.withTags; simpl.
    split.
    { intros Ht. rewrite Ht. split; [reflexivity|].
      exists (Js.split Catalog.isHyphen (name e)).
      split; [reflexivity|]. apply split_hyphen_segments. }
    split.
    + intros t Ht. rewrite Ht. split; [reflexivity|]. apply sort_perm.
    + eexists. split; [reflexivity|]. apply sorted_strongly, sort_sorted.
  - intros e He Hn. apply in_map. apply reconcile_In. split; [|assumption].
    destruct (addNewIcons_appends srcSvgData (Catalog.dataIcons data))
      as [added [Heq _]].
    rewrite Heq, in_app_iff. now left.
Qed.

Lemma tags_derived_or_resorted_witness :
  let data := {| members := [];
                 icons := Some [ {| name := "star"; tags := Some ["z"; "fav"] |} ] |} in
  let src := [ plainRecord "star" "s";
               plainRecordAs "arrow-up-circle" "arrowUpCircle" "a" ] in
  In {| name := "star"; tags := Some ["fav"; "z"] |} (Catalog.finalIcons data src)
  /\ In {| name := "arrow-up-circle"; tags := Some ["arrow"; "circle"; "up"] |}
        (Catalog.finalIcons data src)
  /\ exists segments,
       Some ["arrow"; "circle"; "up"] = Some (Js.sortStrings segments)
       /\ String.concat "-" segments = "arrow-up-circle".
Proof.
  intros data src.
  assert (Hnew : In {| name := "arrow-up-circle";
                       tags := Some ["arrow"; "circle"; "up"] |}
                    (Catalog.finalIcons data src)) by (vm_compute; now left).
  split; [|split; [exact Hnew|]].
  - apply (proj2 (tags_derived_or_resorted data src)
                 {| name := "star"; tags := Some ["z"; "fav"] |}).
    + now left.
    + now left.
  - destruct (proj1 (tags_derived_or_resorted data src) _ Hnew)
      as [e [_ [Horigin [Hname [Hderived _]]]]].
    assert (Hnone : tags e = None).
    { destruct Horigin as [[He|[]]|Hnone]; [|exact Hnone].
      subst e. discriminate Hname. }
    destruct (Hderived Hnone) as [_ [segments [Htags [_ [_ Hjoin]]]]].
    exists segments. split; [exact Htags|]. now rewrite Hjoin, <- Hname.
Defined.

(** C5, as amended. When no two persisted entries share a name, no two
    entries of the reconciled catalog do. *)
Theorem reconcile_keeps_names_unique (data : JsonData) (srcSvgData : list SvgData) :
  NoDup (map name (Catalog.dataIcons data)) ->
  NoDup (map name (Catalog.finalIcons data srcSvgData)).
Proof.
  intros Hnd. unfold Catalog.finalIcons. rewrite map_withTags_names.
  unfold Catalog.reconcile, Catalog.sortIcons.
  eapply Permutation_NoDup; [apply Permutation_map, sort_perm|].
  unfold Catalog.removeDeadIcons. apply NoDup_map_filter.
  destruct (addNewIcons_appends srcSvgData (Catalog.dataIcons data))
    as [added [Heq [Hall [Hnd' _]]]].
  rewrite Heq, map_app. apply NoDup_app; [assumption|assumption|].
  intros n Hn Hin. rewrite Forall_forall in Hall.
  apply in_map_iff in Hin. destruct Hin as [e [Hne He]].
  destruct (Hall e He) as [_ [_ Hout]]. apply Hout. now rewrite Hne.
Qed.

Lemma reconcile_keeps_names_unique_witness :
  let data := {| members := [];
                 icons := Some [ {| name := "star"; tags := None |};
                                 {| name := "gone"; tags := None |} ] |} in
  let src := [ plainRecord "star" "s"; plainRecord "add" "a" ] in
  NoDup (map name (Catalog.dataIcons data))
  /\ NoDup (map name (Catalog.finalIcons data src)).
Proof.
  intros data src.
  assert (H : NoDup (map name (Catalog.dataIcons data))).
  { simpl. repeat constructor; simpl; intuition discriminate. }
  split; [exact H|].
  exact (reconcile_keeps_names_unique data src H).
Defined.

(** C5 as stated fails: a persisted catalog with two entries named [star]
    keeps both when [star] is a current icon. *)
Lemma reconcile_keeps_duplicates :
  let data := {| members := [];
                 icons := Some [ {| name := "star"; tags := None |};
                                 {| name := "star"; tags := Some ["fav"] |} ] |} in
  let src := [ plainRecord "star" "s" ] in
  map name (Catalog.finalIcons data src) = ["star"; "star"]
  /\ ~ NoDup (map name (Catalog.finalIcons data src)).
Proof.
  intros data src.
  assert (H : map name (Catalog.finalIcons data src) = ["star"; "star"])
    by reflexivity.
  split; [exact H|].
  rewrite H. intros Hnd. inversion Hnd as [|x l Hx Hl]; subst.
  apply Hx. now left.
Qed.

(** ** Logged computations *)

Section MonadFacts.

Context {A : Type}.

Lemma all_fst (ms : list (M A)) : fst (all ms) = concat (map fst ms).
Proof.
  induction ms as [|[log r] rest IH]; simpl; [reflexivity|].
  destruct (all rest) as [log' rs]. simpl in *. now rewrite IH.
Qed.

(** [Promise.all] rejects as soon as one of its promises does. *)
Lemma all_err_in (ms : list (M A)) (m : M A) (e : Error) :
  In m ms -> snd m = Err e -> exists e', snd (all ms) = Err e'.
Proof.
  induction ms as [|[log r] rest IH]; simpl; [tauto|].
  intros [Hm|Hm] He.
  - subst m. simpl in He. subst r.
    destruct (all rest) as [log' rs]. simpl. now exists e.
  - destruct (IH Hm He) as [e' He'].
    destruct (all rest) as [log' rs]. simpl in *. subst rs.
    destruct r; [now exists e'|eexists; reflexivity].
Qed.

(** The exception of [Promise.all] is the exception of one of them. *)
Lemma all_err_origin (ms : list (M A)) (e : Error) :
  snd (all ms) = Err e -> exists m, In m ms /\ snd m = Err e.
Proof.
  induction ms as [|[log r] rest IH]; simpl; [discriminate|].
  destruct (all rest) as [log' rs]. simpl in *.
  destruct r as [a|e0].
  - destruct rs as [vs|e1]; [discriminate|].
    intros H. injection H as ->.
    destruct (IH eq_refl) as [m [Hm He]]. exists m. tauto.
  - intros H. injection H as ->. exists (log, Err e). simpl. tauto.
Qed.

Lemma all_ok (ms : list (M A)) (vs : list A) :
  snd (all ms) = Ok vs -> Forall2 (fun m v => snd m = Ok v) ms vs.
Proof.
  revert vs. induction ms as [|[log r] rest IH]; simpl; intros vs.
  - intros H. injection H as <-. constructor.
  - destruct (all rest) as [log' rs]. simpl in *.
    destruct r as [a|e0]; [|discriminate].
    destruct rs as [vs'|e1]; [|discriminate].
    intros H. injection H as <-. constructor; [reflexivity|]. now apply IH.
Qed.

Lemma concat_no_writes (logs : list (list Effect)) :
  Forall (fun log => writes log = []) logs -> writes (concat logs) = [].
Proof.
  unfold writes.
  induction 1 as [|log rest Hlog Hrest IH]; simpl; [reflexivity|].
  now rewrite filter_app, Hlog, IH.
Qed.

End MonadFacts.

(** ** The loader *)

Section LoaderFacts.

Variables (srcSvgDir optimizedSvgDir : path).

Lemma svgRecord_eq (fileName content : string) :
  Build.svgRecord srcSvgDir optimizedSvgDir (fileName, content)
  = match Build.svgNames fileName with
    | Err e => ([], Err e)
    | Ok (iconName, exportName) =>
        ([ReadFile (join srcSvgDir fileName)],
         Ok {| fileName := fileName;
               srcFilePath := join srcSvgDir fileName;
               srcSvgContent := content;
               optimizedFilePath := join optimizedSvgDir fileName;
               optimizedSvgContent := None;
               iconName := iconName;
               fileNameMjs := iconName ++ ".mjs";
               fileNameCjs := iconName ++ ".js";
               exportName := exportName |})
    end.
Proof.
  unfold Build.svgRecord, lift, bind.
  destruct (Build.svgNames fileName) as [[i x]|e]; reflexivity.
Qed.

Lemma svgRecord_no_writes (file : string * string) :
  writes (fst (Build.svgRecord srcSvgDir optimizedSvgDir file)) = [].
Proof.
  destruct file as [f c]. rewrite svgRecord_eq.
  destruct (Build.svgNames f) as [[i x]|e]; reflexivity.
Qed.

Lemma svgRecord_err (fileName content : string) (e : Error) :
  snd (Build.svgRecord srcSvgDir optimizedSvgDir (fileName, content)) = Err e
  <-> Build.svgNames fileName = Err e.
Proof.
  rewrite svgRecord_eq.
  destruct (Build.svgNames fileName) as [[i x]|e0]; simpl;
    split; congruence.
Qed.

End LoaderFacts.

Section GetSvgsFacts.

Variables (w : Disk) (srcSvgDir rootDir distIoniconsDir : path).

Local Abbreviation records :=
  (all (map (Build.svgRecord srcSvgDir (join distIoniconsDir "svg"))
            (filter (fun file => Build.isSvgFile (fst file)) (listing w)))).

Lemma getSvgs_eq :
  Build.getSvgs w srcSvgDir rootDir distIoniconsDir
  = (EmptyDir (join distIoniconsDir "svg") :: ReadDir srcSvgDir :: fst records,
     match snd records with
     | Ok svgData => Ok (Js.sort (Js.compareBy exportName) svgData)
     | Err e => Err e
     end).
Proof.
  unfold Build.getSvgs. simpl.
  destruct (all _) as [log [d|e]]; simpl; [|reflexivity].
  now rewrite app_nil_r.
Qed.

Lemma getSvgs_no_writes :
  writes (fst (Build.getSvgs w srcSvgDir rootDir distIoniconsDir)) = [].
Proof.
  rewrite getSvgs_eq. cbn [fst snd]. rewrite all_fst.
  apply concat_no_writes. rewrite map_map.
  apply Forall_forall. intros log Hlog.
  apply in_map_iff in Hlog. destruct Hlog as [file [Hf _]]. subst log.
  apply svgRecord_no_writes.
Qed.

(** One listed file that survives the filter and fails its validations
    makes the loader throw. *)
Lemma getSvgs_throws (fileName content : string) (e : Error) :
  In (fileName, content) (listing w) ->
  Build.isSvgFile fileName = true ->
  Build.svgNames fileName = Err e ->
  exists e', snd (Build.getSvgs w srcSvgDir rootDir distIoniconsDir) = Err e'.
Proof.
  intros Hin Hsvg Herr. rewrite getSvgs_eq. cbn [fst snd].
  destruct (all_err_in
              (map (Build.svgRecord srcSvgDir (join distIoniconsDir "svg"))
                   (filter (fun file => Build.isSvgFile (fst file)) (listing w)))
              (Build.svgRecord srcSvgDir (join distIoniconsDir "svg")
                               (fileName, content)) e) as [e' He'].
  - apply in_map, filter_In. split; assumption.
  - now apply svgRecord_err.
  - exists e'. now rewrite He'.
Qed.


End GetSvgsFacts.

(** ** Validation of file names *)

Section ValidationFacts.



Lemma svgNames_periods (fileName : string) :
  hasUpper fileName = false ->
  1 < countChar Build.isDot fileName ->
  Build.svgNames fileName = Err (TooManyPeriods fileName).
Proof.
  intros Hlow Hdots. unfold Build.svgNames.
  rewrite (proj2 (toLowerCase_fixed fileName) Hlow), String.eqb_refl. simpl.
  rewrite split_length.
  destruct (2 <? S (countChar Build.isDot fileName))%nat eqn:L; [reflexivity|].
  apply Nat.ltb_ge in L. lia.
Qed.

Lemma svgNames_empty_segment (fileName : string) :
  hasUpper fileName = false ->
  countChar Build.isDot fileName <= 1 ->
  Exists (fun seg => seg = EmptyString) (Camel.laterSegments (iconNameOf fileName)) ->
  Build.svgNames fileName = Err TypeError.
Proof.
  intros Hlow Hdots Hseg. unfold Build.svgNames.
  rewrite (proj2 (toLowerCase_fixed fileName) Hlow), String.eqb_refl. simpl.
  rewrite split_length.
  destruct (2 <? S (countChar Build.isDot fileName))%nat eqn:L.
  { apply Nat.ltb_lt in L. lia. }
  unfold iconNameOf in Hseg.
  destruct (Js.split Build.isDot fileName) as [|i rest]; [reflexivity|].
  simpl in Hseg. now rewrite (camelize_on_empty i Hseg).
Qed.

Lemma svgNames_ok (fileName iconName exportName : string) :
  Build.svgNames fileName = Ok (iconName, exportName) ->
  hasUpper fileName = false
  /\ countChar Build.isDot fileName <= 1
  /\ iconName = iconNameOf fileName
  /\ Camel.camelize iconName = Ok exportName.
Proof.
  unfold Build.svgNames, iconNameOf.
  destruct (String.eqb_spec (Js.toLowerCase fileName) fileName) as [E|E];
    simpl; [|discriminate].
  destruct (2 <? List.length (Js.split Build.isDot fileName))%nat eqn:L;
    [discriminate|].
  apply Nat.ltb_ge in L. rewrite split_length in L.
  destruct (Js.split Build.isDot fileName) as [|i rest]; [discriminate|].
  destruct (Camel.camelize i) as [x|e] eqn:C; simpl; [|discriminate].
  intros H. injection H as Hi Hx. subst iconName exportName.
  split; [now apply toLowerCase_fixed|].
  split; [lia|]. split; [reflexivity|exact C].
Qed.

End ValidationFacts.

(** ** The build stops where the loader throws *)

Section BuildAborts.

Variable svgo : string -> path -> option string.
Variables replaceFirst replaceAll : string -> string -> string -> string.
Variables (w : Disk) (rootDir : path).

Local Abbreviation loader :=
  (Build.getSvgs w (join (join rootDir "src") "svg") rootDir
                 (join (join rootDir "dist") "ionicons")).

Local Abbreviation run := (Build.build svgo replaceFirst replaceAll w rootDir).

Lemma build_without_manifest :
  manifest w = None ->
  snd run = Err ReadError /\ writes (fst run) = [].
Proof.
  intros Hv. unfold Build.build, Build.readVersion. rewrite Hv.
  split; reflexivity.
Qed.

Lemma build_loader_throws (version : string) (e : Error) :
  manifest w = Some version ->
  snd loader = Err e ->
  snd run = Err e /\ writes (fst run) = [].
Proof.
  intros Hv He. pose proof (getSvgs_no_writes w (join (join rootDir "src") "svg")
                              rootDir (join (join rootDir "dist") "ionicons")) as Hw.
  unfold Build.build, Build.readVersion. rewrite Hv.
  destruct loader as [log r]. cbn [fst snd] in *. subst r.
  split; [reflexivity|]. cbn. exact Hw.
Qed.

(** Whatever the manifest, a loader that throws ends the build with an
    exception and nothing written. *)
Lemma build_aborts (e : Error) :
  snd loader = Err e ->
  (exists e', snd run = Err e') /\ writes (fst run) = [].
Proof.
  intros He. destruct (manifest w) as [version|] eqn:Hv.
  - destruct (build_loader_throws version e Hv He) as [H1 H2].
    split; [now exists e|assumption].
  - destruct (build_without_manifest Hv) as [H1 H2].
    split; [now exists ReadError|assumption].
Qed.

End BuildAborts.

(** C6. A listing that holds a non-hidden, lower-case file name ending in
    [.svg] with more than one period makes the validations of that file fail
    with the period error, the loader throw, and the build end with an
    exception before it wrote or copied any file. *)
Theorem two_periods_abort_before_any_write
        (svgo : string -> path -> option string)
        (replaceFirst replaceAll : string -> string -> string -> string)
        (w : World) (rootDir : path) (fileName content : string) :
  In (fileName, content) (svgDir w) ->
  Js.startsWith "." fileName = false ->
  Js.endsWith ".svg" fileName = true ->
  hasUpper fileName = false ->
  1 < countChar Build.isDot fileName ->
  Build.svgNames fileName = Err (TooManyPeriods fileName)
  /\ (forall srcSvgDir distIoniconsDir,
         exists e, snd (Build.getSvgs w srcSvgDir rootDir distIoniconsDir) = Err e)
  /\ (exists e, snd (Build.build svgo replaceFirst replaceAll w rootDir) = Err e)
  /\ writes (fst (Build.build svgo replaceFirst replaceAll w rootDir)) = [].
Proof.
  intros Hin Hvisible Hsvg Hlow Hdots.
  pose proof (svgNames_periods fileName Hlow Hdots) as Hnames.
  assert (Hfile : Build.isSvgFile fileName = true).
  { unfold Build.isSvgFile. now rewrite Hvisible, Hsvg. }
  assert (Hloader : forall srcSvgDir distIoniconsDir,
             exists e, snd (Build.getSvgs w srcSvgDir rootDir distIoniconsDir) = Err e).
  { intros srcSvgDir distIoniconsDir.
    exact (getSvgs_throws w srcSvgDir rootDir distIoniconsDir fileName content
                          _ Hin Hfile Hnames). }
  split; [assumption|]. split; [assumption|].
  destruct (Hloader (join (join rootDir "src") "svg")
                    (join (join rootDir "dist") "ionicons")) as [e He].
  exact (build_aborts svgo replaceFirst replaceAll w rootDir e He).
Qed.

Lemma two_periods_abort_before_any_write_witness :
  let w := {| manifestVersion := Some "5.0.0";
              svgDir := [("add.svg", "<svg/>"); ("a.b.svg", "<svg/>")];
              dataJson := None;
              cheatsheetTemplate := "{{content}}" |} in
  let run := Build.build (fun s _ => Some s) (fun s _ _ => s) (fun s _ _ => s) w ["repo"] in
  Build.svgNames "a.b.svg" = Err (TooManyPeriods "a.b.svg")
  /\ (exists e, snd run = Err e)
  /\ writes (fst run) = [].
Proof.
  intros w run.
  assert (Hin : In ("a.b.svg", "<svg/>") (svgDir w)) by (right; now left).
  assert (Hdots : 1 < countChar Build.isDot "a.b.svg") by (vm_compute; lia).
  destruct (two_periods_abort_before_any_write
              (fun s _ => Some s) (fun s _ _ => s) (fun s _ _ => s) w ["repo"]
              "a.b.svg" "<svg/>" Hin eq_refl eq_refl eq_refl Hdots)
    as [H1 [_ [H3 H4]]].
  split; [exact H1|]. split; [exact H3|exact H4].
Defined.

(** C9. [camelize] is partial: it throws exactly on the texts that split into
    an empty segment after the first, such as [a--b] and [a-], because
    [upFirst] reads the first character of the empty string. A listed file
    that passes the filter, the lower-case validation and the single-period
    validation, and whose identifier has such a segment, makes the loader
    throw. *)
Theorem camelize_partial_on_empty_segments :
  Camel.upFirst EmptyString = Err TypeError
  /\ (forall text,
         Camel.camelize text = Err TypeError
         <-> Exists (fun seg => seg = EmptyString) (Camel.laterSegments text))
  /\ Camel.camelize "a--b" = Err TypeError
  /\ Camel.camelize "a-" = Err TypeError
  /\ (forall (w : World) (srcSvgDir rootDir distIoniconsDir : path)
             (fileName content : string),
         In (fileName, content) (svgDir w) ->
         Build.isSvgFile fileName = true ->
         hasUpper fileName = false ->
         countChar Build.isDot fileName <= 1 ->
         Exists (fun seg => seg = EmptyString)
                (Camel.laterSegments (iconNameOf fileName)) ->
         Build.svgNames fileName = Err TypeError
         /\ exists e, snd (Build.getSvgs w srcSvgDir rootDir distIoniconsDir) = Err e).
Proof.
  split; [reflexivity|].
  split; [|split; [reflexivity|split; [reflexivity|]]].
  - intros text. split; [|apply camelize_on_empty].
    intros Herr.
    destruct (segments_dec (Camel.laterSegments text)) as [Hall|Hex]; [|assumption].
    rewrite (camelize_on_nonempty text Hall) in Herr. discriminate.
  - intros w srcSvgDir rootDir distIoniconsDir fileName content
           Hin Hfile Hlow Hdots Hseg.
    pose proof (svgNames_empty_segment fileName Hlow Hdots Hseg) as Hnames.
    split; [assumption|].
    exact (getSvgs_throws w srcSvgDir rootDir distIoniconsDir fileName content
                          _ Hin Hfile Hnames).
Qed.

Lemma camelize_partial_on_empty_segments_witness :
  let w := {| manifestVersion := Some "5.0.0";
              svgDir := [("a--b.svg", "<svg/>")];
              dataJson := None;
              cheatsheetTemplate := "{{content}}" |} in
  Build.svgNames "a--b.svg" = Err TypeError
  /\ exists e, snd (Build.getSvgs w ["src"; "svg"] [] ["dist"; "ionicons"]) = Err e.
Proof.
  intros w.
  assert (Hin : In ("a--b.svg", "<svg/>") (svgDir w)) by (now left).
  assert (Hdots : countChar Build.isDot "a--b.svg" <= 1) by (vm_compute; lia).
  assert (Hseg : Exists (fun seg => seg = EmptyString)
                        (Camel.laterSegments (iconNameOf "a--b.svg"))).
  { vm_compute. now constructor. }
  exact (proj2 (proj2 (proj2 (proj2 camelize_partial_on_empty_segments)))
               w ["src"; "svg"] [] ["dist"; "ionicons"] "a--b.svg" "<svg/>"
               Hin eq_refl eq_refl Hdots Hseg).
Defined.




(** ** What the emitters write, and where *)

Section LogFacts.

Context {A B : Type} (P : Effect -> Prop).

Lemma logAll_ret (a : A) : logAll P (ret a).
Proof. constructor. Qed.

Lemma logAll_throw (e : Error) : logAll P (@throw A e).
Proof. constructor. Qed.

Lemma logAll_lift (r : result A) : logAll P (lift r).
Proof. constructor. Qed.

Lemma logAll_effect (e : Effect) : P e -> logAll P (effect e).
Proof. intros H. repeat constructor. exact H. Qed.

Lemma logAll_bind (m : M A) (k : A -> M B) :
  logAll P m -> (forall a, logAll P (k a)) -> logAll P (bind m k).
Proof.
  unfold logAll. destruct m as [log [a|e]]; simpl; intros Hm Hk; [|assumption].
  specialize (Hk a). destruct (k a) as [log' r]; simpl in *.
  apply Forall_app. split; assumption.
Qed.

Lemma logAll_all (ms : list (M A)) :
  Forall (logAll P) ms -> logAll P (all ms).
Proof.
  unfold logAll. rewrite all_fst.
  induction 1 as [|m rest Hm Hrest IH]; simpl; [constructor|].
  apply Forall_app. split; assumption.
Qed.

Lemma logAll_all_map {X : Type} (f : X -> M A) (xs : list X) :
  (forall x, In x xs -> logAll P (f x)) -> logAll P (all (map f xs)).
Proof.
  intros H. apply logAll_all, Forall_forall. intros m Hm.
  apply in_map_iff in Hm. destruct Hm as [x [<- Hx]]. now apply H.
Qed.

End LogFacts.

Lemma logAll_weaken {A : Type} (P Q : Effect -> Prop) (m : M A) :
  (forall e, P e -> Q e) -> logAll P m -> logAll Q m.
Proof. intros H. unfold logAll. apply Forall_impl. exact H. Qed.

Lemma bind_log_In {A B : Type} (m : M A) (k : A -> M B) (e : Effect) :
  In e (fst m) -> In e (fst (bind m k)).
Proof.
  destruct m as [log [a|e0]]; simpl; [|auto].
  destruct (k a) as [log' r]. simpl. intros H. apply in_or_app. now left.
Qed.

Lemma all_log_In {A : Type} (ms : list (M A)) (m : M A) (e : Effect) :
  In m ms -> In e (fst m) -> In e (fst (all ms)).
Proof.
  intros Hm He. rewrite all_fst. apply in_concat.
  exists (fst m). split; [now apply in_map|assumption].
Qed.

Lemma bind_ok {A B : Type} (log : list Effect) (a : A) (k : A -> M B) :
  bind (log, Ok a) k = (log +++ fst (k a), snd (k a)).
Proof. unfold bind. destruct (k a). reflexivity. Qed.

(** Two paths below the same root differ when their parts below it do. *)
Ltac path_neq :=
  unfold srcDataJsonPath, distDataJsonPath, join;
  rewrite <- ?app_assoc; simpl;
  let H := fresh "H" in
  intros H; apply app_inv_head in H; discriminate H.

Ltac log_step :=
  first
    [ apply logAll_ret
    | apply logAll_throw
    | apply logAll_lift
    | apply logAll_effect; simpl; try exact I
    | apply logAll_all_map; intros ? ?
    | apply logAll_bind; [|intros ?]
    | apply logAll_all; repeat (apply Forall_cons || apply Forall_nil) ].

Section EmitterLogs.

Variables (rootDir target : path).
Variable replaceFirst : string -> string -> string -> string.
Variable replaceAll : string -> string -> string -> string.
Variable svgo : string -> path -> option string.
Variable w : Disk.

Hypothesis target_is_catalog :
  target = srcDataJsonPath rootDir \/ target = distDataJsonPath rootDir.

Lemma createIconPackage_avoids (version : string) (srcSvgData : list SvgData) :
  logAll (avoids target)
         (Build.createIconPackage version (join rootDir "icons") srcSvgData).
Proof.
  unfold Build.createIconPackage, Build.createEsmIcons, Build.createCjsIcons,
    Build.createDtsIcons.
  destruct target_is_catalog as [-> | ->];
    repeat (log_step; try path_neq).
Qed.

Lemma createSvgSymbols_avoids (version : string) (srcSvgData : list SvgData) :
  logAll (avoids target)
         (Build.createSvgSymbols replaceFirst version (join rootDir "dist") srcSvgData).
Proof.
  unfold Build.createSvgSymbols.
  destruct target_is_catalog as [-> | ->];
    repeat (log_step; try path_neq).
Qed.

Lemma createCheatsheet_avoids (version content : string) (srcSvgData : list SvgData) :
  logAll (avoids target)
         (Build.createCheatsheet replaceAll w version rootDir (join rootDir "dist")
                                 content srcSvgData).
Proof.
  unfold Build.createCheatsheet.
  destruct (template w); destruct target_is_catalog as [-> | ->];
    repeat (log_step; try path_neq).
Qed.

Lemma copyToTesting_avoids (srcSvgData : list SvgData) :
  logAll (avoids target)
         (Build.copyToTesting rootDir (join rootDir "dist") srcSvgData).
Proof.
  unfold Build.copyToTesting.
  destruct target_is_catalog as [-> | ->];
    repeat (log_step; try path_neq).
Qed.

End EmitterLogs.

Section LoaderRecords.

Variables (w : Disk) (srcSvgDir rootDir distIoniconsDir : path).

(** Every record of the loader is the record of a listed file that passed
    the filter and the validations. *)
Lemma getSvgs_record_origin (svgData : list SvgData) (r : SvgData) :
  snd (Build.getSvgs w srcSvgDir rootDir distIoniconsDir) = Ok svgData ->
  In r svgData ->
  In (fileName r, srcSvgContent r) (listing w)
  /\ Build.isSvgFile (fileName r) = true
  /\ Build.svgNames (fileName r) = Ok (iconName r, exportName r)
  /\ optimizedFilePath r = join (join distIoniconsDir "svg") (fileName r).
Proof.
  rewrite getSvgs_eq. cbn [fst snd].
  destruct (snd (all _)) as [d|e] eqn:E; [|discriminate].
  intros H Hr. injection H as <-. apply sort_In in Hr.
  apply all_ok in E.
  assert (Hall : forall ms vs,
             Forall2 (fun (m : M SvgData) v => snd m = Ok v) ms vs ->
             forall v, In v vs -> exists m, In m ms /\ snd m = Ok v).
  { induction 1 as [|m v ms vs Hm Hrest IH]; simpl; [tauto|].
    intros v' [<-|Hv]; [exists m; tauto|].
    destruct (IH v' Hv) as [m' [Hm' Hv']]. exists m'. tauto. }
  destruct (Hall _ _ E r Hr) as [m [Hm Hmr]].
  apply in_map_iff in Hm. destruct Hm as [[f c] [<- Hf]].
  apply filter_In in Hf. destruct Hf as [Hin Hfile].
  rewrite svgRecord_eq in Hmr.
  destruct (Build.svgNames f) as [[i x]|e] eqn:Hnames; [|discriminate].
  simpl in Hmr. injection Hmr as <-. simpl. auto.
Qed.

(** Every record of the loader is to be optimized into [dist/ionicons/svg],
    under the name of its source file. *)
Lemma getSvgs_records (svgData : list SvgData) :
  snd (Build.getSvgs w srcSvgDir rootDir distIoniconsDir) = Ok svgData ->
  Forall (fun r => optimizedFilePath r
                   = join (join distIoniconsDir "svg") (fileName r)) svgData.
Proof.
  intros H. apply Forall_forall. intros r Hr.
  now destruct (getSvgs_record_origin svgData r H Hr) as [_ [_ [_ Hpath]]].
Qed.

End LoaderRecords.

Section OptimizerLog.

Variables (rootDir target : path).
Variable svgo : string -> path -> option string.

Hypothesis target_is_catalog :
  target = srcDataJsonPath rootDir \/ target = distDataJsonPath rootDir.

Lemma optimizeSvgs_avoids (srcSvgData : list SvgData) :
  Forall (fun r => optimizedFilePath r
                   = join (join (join (join rootDir "dist") "ionicons") "svg")
                          (fileName r)) srcSvgData ->
  logAll (avoids target) (Build.optimizeSvgs svgo srcSvgData).
Proof.
  intros Hpaths. rewrite Forall_forall in Hpaths.
  unfold Build.optimizeSvgs. apply logAll_all_map. intros r Hr.
  unfold Build.optimizeSvg. rewrite (Hpaths r Hr).
  destruct (svgo (srcSvgContent r) _);
    destruct target_is_catalog as [-> | ->];
    repeat (log_step; try path_neq).
Qed.

End OptimizerLog.

Lemma no_writes_avoids (target : path) (log : list Effect) :
  writes log = [] -> Forall (avoids target) log.
Proof.
  unfold writes. intros H. apply Forall_forall. intros e He.
  destruct e; simpl; try exact I.
  - assert (Hin : In (WriteFile p c) (filter isWrite log))
      by (apply filter_In; split; [assumption|reflexivity]).
    rewrite H in Hin. destruct Hin.
  - assert (Hin : In (CopyFile src dst) (filter isWrite log))
      by (apply filter_In; split; [assumption|reflexivity]).
    rewrite H in Hin. destruct Hin.
Qed.

(** ** Reconciling twice *)

Section CatalogIdempotence.

Lemma addNewIcons_fixed (srcSvgData : list SvgData) :
  forall dataIcons : list IconEntry,
    (forall s, In s srcSvgData -> In (iconName s) (map name dataIcons)) ->
    Catalog.addNewIcons dataIcons srcSvgData = dataIcons.
Proof.
  unfold Catalog.addNewIcons.
  induction srcSvgData as [|s rest IH]; intros dataIcons Hcov; simpl;
    [reflexivity|].
  rewrite (proj2 (hasName_In (iconName s) dataIcons)) by (apply Hcov; now left).
  apply IH. intros s' Hs'. apply Hcov. now right.
Qed.

Lemma removeDeadIcons_fixed (dataIcons : list IconEntry) (srcSvgData : list SvgData) :
  (forall e, In e dataIcons -> In (name e) (map iconName srcSvgData)) ->
  Catalog.removeDeadIcons dataIcons srcSvgData = dataIcons.
Proof.
  intros Hcur. unfold Catalog.removeDeadIcons.
  apply forallb_filter_id, forallb_forall.
  intros e He. apply isCurrent_In. now apply Hcur.
Qed.

Lemma withTags_idem (e : IconEntry) :
  Catalog.withTags (Catalog.withTags e) = Catalog.withTags e.
Proof.
  unfold Catalog.withTags, Js.sortStrings. simpl. now rewrite sort_idem.
Qed.

Lemma finalIcons_names (data : JsonData) (srcSvgData : list SvgData) (n : string) :
  In n (map name (Catalog.finalIcons data srcSvgData))
  <-> In n (map iconName srcSvgData).
Proof.
  unfold Catalog.finalIcons. rewrite map_withTags_names.
  apply (reconcile_names (Catalog.dataIcons data) srcSvgData).
Qed.

End CatalogIdempotence.

(** Reconciling the catalog a build wrote, against the same records, gives
    that catalog back. *)
Lemma finalIcons_idem (data : JsonData) (srcSvgData : list SvgData) :
  Catalog.finalIcons (Catalog.srcCatalog data srcSvgData) srcSvgData
  = Catalog.finalIcons data srcSvgData.
Proof.
  unfold Catalog.finalIcons at 1. unfold Catalog.srcCatalog, Catalog.dataIcons at 1.
  cbn [icons].
  unfold Catalog.reconcile.
  rewrite addNewIcons_fixed.
  2:{ intros s Hs. apply finalIcons_names. now apply in_map. }
  rewrite removeDeadIcons_fixed.
  2:{ intros e He. apply (proj1 (finalIcons_names data srcSvgData (name e))).
      now apply in_map. }
  unfold Catalog.sortIcons.
  rewrite (sort_of_sorted name _ (finalIcons_sorted data srcSvgData)).
  unfold Catalog.finalIcons. rewrite map_map.
  apply map_ext. intros e. apply withTags_idem.
Qed.

Lemma srcCatalog_idem (data : JsonData) (srcSvgData : list SvgData) :
  Catalog.srcCatalog (Catalog.srcCatalog data srcSvgData) srcSvgData
  = Catalog.srcCatalog data srcSvgData.
Proof.
  unfold Catalog.srcCatalog at 1. rewrite finalIcons_idem. reflexivity.
Qed.

Lemma distCatalog_rerun (version : string) (data : JsonData)
      (srcSvgData : list SvgData) :
  Catalog.distCatalog version (Catalog.srcCatalog data srcSvgData) srcSvgData
  = Catalog.distCatalog version data srcSvgData.
Proof.
  unfold Catalog.distCatalog. now rewrite finalIcons_idem.
Qed.

(** ** A catalog of the expected shape *)

Lemma namedEntries_Named (l : list IconEntry) :
  Catalog.namedEntries (map Named l) = l.
Proof. induction l as [|e l IH]; simpl; [reflexivity|now rewrite IH]. Qed.

Lemma loadEntries_Named (l : list IconEntry) (srcSvgData : list SvgData) :
  Catalog.loadEntries (map Named l) srcSvgData = Ok l.
Proof.
  unfold Catalog.loadEntries. rewrite namedEntries_Named.
  destruct srcSvgData as [|r rest]; [reflexivity|].
  replace (existsb Catalog.isNullEntry (map Named l)) with false
    by (induction l; simpl; [reflexivity|assumption]).
  replace (existsb (Catalog.hasBadTags (r :: rest)) (map Named l)) with false
    by (induction l; simpl; [reflexivity|assumption]).
  reflexivity.
Qed.

(** A [data.json] that is missing, or holds an object whose [icons] is
    absent or a list of entries with a name and a list of tags, never makes
    [createDataJson] throw. *)
Lemma load_expected (w : World) (srcSvgData : list SvgData) :
  Catalog.load (dataFile w) srcSvgData = Ok (Build.loadedData w).
Proof.
  unfold Build.loadedData. cbn [dataFile diskOf]. unfold dataFileOf.
  destruct (dataJson w) as [[m [l|]]|]; cbn [Catalog.load members icons];
    [|reflexivity|reflexivity].
  now rewrite loadEntries_Named.
Qed.

(** ** A build that succeeds *)

Section BuildSucceeds.

Variable svgo : string -> path -> option string.
Variables replaceFirst replaceAll : string -> string -> string -> string.
Variable rootDir : path.

Local Abbreviation srcSvgDir := (join (join rootDir "src") "svg").
Local Abbreviation distDir := (join rootDir "dist").
Local Abbreviation distIoniconsDir := (join (join rootDir "dist") "ionicons").

(** What [build] does once the records are optimized. *)
Local Abbreviation emit w version srcSvgData :=
  (all [ Build.createDataJson w version (join rootDir "src") distDir srcSvgData;
         Build.createIconPackage version (join rootDir "icons") srcSvgData ] ;;;
   symbols <- Build.createSvgSymbols replaceFirst version distDir srcSvgData ;;
   let (svgSymbolsContent, sorted) := symbols : string * list SvgData in
   Build.createCheatsheet replaceAll w version rootDir distDir
                          svgSymbolsContent sorted ;;;
   Build.copyToTesting rootDir distDir sorted).

Local Abbreviation opening :=
  [ EmptyDir (join rootDir "icons"); EmptyDir distDir; EmptyDir distIoniconsDir;
    ReadJson (join rootDir "package.json") ].

Lemma build_phases (w : Disk) :
  Build.build svgo replaceFirst replaceAll w rootDir
  = match manifest w with
    | None => (opening, Err ReadError)
    | Some version =>
        match Build.getSvgs w srcSvgDir rootDir distIoniconsDir with
        | (l1, Err e) => (opening +++ l1, Err e)
        | (l1, Ok loaded) =>
            match Build.optimizeSvgs svgo loaded with
            | (l2, Err e) => (opening +++ l1 +++ l2, Err e)
            | (l2, Ok srcSvgData) =>
                (opening +++ l1 +++ l2 +++ fst (emit w version srcSvgData),
                 snd (emit w version srcSvgData))
            end
        end
    end.
Proof.
  unfold Build.build, Build.readVersion.
  destruct (manifest w) as [version|]; [|reflexivity].
  destruct (Build.getSvgs w srcSvgDir rootDir distIoniconsDir) as [l1 [loaded|e]];
    [|reflexivity].
  change (all [effect (EmptyDir (join rootDir "icons")); effect (EmptyDir distDir)])
    with ([EmptyDir (join rootDir "icons"); EmptyDir distDir], Ok [tt; tt]).
  unfold effect, ret.
  repeat (rewrite bind_ok; cbv beta; cbn [fst snd]).
  destruct (Build.optimizeSvgs svgo loaded) as [l2 [srcSvgData|e]].
  - rewrite bind_ok. reflexivity.
  - reflexivity.
Qed.

Lemma build_decompose (w : World) :
  Build.build svgo replaceFirst replaceAll w rootDir
  = match manifestVersion w with
    | None => (opening, Err ReadError)
    | Some version =>
        match Build.getSvgs w srcSvgDir rootDir distIoniconsDir with
        | (l1, Err e) => (opening +++ l1, Err e)
        | (l1, Ok loaded) =>
            match Build.optimizeSvgs svgo loaded with
            | (l2, Err e) => (opening +++ l1 +++ l2, Err e)
            | (l2, Ok srcSvgData) =>
                (opening +++ l1 +++ l2 +++ fst (emit w version srcSvgData),
                 snd (emit w version srcSvgData))
            end
        end
    end.
Proof. exact (build_phases w). Qed.

Lemma getSvgs_withDataJson (w : World) (d : option JsonData) (a b c : path) :
  Build.getSvgs (withDataJson w d) a b c = Build.getSvgs w a b c.
Proof. reflexivity. Qed.

Lemma createDataJson_log (w : World) (version : string) (srcSvgData : list SvgData) :
  Build.createDataJson w version (join rootDir "src") distDir srcSvgData
  = ([ ReadJson (srcDataJsonPath rootDir);
       WriteFile (srcDataJsonPath rootDir)
                 (JsonCatalog (Catalog.srcCatalog (Build.loadedData w) srcSvgData));
       WriteFile (distDataJsonPath rootDir)
                 (JsonCatalog (Catalog.distCatalog version (Build.loadedData w)
                                                   srcSvgData)) ],
     Ok tt).
Proof.
  unfold Build.createDataJson. rewrite load_expected.
  cbn [dataFile diskOf]. now destruct (dataJson w).
Qed.

(** The catalog the first run wrote is a fixed point of [createDataJson]. *)
Lemma createDataJson_rerun (w : World) (version : string) (srcSvgData : list SvgData) :
  Build.createDataJson
    (withDataJson w (Some (Catalog.srcCatalog (Build.loadedData w) srcSvgData)))
    version (join rootDir "src") distDir srcSvgData
  = Build.createDataJson w version (join rootDir "src") distDir srcSvgData.
Proof.
  rewrite !createDataJson_log. unfold Build.loadedData at 1 3.
  cbn [dataJson withDataJson].
  now rewrite srcCatalog_idem, distCatalog_rerun.
Qed.

Lemma emit_rerun (w : World) (version : string) (srcSvgData : list SvgData) :
  emit (withDataJson w (Some (Catalog.srcCatalog (Build.loadedData w) srcSvgData)))
       version srcSvgData
  = emit w version srcSvgData.
Proof. rewrite createDataJson_rerun. reflexivity. Qed.

Lemma emit_log (w : World) (version : string) (srcSvgData : list SvgData) :
  let written :=
    JsonCatalog (Catalog.srcCatalog (Build.loadedData w) srcSvgData) in
  let distributed :=
    JsonCatalog (Catalog.distCatalog version (Build.loadedData w) srcSvgData) in
  logAll (onlyWrite (srcDataJsonPath rootDir) written) (emit w version srcSvgData)
  /\ logAll (onlyWrite (distDataJsonPath rootDir) distributed)
            (emit w version srcSvgData)
  /\ In (WriteFile (srcDataJsonPath rootDir) written)
        (fst (emit w version srcSvgData))
  /\ In (WriteFile (distDataJsonPath rootDir) distributed)
        (fst (emit w version srcSvgData)).
Proof.
  intros written distributed.
  assert (Hrest : forall target content,
             target = srcDataJsonPath rootDir \/ target = distDataJsonPath rootDir ->
             logAll (onlyWrite target content)
                    (Build.createDataJson w version (join rootDir "src") distDir
                                          srcSvgData) ->
             logAll (onlyWrite target content) (emit w version srcSvgData)).
  { intros target content Htarget Hdata.
    apply logAll_bind.
    - apply logAll_all.
      apply Forall_cons; [exact Hdata|].
      apply Forall_cons; [|apply Forall_nil].
      apply (logAll_weaken (avoids target)); [intros e He; now left|].
      now apply createIconPackage_avoids.
    - intros _. apply logAll_bind.
      + apply (logAll_weaken (avoids target)); [intros e He; now left|].
        now apply createSvgSymbols_avoids.
      + intros [content' sorted]. apply logAll_bind; [|intros _].
        * apply (logAll_weaken (avoids target)); [intros e He; now left|].
          now apply createCheatsheet_avoids.
        * apply (logAll_weaken (avoids target)); [intros e He; now left|].
          now apply copyToTesting_avoids. }
  assert (Hin : forall e,
             In e (fst (Build.createDataJson w version (join rootDir "src") distDir
                                             srcSvgData)) ->
             In e (fst (emit w version srcSvgData))).
  { intros e He. apply bind_log_In.
    apply (all_log_In _ (Build.createDataJson w version (join rootDir "src") distDir
                                              srcSvgData));
      [now left|exact He]. }
  split; [|split; [|split]].
  - apply Hrest; [now left|]. rewrite createDataJson_log.
    unfold logAll. cbn [fst].
    apply Forall_cons; [left; exact I|].
    apply Forall_cons; [now right|].
    apply Forall_cons; [left; simpl; path_neq|apply Forall_nil].
  - apply Hrest; [now right|]. rewrite createDataJson_log.
    unfold logAll. cbn [fst].
    apply Forall_cons; [left; exact I|].
    apply Forall_cons; [left; simpl; path_neq|].
    apply Forall_cons; [now right|apply Forall_nil].
  - apply Hin. rewrite createDataJson_log. cbn [fst]. right. now left.
  - apply Hin. rewrite createDataJson_log. cbn [fst]. right. right. now left.
Qed.

(** The shape of a run that ends normally. *)
Lemma build_success (w : World) (log : list Effect) :
  Build.build svgo replaceFirst replaceAll w rootDir = (log, Ok tt) ->
  exists version l1 loaded l2 srcSvgData,
    manifestVersion w = Some version
    /\ Build.getSvgs w srcSvgDir rootDir distIoniconsDir = (l1, Ok loaded)
    /\ Build.optimizeSvgs svgo loaded = (l2, Ok srcSvgData)
    /\ log = opening +++ l1 +++ l2 +++ fst (emit w version srcSvgData)
    /\ snd (emit w version srcSvgData) = Ok tt.
Proof.
  rewrite build_decompose.
  destruct (manifestVersion w) as [version|]; [|discriminate].
  destruct (Build.getSvgs w srcSvgDir rootDir distIoniconsDir)
    as [l1 [loaded|e]]; [|discriminate].
  destruct (Build.optimizeSvgs svgo loaded) as [l2 [srcSvgData|e]] eqn:Hopt;
    [|discriminate].
  intros H. injection H as Hlog Hres.
  exists version, l1, loaded, l2, srcSvgData. rewrite Hopt. auto.
Qed.

(** In a run that ends normally each catalog is written once, and nothing
    else is written to its place. *)
Lemma build_catalog_writes (w : World) (log : list Effect) :
  Build.build svgo replaceFirst replaceAll w rootDir = (log, Ok tt) ->
  exists version srcSvgData,
    manifestVersion w = Some version
    /\ let written :=
         JsonCatalog (Catalog.srcCatalog (Build.loadedData w) srcSvgData) in
       let distributed :=
         JsonCatalog (Catalog.distCatalog version (Build.loadedData w) srcSvgData) in
       Forall (onlyWrite (srcDataJsonPath rootDir) written) log
       /\ Forall (onlyWrite (distDataJsonPath rootDir) distributed) log
       /\ In (WriteFile (srcDataJsonPath rootDir) written) log
       /\ In (WriteFile (distDataJsonPath rootDir) distributed) log
       /\ Build.build svgo replaceFirst replaceAll
                      (withDataJson w (Some (Catalog.srcCatalog (Build.loadedData w)
                                                                srcSvgData)))
                      rootDir
          = (log, Ok tt).
Proof.
  intros Hrun.
  destruct (build_success w log Hrun)
    as [version [l1 [loaded [l2 [srcSvgData [Hv [Hload [Hopt [Hlog Hres]]]]]]]]].
  exists version, srcSvgData. split; [assumption|].
  destruct (emit_log w version srcSvgData) as [Hsrc [Hdist [Hinsrc Hindist]]].
  assert (Hparts : forall target content,
             target = srcDataJsonPath rootDir \/ target = distDataJsonPath rootDir ->
             Forall (onlyWrite target content) (fst (emit w version srcSvgData)) ->
             Forall (onlyWrite target content) log).
  { intros target content Htarget Hemit. rewrite Hlog.
    assert (Hweak : forall l, Forall (avoids target) l ->
                              Forall (onlyWrite target content) l).
    { intros l. apply Forall_impl. intros e He. now left. }
    apply Forall_app. split.
    { apply Hweak. repeat (apply Forall_cons; [exact I|]). apply Forall_nil. }
    apply Forall_app. split.
    { apply Hweak, no_writes_avoids.
      pose proof (getSvgs_no_writes w srcSvgDir rootDir distIoniconsDir) as Hw.
      now rewrite Hload in Hw. }
    apply Forall_app. split; [|exact Hemit].
    apply Hweak.
    pose proof (optimizeSvgs_avoids rootDir target svgo Htarget loaded) as Ho.
    unfold logAll in Ho. rewrite Hopt in Ho. apply Ho.
    apply (getSvgs_records w srcSvgDir rootDir distIoniconsDir).
    now rewrite Hload. }
  cbv zeta.
  split; [apply Hparts; [now left|exact Hsrc]|].
  split; [apply Hparts; [now right|exact Hdist]|].
  assert (Hemit_in : forall e, In e (fst (emit w version srcSvgData)) -> In e log).
  { intros e He. rewrite Hlog. apply in_or_app. right.
    apply in_or_app. right. apply in_or_app. now right. }
  split; [now apply Hemit_in|]. split; [now apply Hemit_in|].
  rewrite build_decompose. cbn [manifestVersion withDataJson]. rewrite Hv.
  rewrite getSvgs_withDataJson, Hload, Hopt, emit_rerun, Hlog, Hres.
  reflexivity.
Qed.

End BuildSucceeds.

(** C7. When a build ended normally and wrote the catalog [d] to
    [src/data.json], the build that starts from [d], with the same sources,
    version and template, performs the same operations with the same
    contents: catalog, sprite, package and every other output are identical.
    In particular reconciling a reconciled catalog against the same records
    changes nothing. *)
Theorem rebuild_is_identical
        (svgo : string -> path -> option string)
        (replaceFirst replaceAll : string -> string -> string -> string)
        (w : World) (rootDir : path) (log : list Effect) (d : JsonData) :
  Build.build svgo replaceFirst replaceAll w rootDir = (log, Ok tt) ->
  In (WriteFile (srcDataJsonPath rootDir) (JsonCatalog d)) log ->
  Build.build svgo replaceFirst replaceAll (withDataJson w (Some d)) rootDir
  = (log, Ok tt)
  /\ (forall (version : string) (data : JsonData) (srcSvgData : list SvgData),
         Catalog.finalIcons (Catalog.srcCatalog data srcSvgData) srcSvgData
         = Catalog.finalIcons data srcSvgData
         /\ Catalog.srcCatalog (Catalog.srcCatalog data srcSvgData) srcSvgData
            = Catalog.srcCatalog data srcSvgData
         /\ Catalog.distCatalog version (Catalog.srcCatalog data srcSvgData)
                                srcSvgData
            = Catalog.distCatalog version data srcSvgData).
Proof.
  intros Hrun Hin. split.
  - destruct (build_catalog_writes svgo replaceFirst replaceAll rootDir w log Hrun)
      as [version [srcSvgData [_ [Honly [_ [_ [_ Hrerun]]]]]]].
    rewrite Forall_forall in Honly.
    destruct (Honly _ Hin) as [Havoid|Heq].
    + simpl in Havoid. contradiction.
    + injection Heq as ->. exact Hrerun.
  - intros version data srcSvgData.
    split; [apply finalIcons_idem|].
    split; [apply srcCatalog_idem|apply distCatalog_rerun].
Qed.

Lemma rebuild_is_identical_witness :
  let svgo := fun (s : string) (_ : path) => Some s in
  let replace := fun s _ _ : string => s in
  let w := {| manifestVersion := Some "5.0.0";
              svgDir := [("star-outline.svg", "<svg/>"); ("add.svg", "<svg/>")];
              dataJson :=
                Some {| members := [("name", "ionicons"); ("version", "4.6.3")];
                        icons := Some [ {| name := "gone"; tags := None |};
                                        {| name := "add"; tags := Some ["plus"; "new"] |} ] |};
              cheatsheetTemplate := "{{content}}" |} in
  let d := {| members := [("name", "ionicons"); ("version", "4.6.3")];
              icons := Some [ {| name := "add"; tags := Some ["new"; "plus"] |};
                              {| name := "star-outline";
                                 tags := Some ["outline"; "star"] |} ] |} in
  Build.build svgo replace replace (withDataJson w (Some d)) ["repo"]
  = Build.build svgo replace replace w ["repo"].
Proof.
  intros svgo replace w d.
  assert (Hrun : Build.build svgo replace replace w ["repo"]
                 = (fst (Build.build svgo replace replace w ["repo"]), Ok tt))
    by (vm_compute; reflexivity).
  assert (Hin : In (WriteFile (srcDataJsonPath ["repo"]) (JsonCatalog d))
                   (fst (Build.build svgo replace replace w ["repo"]))).
  { vm_compute. repeat (first [left; reflexivity | right]). }
  rewrite (proj1 (rebuild_is_identical svgo replace replace w ["repo"] _ d Hrun Hin)).
  symmetry. exact Hrun.
Defined.




(** ** Export identifiers *)

(** C1, as amended. For every icon identifier whose segments after the first
    are all non-empty, [camelize] returns the camel-case conversion the
    specification describes: split on hyphen or underscore, first segment
    lower-cased, every later segment with its first character upper-cased and
    its remainder lower-cased, concatenated without separator. The export
    identifier of every record the loader returns is that conversion of the
    record's icon identifier, the file name up to its period. In particular
    [airplane-outline] gives [airplaneOutline] and [logo-no-smoking] gives
    [logoNoSmoking]. *)
Theorem camelize_refines_spec :
  (forall text : string,
      Forall (fun seg => seg <> EmptyString) (Camel.laterSegments text) ->
      Camel.camelize text = Ok (Camel.camelize_spec text))
  /\ (forall (w : World) (srcSvgDir rootDir distIoniconsDir : path)
             (svgData : list SvgData) (r : SvgData),
         snd (Build.getSvgs w srcSvgDir rootDir distIoniconsDir) = Ok svgData ->
         In r svgData ->
         iconName r = iconNameOf (fileName r)
         /\ exportName r = Camel.camelize_spec (iconName r))
  /\ Camel.camelize "airplane-outline" = Ok "airplaneOutline"
  /\ Camel.camelize "logo-no-smoking" = Ok "logoNoSmoking".
Proof.
  split; [exact camelize_on_nonempty|].
  split; [|split; reflexivity].
  intros w srcSvgDir rootDir distIoniconsDir svgData r Hload Hr.
  destruct (getSvgs_record_origin w srcSvgDir rootDir distIoniconsDir svgData r
                                  Hload Hr) as [_ [_ [Hnames _]]].
  apply svgNames_ok in Hnames. destruct Hnames as [_ [_ [Hicon Hcamel]]].
  split; [assumption|]. now apply camelize_ok.
Qed.

Lemma camelize_refines_spec_witness :
  Forall (fun seg => seg <> EmptyString) (Camel.laterSegments "arrow_back-circle")
  /\ Camel.camelize "arrow_back-circle" = Ok (Camel.camelize_spec "arrow_back-circle").
Proof.
  assert (H : Forall (fun seg => seg <> EmptyString)
                     (Camel.laterSegments "arrow_back-circle")).
  { repeat constructor; discriminate. }
  split; [exact H|].
  exact (proj1 camelize_refines_spec "arrow_back-circle" H).
Defined.

(** C1 as stated fails on [a--b], the identifier of the file [a--b.svg],
    which passes the filter and both validations: the conversion of the
    specification is [aB], but [camelize] throws and no export identifier is
    derived. *)
Lemma camelize_spec_not_total :
  Build.isSvgFile "a--b.svg" = true
  /\ hasUpper "a--b.svg" = false
  /\ countChar Build.isDot "a--b.svg" = 1
  /\ iconNameOf "a--b.svg" = "a--b"
  /\ Camel.camelize_spec "a--b" = "aB"
  /\ Camel.camelize "a--b" = Err TypeError
  /\ Camel.camelize "a--b" <> Ok (Camel.camelize_spec "a--b")
  /\ Build.svgNames "a--b.svg" = Err TypeError.
Proof.
  repeat (split; [reflexivity|]).
  split; [discriminate|reflexivity].
Qed.

(** * Further properties of the script *)

(** ** File names and the names derived from them *)

Section FileNameFacts.

Lemma substring_whole (s : string) : String.substring 0 (String.length s) s = s.
Proof. induction s as [|c r IH]; simpl; [reflexivity|]. now rewrite IH. Qed.

Lemma substring_cut (n : nat) :
  forall s : string,
    n <= String.length s ->
    String.substring 0 n s ++ String.substring n (String.length s - n) s = s.
Proof.
  induction n as [|n IH]; intros s Hn.
  - rewrite Nat.sub_0_r, substring_whole. destruct s; reflexivity.
  - destruct s as [|c r]; simpl in *; [lia|].
    rewrite IH by lia. reflexivity.
Qed.

(** A string that ends with [p] is some string followed by [p]. *)
Lemma endsWith_append (p s : string) :
  Js.endsWith p s = true -> exists pre, s = pre ++ p.
Proof.
  unfold Js.endsWith. intros H. apply andb_true_iff in H. destruct H as [Hlen Heq].
  apply Nat.leb_le in Hlen. apply String.eqb_eq in Heq.
  exists (String.substring 0 (String.length s - String.length p) s).
  pose proof (substring_cut (String.length s - String.length p) s) as Hcut.
  replace (String.length s - (String.length s - String.length p))
    with (String.length p) in Hcut by lia.
  rewrite Heq in Hcut. symmetry. apply Hcut. lia.
Qed.

Lemma countChar_append (isC : ascii -> bool) (a b : string) :
  countChar isC (a ++ b) = countChar isC a + countChar isC b.
Proof. induction a as [|c r IH]; simpl; [reflexivity|]. rewrite IH. lia. Qed.

Lemma split_at_first (isSep : ascii -> bool) (c : ascii) (rest : string) :
  isSep c = true ->
  forall pre : string,
    countChar isSep pre = 0 ->
    Js.split isSep (pre ++ String c rest) = pre :: Js.split isSep rest.
Proof.
  intros Hc. induction pre as [|x r IH]; simpl; intros Hpre.
  - now rewrite Hc.
  - destruct (isSep x); [discriminate|]. now rewrite IH.
Qed.

(** A visible name that ends in [.svg] and has a single period is its icon
    identifier followed by [.svg]; the identifier is not empty and has no
    period. *)
Lemma svg_name_shape (fileName : string) :
  Build.isSvgFile fileName = true ->
  countChar Build.isDot fileName <= 1 ->
  fileName = iconNameOf fileName ++ ".svg"
  /\ iconNameOf fileName <> EmptyString
  /\ countChar Build.isDot (iconNameOf fileName) = 0.
Proof.
  unfold Build.isSvgFile. intros Hfile Hdots.
  apply andb_true_iff in Hfile. destruct Hfile as [Hvisible Hsvg].
  apply negb_true_iff in Hvisible.
  destruct (endsWith_append ".svg" fileName Hsvg) as [pre Hpre].
  subst fileName. rewrite countChar_append in Hdots. simpl in Hdots.
  assert (Hnone : countChar Build.isDot pre = 0) by lia.
  assert (Hicon : iconNameOf (pre ++ ".svg") = pre).
  { unfold iconNameOf.
    now rewrite (split_at_first Build.isDot "." "svg" eq_refl pre Hnone). }
  rewrite Hicon. split; [reflexivity|]. split; [|assumption].
  intros ->. discriminate.
Qed.

End FileNameFacts.

(** ** What the loader returns *)

Section LoaderResult.

Variables (w : Disk) (srcSvgDir rootDir distIoniconsDir : path).

Local Abbreviation callbacks :=
  (map (Build.svgRecord srcSvgDir (join distIoniconsDir "svg")) (survivors w)).

Lemma all_svgRecord_ok (files : list (string * string)) :
  forall vs : list SvgData,
    snd (all (map (Build.svgRecord srcSvgDir (join distIoniconsDir "svg")) files))
    = Ok vs ->
    Forall2 (builtFrom srcSvgDir (join distIoniconsDir "svg")) files vs.
Proof.
  induction files as [|[f c] rest IH]; intros vs Hok.
  - simpl in Hok. injection Hok as <-. constructor.
  - rewrite map_cons, svgRecord_eq in Hok.
    destruct (Build.svgNames f) as [[i x]|e] eqn:Hnames; simpl in Hok.
    + destruct (all (map (Build.svgRecord srcSvgDir (join distIoniconsDir "svg"))
                         rest)) as [log [vs'|e]]; simpl in Hok; [|discriminate].
      injection Hok as <-. constructor; [|now apply IH].
      exists i, x. simpl. split; [assumption|reflexivity].
    + destruct (all (map (Build.svgRecord srcSvgDir (join distIoniconsDir "svg"))
                         rest)) as [log rs]; simpl in Hok. discriminate.
Qed.

Lemma all_svgRecord_valid (files : list (string * string)) :
  (forall file, In file files -> isValidName (fst file) = true) ->
  exists vs,
    snd (all (map (Build.svgRecord srcSvgDir (join distIoniconsDir "svg")) files))
    = Ok vs.
Proof.
  induction files as [|[f c] rest IH]; intros Hvalid.
  - exists []. reflexivity.
  - destruct IH as [vs Hvs]; [intros file Hin; apply Hvalid; now right|].
    specialize (Hvalid (f, c) (or_introl eq_refl)).
    unfold isValidName in Hvalid. simpl in Hvalid.
    rewrite map_cons, svgRecord_eq.
    destruct (Build.svgNames f) as [[i x]|e]; [|discriminate].
    simpl. destruct (all _) as [log rs]. simpl in *. subst rs.
    eexists. reflexivity.
Qed.

Lemma getSvgs_unsorted (svgData : list SvgData) :
  snd (Build.getSvgs w srcSvgDir rootDir distIoniconsDir) = Ok svgData ->
  exists loaded,
    Forall2 (builtFrom srcSvgDir (join distIoniconsDir "svg")) (survivors w) loaded
    /\ svgData = Js.sort (Js.compareBy exportName) loaded.
Proof.
  rewrite getSvgs_eq. cbn [fst snd].
  destruct (snd (all _)) as [d|e] eqn:E; [|discriminate].
  intros H. injection H as <-.
  exists d. split; [|reflexivity]. now apply all_svgRecord_ok.
Qed.

Lemma builtFrom_file (files : list (string * string)) (loaded : list SvgData) :
  Forall2 (builtFrom srcSvgDir (join distIoniconsDir "svg")) files loaded ->
  map (fun r => (fileName r, srcSvgContent r)) loaded = files.
Proof.
  induction 1 as [|[f c] r files loaded [i [x [_ Hr]]] Hrest IH]; simpl;
    [reflexivity|].
  rewrite IH, Hr. reflexivity.
Qed.

Lemma builtFrom_In (files : list (string * string)) (loaded : list SvgData)
      (r : SvgData) :
  Forall2 (builtFrom srcSvgDir (join distIoniconsDir "svg")) files loaded ->
  In r loaded ->
  exists file, In file files
               /\ builtFrom srcSvgDir (join distIoniconsDir "svg") file r.
Proof.
  induction 1 as [|file v files loaded Hv Hrest IH]; simpl; [tauto|].
  intros [<-|Hr]; [exists file; tauto|].
  destruct (IH Hr) as [file' [Hin Hb]]. exists file'. tauto.
Qed.

End LoaderResult.



Lemma getSvgs_file_is_identifier
      (w : Disk) (srcSvgDir rootDir distIoniconsDir : path)
      (svgData : list SvgData) (r : SvgData) :
  snd (Build.getSvgs w srcSvgDir rootDir distIoniconsDir) = Ok svgData ->
  In r svgData ->
  fileName r = iconName r ++ ".svg".
Proof.
  intros Hload Hr.
  destruct (getSvgs_record_origin w srcSvgDir rootDir distIoniconsDir svgData r
                                  Hload Hr) as [_ [Hfile [Hnames _]]].
  apply svgNames_ok in Hnames. destruct Hnames as [_ [Hdots [-> _]]].
  now destruct (svg_name_shape (fileName r) Hfile Hdots) as [Hshape _].
Qed.

Lemma getSvgs_permutation
      (w : Disk) (srcSvgDir rootDir distIoniconsDir : path)
      (svgData : list SvgData) :
  snd (Build.getSvgs w srcSvgDir rootDir distIoniconsDir) = Ok svgData ->
  Permutation (map (fun r => (fileName r, srcSvgContent r)) svgData) (survivors w).
Proof.
  intros Hload.
  destruct (getSvgs_unsorted w srcSvgDir rootDir distIoniconsDir svgData Hload)
    as [loaded [Hbuilt ->]].
  rewrite <- (builtFrom_file srcSvgDir distIoniconsDir _ _ Hbuilt).
  apply Permutation_map. symmetry. apply sort_perm.
Qed.

(** X2. Every record the loader returns carries the names derived from its
    file name: the file name is the icon identifier followed by [.svg], the
    module and script file names are the identifier followed by [.mjs] and
    [.js], the identifier is not empty and has no period, the two paths are
    the file name under the source and the optimized directory, and the
    optimized markup is still unset. *)
Theorem loader_record_names
        (w : World) (srcSvgDir rootDir distIoniconsDir : path)
        (svgData : list SvgData) (r : SvgData) :
  snd (Build.getSvgs w srcSvgDir rootDir distIoniconsDir) = Ok svgData ->
  In r svgData ->
  fileName r = iconName r ++ ".svg"
  /\ fileNameMjs r = iconName r ++ ".mjs"
  /\ fileNameCjs r = iconName r ++ ".js"
  /\ iconName r <> EmptyString
  /\ countChar Build.isDot (iconName r) = 0
  /\ hasUpper (fileName r) = false
  /\ srcFilePath r = join srcSvgDir (fileName r)
  /\ optimizedFilePath r = join (join distIoniconsDir "svg") (fileName r)
  /\ optimizedSvgContent r = None.
Proof.
  intros Hload Hr.
  destruct (getSvgs_unsorted w srcSvgDir rootDir distIoniconsDir svgData Hload)
    as [loaded [Hbuilt ->]].
  apply sort_In in Hr.
  destruct (builtFrom_In srcSvgDir distIoniconsDir _ _ r Hbuilt Hr)
    as [[f c] [Hin [i [x [Hnames ->]]]]].
  simpl in *.
  apply filter_In in Hin. destruct Hin as [_ Hfile]. simpl in Hfile.
  apply svgNames_ok in Hnames. destruct Hnames as [Hlow [Hdots [-> _]]].
  destruct (svg_name_shape f Hfile Hdots) as [Hshape [Hne Hnodot]].
  repeat (split; [assumption || reflexivity|]). reflexivity.
Qed.

Lemma loader_record_names_witness :
  let w := {| manifestVersion := Some "5.0.0";
              svgDir := [("star-outline.svg", "<svg/>"); ("notes.txt", "x")];
              dataJson := None;
              cheatsheetTemplate := "{{content}}" |} in
  snd (Build.getSvgs w ["src"; "svg"] [] ["dist"; "ionicons"])
  = Ok [plainRecordAs "star-outline" "starOutline" "<svg/>"]
  /\ fileName (plainRecordAs "star-outline" "starOutline" "<svg/>")
     = iconName (plainRecordAs "star-outline" "starOutline" "<svg/>") ++ ".svg".
Proof.
  intros w.
  assert (Hload : snd (Build.getSvgs w ["src"; "svg"] [] ["dist"; "ionicons"])
                  = Ok [plainRecordAs "star-outline" "starOutline" "<svg/>"])
    by reflexivity.
  split; [exact Hload|].
  exact (proj1 (loader_record_names w ["src"; "svg"] [] ["dist"; "ionicons"]
                                    _ _ Hload (or_introl eq_refl))).
Defined.

(** X3. When the loader returns, its records are, up to order, the listed
    files that pass the filter, one record per file with the content of that
    file, and they are sorted by export identifier. *)
Theorem loader_returns_survivors
        (w : World) (srcSvgDir rootDir distIoniconsDir : path)
        (svgData : list SvgData) :
  snd (Build.getSvgs w srcSvgDir rootDir distIoniconsDir) = Ok svgData ->
  Permutation (map (fun r => (fileName r, srcSvgContent r)) svgData) (survivors w)
  /\ StronglySorted (keyLe exportName) svgData.
Proof.
  intros Hload. split; [now apply (getSvgs_permutation w srcSvgDir rootDir
                                                      distIoniconsDir)|].
  destruct (getSvgs_unsorted w srcSvgDir rootDir distIoniconsDir svgData Hload)
    as [loaded [_ ->]].
  apply sorted_strongly, sort_sorted.
Qed.

Lemma loader_returns_survivors_witness :
  let w := {| manifestVersion := Some "5.0.0";
              svgDir := [("star.svg", "<svg>s</svg>"); (".DS_Store", "x");
                         ("add.svg", "<svg>a</svg>"); ("README.md", "x")];
              dataJson := None;
              cheatsheetTemplate := "{{content}}" |} in
  let svgData := [ plainRecordAs "add" "add" "<svg>a</svg>";
                   plainRecordAs "star" "star" "<svg>s</svg>" ] in
  snd (Build.getSvgs w ["src"; "svg"] [] ["dist"; "ionicons"]) = Ok svgData
  /\ Permutation (map (fun r => (fileName r, srcSvgContent r)) svgData)
                 [("star.svg", "<svg>s</svg>"); ("add.svg", "<svg>a</svg>")].
Proof.
  intros w svgData.
  assert (Hload : snd (Build.getSvgs w ["src"; "svg"] [] ["dist"; "ionicons"])
                  = Ok svgData) by reflexivity.
  split; [exact Hload|].
  exact (proj1 (loader_returns_survivors w ["src"; "svg"] [] ["dist"; "ionicons"]
                                         svgData Hload)).
Defined.

Lemma getSvgs_valid_iff
        (w : Disk) (srcSvgDir rootDir distIoniconsDir : path) :
  (exists svgData,
      snd (Build.getSvgs w srcSvgDir rootDir distIoniconsDir) = Ok svgData)
  <-> (forall file, In file (survivors w) -> isValidName (fst file) = true).
Proof.
  split.
  - intros [svgData Hload] [f c] Hin. unfold isValidName. simpl.
    destruct (Build.svgNames f) as [names|e] eqn:Hnames; [reflexivity|].
    apply filter_In in Hin. destruct Hin as [Hin Hfile].
    destruct (getSvgs_throws w srcSvgDir rootDir distIoniconsDir f c e
                             Hin Hfile Hnames) as [e' He'].
    congruence.
  - intros Hvalid. rewrite getSvgs_eq. cbn [fst snd].
    destruct (all_svgRecord_valid srcSvgDir distIoniconsDir (survivors w) Hvalid)
      as [vs Hvs].
    unfold survivors in Hvs. rewrite Hvs. eexists. reflexivity.
Qed.

(** X4. The loader returns normally exactly when every listed file that
    passes the filter passes the validations and has a camel-case form; one
    file that does not is enough to make it throw, whatever the others are. *)
Theorem loader_succeeds_iff
        (w : World) (srcSvgDir rootDir distIoniconsDir : path) :
  (exists svgData,
      snd (Build.getSvgs w srcSvgDir rootDir distIoniconsDir) = Ok svgData)
  <-> (forall file, In file (survivors w) -> isValidName (fst file) = true).
Proof. apply getSvgs_valid_iff. Qed.

Lemma loader_succeeds_iff_witness :
  let w := {| manifestVersion := Some "5.0.0";
              svgDir := [("star.svg", "<svg/>"); ("Icon.SVG", "<svg/>")];
              dataJson := None;
              cheatsheetTemplate := "{{content}}" |} in
  exists svgData,
    snd (Build.getSvgs w ["src"; "svg"] [] ["dist"; "ionicons"]) = Ok svgData.
Proof.
  intros w.
  apply (proj2 (loader_succeeds_iff w ["src"; "svg"] [] ["dist"; "ionicons"])).
  intros file Hin. vm_compute in Hin.
  destruct Hin as [<-|[]]. reflexivity.
Defined.

Lemma svgRecord_logs (srcSvgDir optimizedSvgDir : path)
      (files : list (string * string)) :
  concat (map fst (map (Build.svgRecord srcSvgDir optimizedSvgDir) files))
  = map (fun file => ReadFile (join srcSvgDir (fst file)))
        (filter (fun file => isValidName (fst file)) files).
Proof.
  induction files as [|[f c] rest IH]; [reflexivity|].
  rewrite !map_cons, svgRecord_eq. cbn [concat filter].
  change (fst (f, c)) with f.
  destruct (Build.svgNames f) as [[i x]|e] eqn:Hnames.
  - assert (Hvalid : isValidName f = true)
      by (unfold isValidName; now rewrite Hnames).
    rewrite Hvalid. cbn [fst app map]. f_equal. exact IH.
  - assert (Hvalid : isValidName f = false)
      by (unfold isValidName; now rewrite Hnames).
    rewrite Hvalid. exact IH.
Qed.

(** X5. Whether it returns or throws, the loader empties the optimized-SVG
    directory, lists the source directory, and then starts reading exactly
    the files that pass both the filter and the validations, in listing
    order: it writes nothing, and a file that fails does not stop the reads
    of the files listed after it. *)
Theorem loader_log (w : World) (srcSvgDir rootDir distIoniconsDir : path) :
  fst (Build.getSvgs w srcSvgDir rootDir distIoniconsDir)
  = EmptyDir (join distIoniconsDir "svg")
      :: ReadDir srcSvgDir
      :: map (fun file => ReadFile (join srcSvgDir (fst file)))
             (filter (fun file => isValidName (fst file)) (survivors w)).
Proof.
  rewrite getSvgs_eq. cbn [fst]. rewrite all_fst. do 2 f_equal.
  apply svgRecord_logs.
Qed.

Lemma getSvgs_distinct_names
        (w : Disk) (srcSvgDir rootDir distIoniconsDir : path)
        (svgData : list SvgData) :
  NoDup (map fst (listing w)) ->
  snd (Build.getSvgs w srcSvgDir rootDir distIoniconsDir) = Ok svgData ->
  NoDup (map fileName svgData) /\ NoDup (map iconName svgData).
Proof.
  intros Hnd Hload.
  assert (Hfiles : NoDup (map fileName svgData)).
  { pose proof (getSvgs_permutation w srcSvgDir rootDir distIoniconsDir svgData
                                    Hload) as Hperm.
    apply (Permutation_map fst) in Hperm. rewrite map_map in Hperm. simpl in Hperm.
    apply (Permutation_NoDup (Permutation_sym Hperm)).
    unfold survivors. now apply NoDup_map_filter. }
  split; [assumption|].
  assert (Hname : forall r, In r svgData -> fileName r = iconName r ++ ".svg").
  { intros r Hr.
    now apply (getSvgs_file_is_identifier w srcSvgDir rootDir distIoniconsDir
                                          svgData). }
  clear Hload. induction svgData as [|r rest IH]; simpl; [constructor|].
  simpl in Hfiles. inversion Hfiles as [|? ? Hr Hrest]; subst.
  constructor.
  - intros Hin. apply Hr.
    apply in_map_iff in Hin. destruct Hin as [r' [Hi Hr']].
    apply in_map_iff. exists r'. split; [|assumption].
    rewrite (Hname r) by (now left). rewrite (Hname r') by (now right).
    now rewrite Hi.
  - apply IH; [assumption|]. intros r' Hr'. apply Hname. now right.
Qed.

(** X6. When the names of the listing are distinct, as those of a directory
    are, the records the loader returns have distinct file names and
    distinct icon identifiers. *)
Theorem loader_identifiers_unique
        (w : World) (srcSvgDir rootDir distIoniconsDir : path)
        (svgData : list SvgData) :
  NoDup (map fst (svgDir w)) ->
  snd (Build.getSvgs w srcSvgDir rootDir distIoniconsDir) = Ok svgData ->
  NoDup (map fileName svgData) /\ NoDup (map iconName svgData).
Proof. exact (getSvgs_distinct_names w srcSvgDir rootDir distIoniconsDir svgData). Qed.

Lemma loader_identifiers_unique_witness :
  let w := {| manifestVersion := Some "5.0.0";
              svgDir := [("star.svg", "<svg>s</svg>"); ("add.svg", "<svg>a</svg>")];
              dataJson := None;
              cheatsheetTemplate := "{{content}}" |} in
  let svgData := [ plainRecordAs "add" "add" "<svg>a</svg>";
                   plainRecordAs "star" "star" "<svg>s</svg>" ] in
  NoDup (map fst (svgDir w))
  /\ NoDup (map iconName svgData).
Proof.
  intros w svgData.
  assert (Hnd : NoDup (map fst (svgDir w))).
  { simpl. repeat constructor; simpl; intuition discriminate. }
  assert (Hload : snd (Build.getSvgs w ["src"; "svg"] [] ["dist"; "ionicons"])
                  = Ok svgData) by reflexivity.
  split; [exact Hnd|].
  exact (proj2 (loader_identifiers_unique w ["src"; "svg"] [] ["dist"; "ionicons"]
                                          svgData Hnd Hload)).
Defined.

(** ** The optimizer phase *)

Section OptimizeFacts.

Variable svgo : string -> path -> option string.

Lemma optimizeSvg_eq (r : SvgData) :
  Build.optimizeSvg svgo r
  = match svgo (srcSvgContent r) (srcFilePath r) with
    | Some data =>
        ([ReadFile (srcFilePath r); WriteFile (optimizedFilePath r) (Text data)],
         Ok (Build.setOptimized r data))
    | None => ([ReadFile (srcFilePath r)], Err (SvgoError (fileName r)))
    end.
Proof.
  unfold Build.optimizeSvg.
  destruct (svgo (srcSvgContent r) (srcFilePath r)); reflexivity.
Qed.

Lemma optimizeSvgs_ok (l : list SvgData) :
  forall l' : list SvgData,
    snd (Build.optimizeSvgs svgo l) = Ok l' <-> Forall2 (optimizedFrom svgo) l l'.
Proof.
  unfold Build.optimizeSvgs.
  induction l as [|r rest IH]; intros l'.
  - simpl. split.
    + intros H. injection H as <-. constructor.
    + intros H. inversion H. reflexivity.
  - rewrite map_cons, optimizeSvg_eq. cbn [all].
    destruct (all (map (Build.optimizeSvg svgo) rest)) as [log rs] eqn:E.
    cbn [snd] in IH.
    destruct (svgo (srcSvgContent r) (srcFilePath r)) as [data|] eqn:Hsvgo;
      cbn [snd].
    + destruct rs as [vs|e].
      * split.
        -- intros H. injection H as <-. constructor; [now exists data|].
           now apply IH.
        -- intros H. inversion H as [|? r' ? vs' [data' [Hd ->]] Hrest]; subst.
           apply IH in Hrest. injection Hrest as <-.
           rewrite Hsvgo in Hd. injection Hd as <-. reflexivity.
      * split; [discriminate|].
        intros H. inversion H as [|? r' ? vs' _ Hrest]; subst.
        apply IH in Hrest. discriminate.
    + split; [discriminate|].
      intros H. inversion H as [|? r' ? vs' [data' [Hd _]] _]; subst.
      rewrite Hsvgo in Hd. discriminate.
Qed.

Lemma optimizeSvgs_writes (l : list SvgData) :
  forall l' : list SvgData,
    snd (Build.optimizeSvgs svgo l) = Ok l' ->
    fst (Build.optimizeSvgs svgo l)
    = flat_map (fun r' => [ ReadFile (srcFilePath r');
                            WriteFile (optimizedFilePath r') (Text (markup r')) ])
               l'.
Proof.
  unfold Build.optimizeSvgs.
  induction l as [|r rest IH]; intros l'.
  - simpl. intros H. injection H as <-. reflexivity.
  - rewrite map_cons, optimizeSvg_eq. cbn [all].
    destruct (all (map (Build.optimizeSvg svgo) rest)) as [log rs] eqn:E.
    cbn [fst snd] in *.
    destruct (svgo (srcSvgContent r) (srcFilePath r)) as [data|];
      cbn [fst snd]; [|discriminate].
    destruct rs as [vs|e]; [|discriminate].
    intros H. injection H as <-.
    rewrite (IH vs eq_refl). reflexivity.
Qed.

Lemma optimizeSvgs_err (l : list SvgData) (e : Error) :
  snd (Build.optimizeSvgs svgo l) = Err e ->
  exists r, In r l
            /\ svgo (srcSvgContent r) (srcFilePath r) = None
            /\ e = SvgoError (fileName r).
Proof.
  unfold Build.optimizeSvgs. intros H.
  apply all_err_origin in H. destruct H as [m [Hm He]].
  apply in_map_iff in Hm. destruct Hm as [r [<- Hr]].
  rewrite optimizeSvg_eq in He.
  destruct (svgo (srcSvgContent r) (srcFilePath r)) eqn:Hsvgo; [discriminate|].
  simpl in He. injection He as <-. exists r. auto.
Qed.

Lemma optimizedFrom_content (l l' : list SvgData) :
  Forall2 (optimizedFrom svgo) l l' -> Forall hasContent l'.
Proof.
  induction 1 as [|r r' l l' [data [_ ->]] Hrest IH]; constructor;
    [discriminate|assumption].
Qed.

Lemma optimizeSvgs_accepts (l : list SvgData) :
  (exists l', snd (Build.optimizeSvgs svgo l) = Ok l')
  <-> Forall (fun r => svgo (srcSvgContent r) (srcFilePath r) <> None) l.
Proof.
  split.
  - intros [l' Hok]. apply optimizeSvgs_ok in Hok.
    induction Hok as [|r r' l l' [data [Hd _]] Hrest IH]; constructor;
      [congruence|assumption].
  - intros Hall. induction Hall as [|r rest Hr Hrest [l' IH]].
    + exists []. reflexivity.
    + destruct (svgo (srcSvgContent r) (srcFilePath r)) as [data|] eqn:Hsvgo;
        [|contradiction].
      exists (Build.setOptimized r data :: l').
      apply optimizeSvgs_ok. constructor; [now exists data|].
      now apply optimizeSvgs_ok.
Qed.

Lemma optimizedFrom_field {A : Type} (field : SvgData -> A) (l l' : list SvgData) :
  (forall r data, field (Build.setOptimized r data) = field r) ->
  Forall2 (optimizedFrom svgo) l l' ->
  map field l' = map field l.
Proof.
  intros Hfield.
  induction 1 as [|r r' l l' [data [_ ->]] Hrest IH]; simpl; [reflexivity|].
  now rewrite Hfield, IH.
Qed.

End OptimizeFacts.

(** X7. The optimizer phase returns normally exactly when [svgo] accepts the
    source of every record. The records are then the same, in the same
    order, each updated in place with the markup [svgo] produced and with
    every other field unchanged, and what the phase wrote is one file per
    record: that markup, at the record's optimized path. *)
Theorem optimizeSvgs_updates_in_place
        (svgo : string -> path -> option string) (srcSvgData : list SvgData) :
  ((exists optimized, snd (Build.optimizeSvgs svgo srcSvgData) = Ok optimized)
   <-> Forall (fun r => svgo (srcSvgContent r) (srcFilePath r) <> None) srcSvgData)
  /\ (forall optimized,
         snd (Build.optimizeSvgs svgo srcSvgData) = Ok optimized ->
         Forall2 (optimizedFrom svgo) srcSvgData optimized
         /\ Forall hasContent optimized
         /\ map fileName optimized = map fileName srcSvgData
         /\ map iconName optimized = map iconName srcSvgData
         /\ map exportName optimized = map exportName srcSvgData
         /\ writes (fst (Build.optimizeSvgs svgo srcSvgData))
            = map (fun r' => WriteFile (optimizedFilePath r') (Text (markup r')))
                  optimized).
Proof.
  split; [apply optimizeSvgs_accepts|].
  intros optimized Hok.
  pose proof (optimizeSvgs_writes svgo srcSvgData optimized Hok) as Hlog.
  apply optimizeSvgs_ok in Hok.
  split; [assumption|].
  split; [now apply (optimizedFrom_content svgo srcSvgData)|].
  split; [now apply (optimizedFrom_field svgo fileName)|].
  split; [now apply (optimizedFrom_field svgo iconName)|].
  split; [now apply (optimizedFrom_field svgo exportName)|].
  rewrite Hlog. unfold writes. clear.
  induction optimized as [|r rest IH]; simpl; [reflexivity|].
  now rewrite IH.
Qed.

Lemma optimizeSvgs_updates_in_place_witness :
  let svgo := fun (s : string) (_ : path) => Some ("<opt>" ++ s) in
  let srcSvgData := [ plainRecordAs "add" "add" "<svg/>" ] in
  exists optimized,
    snd (Build.optimizeSvgs svgo srcSvgData) = Ok optimized
    /\ Forall hasContent optimized.
Proof.
  intros svgo srcSvgData.
  destruct (optimizeSvgs_updates_in_place svgo srcSvgData) as [Hiff Hform].
  assert (Hall : Forall (fun r => svgo (srcSvgContent r) (srcFilePath r) <> None)
                        srcSvgData).
  { repeat constructor. discriminate. }
  destruct (proj2 Hiff Hall) as [optimized Hok].
  exists optimized. split; [exact Hok|].
  exact (proj1 (proj2 (Hform optimized Hok))).
Defined.

(** X8. When the optimizer phase throws, the exception is the [svgo] error of
    a record whose source [svgo] rejected, named by its file name. *)
Theorem optimizeSvgs_error_names_file
        (svgo : string -> path -> option string) (srcSvgData : list SvgData)
        (e : Error) :
  snd (Build.optimizeSvgs svgo srcSvgData) = Err e ->
  exists r,
    In r srcSvgData
    /\ svgo (srcSvgContent r) (srcFilePath r) = None
    /\ e = SvgoError (fileName r).
Proof. apply optimizeSvgs_err. Qed.

Lemma optimizeSvgs_error_names_file_witness :
  let svgo := fun (s : string) (_ : path) =>
                if String.eqb s "<svg/>" then Some s else None in
  let srcSvgData := [ plainRecordAs "add" "add" "<svg/>";
                      plainRecordAs "bad" "bad" "<svg" ] in
  snd (Build.optimizeSvgs svgo srcSvgData) = Err (SvgoError "bad.svg")
  /\ exists r, In r srcSvgData /\ SvgoError "bad.svg" = SvgoError (fileName r).
Proof.
  intros svgo srcSvgData.
  assert (Herr : snd (Build.optimizeSvgs svgo srcSvgData)
                 = Err (SvgoError "bad.svg")) by reflexivity.
  split; [exact Herr|].
  destruct (optimizeSvgs_error_names_file svgo srcSvgData _ Herr)
    as [r [Hr [_ He]]].
  exists r. split; assumption.
Defined.

(** ** The emitters, one by one *)

Section EmitterForms.

Lemma all_map_effect {X : Type} (f : X -> M unit) (g : X -> Effect) (xs : list X) :
  (forall x, In x xs -> f x = effect (g x)) ->
  all (map f xs) = (map g xs, Ok (map (fun _ => tt) xs)).
Proof.
  induction xs as [|x rest IH]; intros Hf; [reflexivity|].
  rewrite map_cons, (Hf x (or_introl eq_refl)). cbn [all effect].
  rewrite IH by (intros y Hy; apply Hf; now right). reflexivity.
Qed.

Lemma targets_app (l1 l2 : list Effect) :
  targets (l1 +++ l2) = targets l1 +++ targets l2.
Proof. apply flat_map_app. Qed.

Lemma targets_map {X : Type} (g : X -> Effect) (p : X -> path) (xs : list X) :
  (forall x, target (g x) = [p x]) -> targets (map g xs) = map p xs.
Proof.
  intros Hg. unfold targets.
  induction xs as [|x rest IH]; simpl; [reflexivity|].
  now rewrite Hg, IH.
Qed.

Lemma createEsmIcons_targets (version : string) (iconDir iconImportsDir : path)
      (srcSvgData : list SvgData) :
  snd (Build.createEsmIcons version iconDir iconImportsDir srcSvgData) = Ok tt
  /\ targets (fst (Build.createEsmIcons version iconDir iconImportsDir srcSvgData))
     = map (fun r => join iconImportsDir (fileNameMjs r)) srcSvgData
           +++ [join iconDir "index.mjs"].
Proof.
  unfold Build.createEsmIcons.
  erewrite all_map_effect by (intros; reflexivity).
  rewrite bind_ok. cbn [fst snd effect]. split; [reflexivity|].
  rewrite targets_app.
  now rewrite (targets_map _ (fun r => join iconImportsDir (fileNameMjs r))).
Qed.

Lemma createCjsIcons_targets (version : string) (iconDir iconImportsDir : path)
      (srcSvgData : list SvgData) :
  snd (Build.createCjsIcons version iconDir iconImportsDir srcSvgData) = Ok tt
  /\ targets (fst (Build.createCjsIcons version iconDir iconImportsDir srcSvgData))
     = map (fun r => join iconImportsDir (fileNameCjs r)) srcSvgData
           +++ [join iconDir "index.js"].
Proof.
  unfold Build.createCjsIcons.
  erewrite all_map_effect by (intros; reflexivity).
  rewrite bind_ok. cbn [fst snd effect]. split; [reflexivity|].
  rewrite targets_app.
  now rewrite (targets_map _ (fun r => join iconImportsDir (fileNameCjs r))).
Qed.

Lemma createIconPackage_targets (version : string) (iconDir : path)
      (srcSvgData : list SvgData) :
  snd (Build.createIconPackage version iconDir srcSvgData) = Ok tt
  /\ targets (fst (Build.createIconPackage version iconDir srcSvgData))
     = map (fun r => join (join iconDir "imports") (fileNameMjs r)) srcSvgData
           +++ [join iconDir "index.mjs"]
           +++ map (fun r => join (join iconDir "imports") (fileNameCjs r)) srcSvgData
           +++ [join iconDir "index.js"; join iconDir "index.d.ts";
                join iconDir "package.json"].
Proof.
  unfold Build.createIconPackage.
  destruct (createEsmIcons_targets version iconDir (join iconDir "imports")
                                   srcSvgData) as [Hesm Tesm].
  destruct (createCjsIcons_targets version iconDir (join iconDir "imports")
                                   srcSvgData) as [Hcjs Tcjs].
  destruct (Build.createEsmIcons version iconDir (join iconDir "imports") srcSvgData)
    as [lesm resm].
  destruct (Build.createCjsIcons version iconDir (join iconDir "imports") srcSvgData)
    as [lcjs rcjs].
  cbn [fst snd] in *. subst resm rcjs.
  unfold Build.createDtsIcons, effect. cbn [all ret].
  rewrite !bind_ok. cbn [fst snd]. split; [reflexivity|].
  rewrite !targets_app, Tesm, Tcjs. cbn [targets flat_map target app].
  rewrite <- !app_assoc. reflexivity.
Qed.

Lemma optimizedText_markup (r : SvgData) :
  hasContent r -> Build.optimizedText r = Ok (markup r).
Proof.
  unfold hasContent, Build.optimizedText, markup.
  destruct (optimizedSvgContent r); [reflexivity|congruence].
Qed.

Lemma copyToTesting_form (rootDir distDir : path) (srcSvgData : list SvgData) :
  Forall hasContent srcSvgData ->
  Build.copyToTesting rootDir distDir srcSvgData
  = (EnsureDir (join (join (join rootDir "www") "build") "svg")
       :: map (fun r => WriteFile (join (join (join (join rootDir "www") "build")
                                              "svg") (fileName r))
                                  (Text (markup r))) srcSvgData
       +++ [CopyFile (join distDir "cheatsheet.html")
                     (join (join rootDir "www") "cheatsheet.html")],
     Ok tt).
Proof.
  intros Hall. rewrite Forall_forall in Hall.
  unfold Build.copyToTesting.
  rewrite (all_map_effect _
             (fun r => WriteFile (join (join (join (join rootDir "www") "build")
                                             "svg") (fileName r))
                                 (Text (markup r)))).
  - unfold effect. rewrite !bind_ok. reflexivity.
  - intros r Hr. now rewrite (optimizedText_markup r (Hall r Hr)).
Qed.

Lemma mapR_all_ok {X Y : Type} (f : X -> result Y) (g : X -> Y) (xs : list X) :
  (forall x, In x xs -> f x = Ok (g x)) -> mapR f xs = Ok (map g xs).
Proof.
  induction xs as [|x rest IH]; intros Hf; [reflexivity|].
  simpl. rewrite (Hf x (or_introl eq_refl)). simpl.
  rewrite IH by (intros y Hy; apply Hf; now right). reflexivity.
Qed.

Lemma createSvgSymbols_form
      (replaceFirst : string -> string -> string -> string)
      (version : string) (distDir : path) (srcSvgData : list SvgData) :
  Forall hasContent srcSvgData ->
  exists content,
    Build.createSvgSymbols replaceFirst version distDir srcSvgData
    = ([WriteFile (join distDir "ionicons.symbols.svg") (Text content)],
       Ok (content, Js.sort (Js.compareBy iconName) srcSvgData)).
Proof.
  intros Hall. rewrite Forall_forall in Hall.
  unfold Build.createSvgSymbols.
  erewrite (mapR_all_ok (Build.symbolOf replaceFirst)).
  - eexists. unfold lift, effect, ret. rewrite !bind_ok. reflexivity.
  - intros r Hr. apply sort_In in Hr. unfold Build.symbolOf.
    rewrite (optimizedText_markup r (Hall r Hr)). reflexivity.
Qed.

Lemma createCheatsheet_form
      (replaceAll : string -> string -> string -> string) (w : World)
      (version : string) (rootDir distDir : path) (content : string)
      (srcSvgData : list SvgData) :
  Build.createCheatsheet replaceAll w version rootDir distDir content srcSvgData
  = ([ReadFile (join (join rootDir "scripts") "cheatsheet-template.html");
      WriteFile (join distDir "cheatsheet.html")
                (Text (cheatsheetHtml replaceAll (cheatsheetTemplate w) version
                                      (map iconName srcSvgData) content))],
     Ok tt).
Proof.
  unfold Build.createCheatsheet, cheatsheetHtml.
  rewrite map_map, length_map. reflexivity.
Qed.

End EmitterForms.

(** ** What a whole run writes *)

Section BuildOutputs.

Variable svgo : string -> path -> option string.
Variables replaceFirst replaceAll : string -> string -> string -> string.
Variable rootDir : path.

Local Abbreviation srcSvgDir := (join (join rootDir "src") "svg").
Local Abbreviation distDir := (join rootDir "dist").
Local Abbreviation distIoniconsDir := (join (join rootDir "dist") "ionicons").
Local Abbreviation optimizedDir :=
  (join (join (join rootDir "dist") "ionicons") "svg").
Local Abbreviation testSvgDir := (join (join (join rootDir "www") "build") "svg").
Local Abbreviation iconDir := (join rootDir "icons").

Local Abbreviation emit w version srcSvgData :=
  (all [ Build.createDataJson w version (join rootDir "src") distDir srcSvgData;
         Build.createIconPackage version iconDir srcSvgData ] ;;;
   symbols <- Build.createSvgSymbols replaceFirst version distDir srcSvgData ;;
   let (svgSymbolsContent, sorted) := symbols : string * list SvgData in
   Build.createCheatsheet replaceAll w version rootDir distDir
                          svgSymbolsContent sorted ;;;
   Build.copyToTesting rootDir distDir sorted).

Local Abbreviation opening :=
  [ EmptyDir iconDir; EmptyDir distDir; EmptyDir distIoniconsDir;
    ReadJson (join rootDir "package.json") ].

Lemma emit_form (w : World) (version : string) (srcSvgData : list SvgData) :
  Forall hasContent srcSvgData ->
  exists content,
    emit w version srcSvgData
    = (fst (Build.createDataJson w version (join rootDir "src") distDir srcSvgData)
         +++ fst (Build.createIconPackage version iconDir srcSvgData)
         +++ [ WriteFile (join distDir "ionicons.symbols.svg") (Text content);
               ReadFile (join (join rootDir "scripts") "cheatsheet-template.html");
               WriteFile (join distDir "cheatsheet.html")
                 (Text (cheatsheetHtml replaceAll (cheatsheetTemplate w) version
                          (map iconName
                               (Js.sort (Js.compareBy iconName) srcSvgData))
                          content));
               EnsureDir testSvgDir ]
         +++ map (fun r => WriteFile (join testSvgDir (fileName r))
                                     (Text (markup r)))
                 (Js.sort (Js.compareBy iconName) srcSvgData)
         +++ [ CopyFile (join distDir "cheatsheet.html")
                        (join (join rootDir "www") "cheatsheet.html") ],
       Ok tt).
Proof.
  intros Hall.
  destruct (createSvgSymbols_form replaceFirst version distDir srcSvgData Hall)
    as [content Hsym].
  pose proof (createCheatsheet_form replaceAll w version rootDir distDir content
                (Js.sort (Js.compareBy iconName) srcSvgData)) as Hsheet.
  exists content.
  rewrite Hsym.
  pose proof (proj1 (createIconPackage_targets version iconDir srcSvgData)) as Hpkg.
  rewrite createDataJson_log.
  destruct (Build.createIconPackage version iconDir srcSvgData) as [lp rp].
  cbn [snd] in Hpkg. subst rp. cbn [all ret fst].
  rewrite !bind_ok. cbv beta iota. rewrite Hsheet, bind_ok.
  rewrite copyToTesting_form.
  - cbn [fst snd]. f_equal. cbn [app]. rewrite app_nil_r. reflexivity.
  - apply Forall_forall. intros r Hr. apply sort_In in Hr.
    rewrite Forall_forall in Hall. now apply Hall.
Qed.

Lemma optimizeSvgs_hasContent (loaded srcSvgData : list SvgData) :
  snd (Build.optimizeSvgs svgo loaded) = Ok srcSvgData ->
  Forall hasContent srcSvgData.
Proof.
  intros Hopt. apply optimizeSvgs_ok in Hopt.
  now apply (optimizedFrom_content svgo loaded).
Qed.

Lemma no_writes_no_targets (log : list Effect) :
  writes log = [] -> targets log = [].
Proof.
  unfold writes, targets.
  induction log as [|e rest IH]; simpl; [reflexivity|].
  destruct e; simpl; try discriminate; exact IH.
Qed.

Lemma optimizeSvgs_targets (l : list SvgData) :
  Forall (fun p => In p (map optimizedFilePath l))
         (targets (fst (Build.optimizeSvgs svgo l))).
Proof.
  unfold Build.optimizeSvgs.
  induction l as [|r rest IH]; [constructor|].
  rewrite (map_cons (Build.optimizeSvg svgo)), optimizeSvg_eq. cbn [all].
  destruct (all (map (Build.optimizeSvg svgo) rest)) as [log rs].
  cbn [fst] in IH.
  assert (Hrest : Forall (fun p => In p (map optimizedFilePath (r :: rest)))
                         (targets log)).
  { revert IH. apply Forall_impl. intros p Hp. now right. }
  destruct (svgo (srcSvgContent r) (srcFilePath r)); cbn [fst app];
    [|exact Hrest].
  cbn. apply Forall_cons; [now left|exact Hrest].
Qed.

Lemma insert_map_key {A : Type} (key : A -> string) (x : A) (l : list A) :
  map key (Js.insert (Js.compareBy key) x l)
  = Js.insert (Js.compareBy (fun s => s)) (key x) (map key l).
Proof.
  induction l as [|y rest IH]; simpl; [reflexivity|].
  change (Js.compareBy (fun s => s) (key x) (key y)) with (Js.compareBy key x y).
  destruct (Js.compareBy key x y <=? 0)%Z; simpl; [reflexivity|].
  now rewrite IH.
Qed.

Lemma sort_map_key {A : Type} (key : A -> string) (l : list A) :
  map key (Js.sort (Js.compareBy key) l) = Js.sortStrings (map key l).
Proof.
  unfold Js.sortStrings.
  induction l as [|x rest IH]; simpl; [reflexivity|].
  now rewrite insert_map_key, IH.
Qed.

Local Abbreviation named r :=
  (fileName r = iconName r ++ ".svg"
   /\ fileNameMjs r = iconName r ++ ".mjs"
   /\ fileNameCjs r = iconName r ++ ".js"
   /\ optimizedFilePath r = join optimizedDir (fileName r)
   /\ srcFilePath r = join srcSvgDir (fileName r)
   /\ iconName r = iconNameOf (fileName r)).

Lemma getSvgs_named (w : Disk) (loaded : list SvgData) :
  snd (Build.getSvgs w srcSvgDir rootDir distIoniconsDir) = Ok loaded ->
  Forall (fun r => named r) loaded.
Proof.
  intros Hload. apply Forall_forall. intros r Hr.
  destruct (getSvgs_unsorted w srcSvgDir rootDir distIoniconsDir loaded Hload)
    as [unsorted [Hbuilt ->]].
  apply sort_In in Hr.
  destruct (builtFrom_In srcSvgDir distIoniconsDir _ _ r Hbuilt Hr)
    as [[f c] [Hin [i [x [Hnames ->]]]]].
  simpl in *.
  apply filter_In in Hin. destruct Hin as [_ Hfile]. simpl in Hfile.
  apply svgNames_ok in Hnames. destruct Hnames as [_ [Hdots [-> _]]].
  destruct (svg_name_shape f Hfile Hdots) as [Hshape _].
  repeat (split; [assumption || reflexivity|]). reflexivity.
Qed.

Lemma optimizedFrom_named (l l' : list SvgData) :
  Forall (fun r => named r) l ->
  Forall2 (optimizedFrom svgo) l l' ->
  Forall (fun r => named r) l'.
Proof.
  intros Hall H. revert Hall.
  induction H as [|r r' l l' [data [_ ->]] Hrest IH]; intros Hall;
    [constructor|].
  inversion Hall as [|? ? Hr Hl]; subst.
  constructor; [exact Hr|now apply IH].
Qed.

Lemma optimizeSvgs_ok_targets (l l' : list SvgData) :
  snd (Build.optimizeSvgs svgo l) = Ok l' ->
  targets (fst (Build.optimizeSvgs svgo l)) = map optimizedFilePath l'.
Proof.
  intros Hok. rewrite (optimizeSvgs_writes svgo l l' Hok).
  unfold targets. clear.
  induction l' as [|r rest IH]; simpl; [reflexivity|]. now rewrite IH.
Qed.

Lemma emit_targets (w : World) (version : string) (srcSvgData : list SvgData) :
  Forall hasContent srcSvgData ->
  targets (fst (emit w version srcSvgData))
  = [srcDataJsonPath rootDir; distDataJsonPath rootDir]
      +++ map (fun r => join (join iconDir "imports") (fileNameMjs r)) srcSvgData
      +++ [join iconDir "index.mjs"]
      +++ map (fun r => join (join iconDir "imports") (fileNameCjs r)) srcSvgData
      +++ [join iconDir "index.js"; join iconDir "index.d.ts";
           join iconDir "package.json";
           join distDir "ionicons.symbols.svg"; join distDir "cheatsheet.html"]
      +++ map (fun r => join testSvgDir (fileName r))
              (Js.sort (Js.compareBy iconName) srcSvgData)
      +++ [join (join rootDir "www") "cheatsheet.html"].
Proof.
  intros Hall. destruct (emit_form w version srcSvgData Hall) as [c ->].
  cbn [fst]. rewrite !targets_app.
  rewrite (proj2 (createIconPackage_targets version iconDir srcSvgData)).
  rewrite createDataJson_log.
  rewrite (targets_map _ (fun r => join testSvgDir (fileName r))) by reflexivity.
  cbn [fst targets flat_map target app].
  repeat (progress (rewrite <- ?app_assoc; cbn [app])). reflexivity.
Qed.

Lemma names_map (suffix : string) (dir : path) (field : SvgData -> string)
      (l : list SvgData) :
  Forall (fun r => field r = iconName r ++ suffix) l ->
  map (fun r => join dir (field r)) l
  = map (fun n => join dir (n ++ suffix)) (map iconName l).
Proof.
  intros Hall. rewrite map_map. apply map_ext_in.
  intros r Hr. rewrite Forall_forall in Hall. now rewrite (Hall r Hr).
Qed.

Lemma build_success_targets (w : World) (log : list Effect) :
  Build.build svgo replaceFirst replaceAll w rootDir = (log, Ok tt) ->
  exists loaded,
    snd (loadSources w rootDir) = Ok loaded
    /\ targets log = outputs rootDir (map iconName loaded).
Proof.
  intros Hrun.
  destruct (build_success svgo replaceFirst replaceAll rootDir w log Hrun)
    as [version [l1 [loaded [l2 [d [_ [Hload [Hopt [-> _]]]]]]]]].
  assert (Hok : snd (Build.getSvgs w srcSvgDir rootDir distIoniconsDir) = Ok loaded)
    by (now rewrite Hload).
  assert (Hopt' : snd (Build.optimizeSvgs svgo loaded) = Ok d)
    by (now rewrite Hopt).
  exists loaded. split; [exact Hok|].
  pose proof (getSvgs_no_writes w srcSvgDir rootDir distIoniconsDir) as Hl1.
  apply no_writes_no_targets in Hl1. rewrite Hload in Hl1. cbn [fst] in Hl1.
  pose proof (optimizeSvgs_ok_targets loaded d Hopt') as Hl2.
  rewrite Hopt in Hl2. cbn [fst] in Hl2.
  pose proof (proj1 (optimizeSvgs_ok svgo loaded d) Hopt') as Hfrom.
  pose proof (optimizedFrom_named loaded d (getSvgs_named w loaded Hok) Hfrom)
    as Hnamed.
  rewrite !targets_app, Hl1, Hl2, emit_targets
    by (now apply (optimizeSvgs_hasContent loaded)).
  cbn [targets flat_map target app].
  unfold outputs, optimizedDirOf, distIoniconsDirOf, importsDirOf, testSvgDirOf.
  rewrite <- (optimizedFrom_field svgo iconName loaded d (fun _ _ => eq_refl) Hfrom).
  rewrite <- (sort_map_key iconName d).
  rewrite <- (names_map ".mjs" _ fileNameMjs),
          <- (names_map ".js" _ fileNameCjs),
          <- (names_map ".svg" _ fileName d),
          <- (names_map ".svg" _ fileName (Js.sort (Js.compareBy iconName) d)).
  - f_equal. apply map_ext_in. intros r Hr.
    rewrite Forall_forall in Hnamed. now destruct (Hnamed r Hr) as [_ [_ [_ [Hp _]]]].
  - apply Forall_forall. intros r Hr. apply sort_In in Hr.
    rewrite Forall_forall in Hnamed. now destruct (Hnamed r Hr).
  - revert Hnamed. apply Forall_impl. tauto.
  - revert Hnamed. apply Forall_impl. tauto.
  - revert Hnamed. apply Forall_impl. tauto.
Qed.

Lemma length_append (s t : string) :
  String.length (s ++ t) = String.length s + String.length t.
Proof. induction s as [|c s IH]; simpl; [reflexivity|now rewrite IH]. Qed.

Lemma append_inv_tail (s : string) :
  forall n m : string, n ++ s = m ++ s -> n = m.
Proof.
  induction n as [|a n IH]; intros [|c m] H; simpl in H.
  - reflexivity.
  - apply (f_equal String.length) in H. simpl in H. rewrite length_append in H. lia.
  - apply (f_equal String.length) in H. simpl in H. rewrite length_append in H. lia.
  - injection H as <- H. now rewrite (IH m H).
Qed.

Lemma mjs_is_not_js (n : string) : forall m : string, n ++ ".mjs" <> m ++ ".js".
Proof.
  induction n as [|a n IH]; intros m H.
  - simpl in H.
    do 4 (destruct m as [|? m]; simpl in H; [discriminate H|injection H as _ H]).
    destruct m; discriminate H.
  - destruct m as [|c m]; simpl in H.
    + injection H as _ H.
      do 2 (destruct n as [|? n]; simpl in H; [discriminate H|injection H as _ H]).
      destruct n; discriminate H.
    + injection H as _ H. now apply (IH m).
Qed.

Lemma NoDup_named_files (dir : path) (suffix : string) (names : list string) :
  NoDup names -> NoDup (map (fun n => join dir (n ++ suffix)) names).
Proof.
  intros Hnd. apply Finite.Injective_map_NoDup; [|exact Hnd].
  intros n m H. unfold join in H. apply app_inv_head in H.
  injection H as H. now apply append_inv_tail in H.
Qed.

Ltac split_in H :=
  repeat (apply in_app_or in H; destruct H as [H|H]);
  repeat (try (apply in_map_iff in H; destruct H as [? [H ?]]);
          try (destruct H as [H|H]));
  try contradiction.

Ltac relative H :=
  unfold srcDataJsonPath, distDataJsonPath, optimizedDirOf, distIoniconsDirOf,
    importsDirOf, testSvgDirOf, join in H;
  rewrite <- ?app_assoc in H; apply app_inv_head in H; cbn [app] in H.

Lemma NoDup_outputs (names : list string) :
  NoDup names -> NoDup (outputs rootDir names).
Proof.
  intros Hnd.
  assert (Hsorted : NoDup (Js.sortStrings names)).
  { unfold Js.sortStrings. eapply Permutation_NoDup; [apply sort_perm|exact Hnd]. }
  unfold outputs.
  repeat (apply NoDup_app;
          [ try (now apply NoDup_named_files)
          |
          | let p := fresh "p" in
            let H1 := fresh "H1" in
            let H2 := fresh "H2" in
            intros p H1 H2 ]).
  all: try (now apply NoDup_named_files).
  all: try (split_in H1; split_in H2; subst p; relative H2;
            solve [ discriminate H2
                  | injection H2 as H2; now apply mjs_is_not_js in H2
                  | injection H2 as H2; symmetry in H2; now apply mjs_is_not_js in H2 ]).
  all: repeat constructor; simpl; unfold not.
  all: let H := fresh "H" in
       intros H; repeat (destruct H as [H|H]); try contradiction;
       relative H; discriminate H.
Qed.

Lemma Forall2_In_l {X Y : Type} (R : X -> Y -> Prop) (xs : list X) (ys : list Y)
      (x : X) :
  Forall2 R xs ys -> In x xs -> exists y, In y ys /\ R x y.
Proof.
  induction 1 as [|a b xs ys Hab Hrest IH]; simpl; [tauto|].
  intros [<-|Hx]; [exists b; tauto|].
  destruct (IH Hx) as [y [Hy Hr]]. exists y. tauto.
Qed.

Lemma Forall2_In_r {X Y : Type} (R : X -> Y -> Prop) (xs : list X) (ys : list Y)
      (y : Y) :
  Forall2 R xs ys -> In y ys -> exists x, In x xs /\ R x y.
Proof.
  induction 1 as [|a b xs ys Hab Hrest IH]; simpl; [tauto|].
  intros [<-|Hy]; [exists a; tauto|].
  destruct (IH Hy) as [x [Hx Hr]]. exists x. tauto.
Qed.

(** The records of the loader and the files that pass its filter are the
    same, file by file. *)
Lemma getSvgs_covers (w : Disk) (loaded : list SvgData) :
  snd (Build.getSvgs w srcSvgDir rootDir distIoniconsDir) = Ok loaded ->
  forall file,
    In file (survivors w)
    <-> exists r, In r loaded /\ file = (fileName r, srcSvgContent r).
Proof.
  intros Hload file.
  pose proof (getSvgs_permutation w srcSvgDir rootDir distIoniconsDir loaded Hload)
    as Hperm.
  split.
  - intros Hin. apply (Permutation_in _ (Permutation_sym Hperm)) in Hin.
    apply in_map_iff in Hin. destruct Hin as [r [Hr Hin]]. exists r. auto.
  - intros [r [Hr ->]]. apply (Permutation_in _ Hperm).
    apply in_map_iff. exists r. auto.
Qed.

Lemma build_mirror (w : World) (log : list Effect) :
  Build.build svgo replaceFirst replaceAll w rootDir = (log, Ok tt) ->
  forall file,
    In file (survivors w) ->
    exists data,
      svgo (snd file) (join srcSvgDir (fst file)) = Some data
      /\ In (WriteFile (join optimizedDir (fst file)) (Text data)) log
      /\ In (WriteFile (join testSvgDir (fst file)) (Text data)) log.
Proof.
  intros Hrun file Hfile.
  destruct (build_success svgo replaceFirst replaceAll rootDir w log Hrun)
    as [version [l1 [loaded [l2 [d [_ [Hload [Hopt [-> _]]]]]]]]].
  assert (Hok : snd (Build.getSvgs w srcSvgDir rootDir distIoniconsDir) = Ok loaded)
    by (now rewrite Hload).
  assert (Hopt' : snd (Build.optimizeSvgs svgo loaded) = Ok d)
    by (now rewrite Hopt).
  apply (getSvgs_covers w loaded Hok) in Hfile. destruct Hfile as [r [Hr ->]].
  pose proof (getSvgs_named w loaded Hok) as Hnamed.
  rewrite Forall_forall in Hnamed.
  destruct (Hnamed r Hr) as [_ [_ [_ [Hopath [Hspath _]]]]].
  pose proof (proj1 (optimizeSvgs_ok svgo loaded d) Hopt') as Hfrom.
  destruct (Forall2_In_l _ _ _ r Hfrom Hr) as [r' [Hr' [data [Hdata ->]]]].
  exists data. cbn [fst snd]. rewrite <- Hspath. split; [exact Hdata|].
  split.
  - apply in_or_app. right. apply in_or_app. right. apply in_or_app. left.
    pose proof (optimizeSvgs_writes svgo loaded d Hopt') as Hl2.
    rewrite Hopt in Hl2. cbn [fst] in Hl2. rewrite Hl2.
    apply in_flat_map. exists (Build.setOptimized r data).
    split; [exact Hr'|]. right. left. cbn. now rewrite Hopath.
  - apply in_or_app. right. apply in_or_app. right. apply in_or_app. right.
    destruct (emit_form w version d (optimizeSvgs_hasContent loaded d Hopt'))
      as [c ->].
    cbn [fst]. apply in_or_app. right. apply in_or_app. right.
    apply in_or_app. right. apply in_or_app. left.
    apply in_map_iff. exists (Build.setOptimized r data).
    split; [reflexivity|]. now apply sort_In.
Qed.


Lemma createDataJson_cases (w : Disk) (version : string) (srcSvgData : list SvgData) :
  Build.createDataJson w version (join rootDir "src") distDir srcSvgData
  = match Catalog.load (dataFile w) srcSvgData with
    | Err e => ([ReadJson (srcDataJsonPath rootDir)], Err e)
    | Ok data =>
        ([ ReadJson (srcDataJsonPath rootDir);
           WriteFile (srcDataJsonPath rootDir)
                     (match dataFile w with
                      | TopArray items => JsonArray items
                      | _ => JsonCatalog (Catalog.srcCatalog data srcSvgData)
                      end);
           WriteFile (distDataJsonPath rootDir)
                     (JsonCatalog (Catalog.distCatalog version data srcSvgData)) ],
         Ok tt)
    end.
Proof.
  unfold Build.createDataJson.
  destruct (Catalog.load (dataFile w) srcSvgData); reflexivity.
Qed.

Lemma createCheatsheet_cases (w : Disk) (version content : string)
      (sorted : list SvgData) :
  Build.createCheatsheet replaceAll w version rootDir distDir content sorted
  = match template w with
    | None =>
        ([ReadFile (join (join rootDir "scripts") "cheatsheet-template.html")],
         Err ReadError)
    | Some text =>
        ([ReadFile (join (join rootDir "scripts") "cheatsheet-template.html");
          WriteFile (join distDir "cheatsheet.html")
                    (Text (cheatsheetHtml replaceAll text version
                                          (map iconName sorted) content))],
         Ok tt)
    end.
Proof.
  unfold Build.createCheatsheet, cheatsheetHtml.
  destruct (template w); [rewrite map_map, length_map|]; reflexivity.
Qed.

(** How the steps after the optimizer end, and what they write: nothing but
    the icon package when [data.json] cannot be reconciled, and all but the
    cheatsheet and the test copies when the template cannot be read. *)
Lemma emit_phases (w : Disk) (version : string) (srcSvgData : list SvgData) :
  Forall hasContent srcSvgData ->
  snd (emit w version srcSvgData)
  = match Catalog.load (dataFile w) srcSvgData with
    | Err e => Err e
    | Ok _ => match template w with
              | None => Err ReadError
              | Some _ => Ok tt
              end
    end
  /\ targets (fst (emit w version srcSvgData))
     = match Catalog.load (dataFile w) srcSvgData with
       | Err _ => targets (fst (Build.createIconPackage version iconDir srcSvgData))
       | Ok _ =>
           [srcDataJsonPath rootDir; distDataJsonPath rootDir]
             +++ targets (fst (Build.createIconPackage version iconDir srcSvgData))
             +++ join distDir "ionicons.symbols.svg"
             :: match template w with
                | None => []
                | Some _ =>
                    join distDir "cheatsheet.html"
                    :: map (fun r => join testSvgDir (fileName r))
                           (Js.sort (Js.compareBy iconName) srcSvgData)
                    +++ [join (join rootDir "www") "cheatsheet.html"]
                end
       end.
Proof.
  intros Hall.
  destruct (createSvgSymbols_form replaceFirst version distDir srcSvgData Hall)
    as [content Hsym].
  rewrite Hsym, createDataJson_cases.
  pose proof (proj1 (createIconPackage_targets version iconDir srcSvgData)) as Hpkg.
  destruct (Build.createIconPackage version iconDir srcSvgData) as [lp rp].
  cbn [snd] in Hpkg. subst rp.
  destruct (Catalog.load (dataFile w) srcSvgData) as [data|e]; cbn [all ret fst snd].
  2:{ split; [reflexivity|]. cbn [bind fst]. rewrite !targets_app.
      cbn [targets flat_map target app]. now rewrite app_nil_r. }
  rewrite !bind_ok. cbv beta iota. rewrite createCheatsheet_cases.
  destruct (template w) as [text|].
  - rewrite bind_ok, copyToTesting_form.
    2:{ apply Forall_forall. intros r Hr. apply sort_In in Hr.
        rewrite Forall_forall in Hall. now apply Hall. }
    cbn [fst snd]. split; [reflexivity|]. rewrite !targets_app.
    match goal with
    | |- context [targets (EnsureDir ?d :: ?l)] =>
        change (targets (EnsureDir d :: l)) with (targets l)
    end.
    rewrite targets_app.
    rewrite (targets_map _ (fun r => join testSvgDir (fileName r))) by reflexivity.
    cbn [targets flat_map target app].
    repeat (progress (rewrite <- ?app_assoc; cbn [app])). reflexivity.
  - cbn [bind fst snd]. split; [reflexivity|]. rewrite !targets_app.
    cbn [targets flat_map target app].
    repeat (progress (rewrite <- ?app_assoc; cbn [app])). reflexivity.
Qed.


Lemma load_error (file : DataFile) (srcSvgData : list SvgData) (e : Error) :
  Catalog.load file srcSvgData = Err e -> e = TypeError.
Proof.
  destruct file as [| |items|m [|entries|]]; cbn [Catalog.load]; try discriminate;
    try (intros H; now injection H).
  unfold Catalog.loadEntries.
  destruct srcSvgData as [|r rest]; [discriminate|].
  destruct (existsb Catalog.isNullEntry entries);
    [intros H; now injection H|].
  destruct (existsb (Catalog.hasBadTags (r :: rest)) entries);
    [intros H; now injection H|discriminate].
Qed.






(** What a failed run can have written lies below [dist/ionicons] or
    [icons], or is a catalog or the sprite. *)
Local Abbreviation early p :=
  ((exists f, p = join optimizedDir f)
   \/ p = srcDataJsonPath rootDir
   \/ p = distDataJsonPath rootDir
   \/ (exists rest, p = iconDir +++ rest)
   \/ p = join distDir "ionicons.symbols.svg").

Lemma early_is_not_published (p : path) :
  early p ->
  p <> join distDir "cheatsheet.html" /\ ~ below (join rootDir "www") p.
Proof.
  unfold below.
  intros [[f ->] | [-> | [-> | [[rest ->] | ->]]]]; split;
    try (intros [tail H]); try (intros H);
    unfold srcDataJsonPath, distDataJsonPath, join in H;
    rewrite <- ?app_assoc in H; apply app_inv_head in H; discriminate H.
Qed.

Lemma createIconPackage_below (version : string) (srcSvgData : list SvgData) :
  Forall (fun p => exists rest, p = iconDir +++ rest)
         (targets (fst (Build.createIconPackage version iconDir srcSvgData))).
Proof.
  rewrite (proj2 (createIconPackage_targets version iconDir srcSvgData)).
  apply Forall_forall. intros p Hp.
  repeat (apply in_app_or in Hp; destruct Hp as [Hp|Hp]).
  - apply in_map_iff in Hp. destruct Hp as [r [<- _]].
    exists ["imports"; fileNameMjs r]. unfold join. now rewrite <- app_assoc.
  - destruct Hp as [<-|[]]. now exists ["index.mjs"].
  - apply in_map_iff in Hp. destruct Hp as [r [<- _]].
    exists ["imports"; fileNameCjs r]. unfold join. now rewrite <- app_assoc.
  - destruct Hp as [<-|[<-|[<-|[]]]];
      [now exists ["index.js"]|now exists ["index.d.ts"]|now exists ["package.json"]].
Qed.

Lemma targets_opening (log : list Effect) :
  targets (EmptyDir iconDir :: EmptyDir distDir :: EmptyDir distIoniconsDir
             :: ReadJson (join rootDir "package.json") :: log)
  = targets log.
Proof. reflexivity. Qed.

Lemma build_failed_log (w : Disk) (log : list Effect) (e : Error) :
  Build.build svgo replaceFirst replaceAll w rootDir = (log, Err e) ->
  Forall (fun p => early p) (targets log)
  /\ (manifest w = None
      \/ (exists e', snd (Build.getSvgs w srcSvgDir rootDir distIoniconsDir) = Err e') ->
      targets log = [])
  /\ ((exists f, e = SvgoError f) ->
      Forall (fun p => exists file,
                  In file (survivors w) /\ p = join optimizedDir (fst file))
             (targets log)).
Proof.
  rewrite (build_phases svgo replaceFirst replaceAll rootDir w).
  destruct (manifest w) as [version|] eqn:Hv.
  2:{ intros H. injection H as <- <-.
      split; [constructor|]. split; [reflexivity|]. intros _. constructor. }
  pose proof (getSvgs_no_writes w srcSvgDir rootDir distIoniconsDir) as Hl1.
  apply no_writes_no_targets in Hl1.
  destruct (Build.getSvgs w srcSvgDir rootDir distIoniconsDir)
    as [l1 [loaded|e1]] eqn:Hload; cbn [fst] in Hl1.
  2:{ intros H. injection H as <- <-. rewrite !targets_opening, Hl1.
      split; [constructor|]. split; [reflexivity|]. intros _. constructor. }
  assert (Hok : snd (Build.getSvgs w srcSvgDir rootDir distIoniconsDir) = Ok loaded)
    by (now rewrite Hload).
  assert (Hsurv : forall r, In r loaded ->
                            exists file, In file (survivors w)
                                         /\ optimizedFilePath r
                                            = join optimizedDir (fst file)).
  { intros r Hr.
    destruct (getSvgs_record_origin w srcSvgDir rootDir distIoniconsDir
                                    loaded r Hok Hr) as [Hin [Hfile [_ Hpath]]].
    exists (fileName r, srcSvgContent r). split; [|exact Hpath].
    unfold survivors. apply filter_In. now split. }
  pose proof (optimizeSvgs_targets loaded) as Hl2.
  assert (Hopt2 : Forall (fun p => exists file,
                              In file (survivors w)
                              /\ p = join optimizedDir (fst file))
                         (targets (fst (Build.optimizeSvgs svgo loaded)))).
  { revert Hl2. apply Forall_impl. intros p Hp.
    apply in_map_iff in Hp. destruct Hp as [r [<- Hr]]. now apply Hsurv. }
  assert (Hearly2 : Forall (fun p => early p)
                           (targets (fst (Build.optimizeSvgs svgo loaded)))).
  { revert Hopt2. apply Forall_impl. intros p [file [_ ->]]. left.
    now exists (fst file). }
  pose proof (optimizeSvgs_hasContent loaded) as Hcontent.
  destruct (Build.optimizeSvgs svgo loaded) as [l2 [d|e2]] eqn:Hopt;
    cbn [fst snd] in Hl2, Hopt2, Hearly2, Hcontent.
  2:{ intros H. injection H as <- <-. rewrite !targets_opening, !targets_app, Hl1.
      cbn [app].
      split; [exact Hearly2|]. split; [intros [H|[e' H]]; discriminate|].
      intros _. exact Hopt2. }
  destruct (emit_phases w version d (Hcontent d eq_refl)) as [Hres Htargets].
  rewrite Hres. intros H.
  pose proof (f_equal fst H) as Hlog. pose proof (f_equal snd H) as Hend.
  cbn [fst snd] in Hlog, Hend. subst log. clear H.
  rewrite !targets_app, (targets_opening []), Hl1, Htargets.
  change (targets []) with (@nil path). cbn [app].
  pose proof (createIconPackage_below version d) as Hpkg.
  assert (Hpkg' : Forall (fun p => early p)
                         (targets (fst (Build.createIconPackage version iconDir d)))).
  { revert Hpkg. apply Forall_impl. intros p Hp. right. right. right. now left. }
  split; [|split; [intros [H|[e' H]]; discriminate|]].
  - apply Forall_app. split; [exact Hearly2|].
    destruct (Catalog.load (dataFile w) d) as [data|e3]; [|exact Hpkg'].
    destruct (template w) as [text|]; [discriminate|].
    apply Forall_cons; [right; now left|].
    apply Forall_cons; [right; right; now left|].
    apply Forall_app. split; [exact Hpkg'|].
    apply Forall_cons; [|constructor]. right. right. right. now right.
  - intros [f ->]. exfalso.
    destruct (Catalog.load (dataFile w) d) as [data|e3] eqn:Hdata.
    + destruct (template w); discriminate.
    + apply load_error in Hdata. congruence.
Qed.

Lemma getSvgs_distinct (w : Disk) (loaded : list SvgData) :
  NoDup (map fst (listing w)) ->
  snd (Build.getSvgs w srcSvgDir rootDir distIoniconsDir) = Ok loaded ->
  NoDup (map iconName loaded).
Proof.
  intros Hnd Hload.
  exact (proj2 (getSvgs_distinct_names w srcSvgDir rootDir distIoniconsDir loaded
                                       Hnd Hload)).
Qed.

Lemma build_targets_distinct (w : World) (log : list Effect) :
  NoDup (map fst (svgDir w)) ->
  Build.build svgo replaceFirst replaceAll w rootDir = (log, Ok tt) ->
  NoDup (targets log).
Proof.
  intros Hnd Hrun.
  destruct (build_success_targets w log Hrun) as [loaded [Hload ->]].
  apply NoDup_outputs. now apply (getSvgs_distinct w).
Qed.

Lemma leb_antisym (a b : string) :
  String.leb a b = true -> String.leb b a = true -> a = b.
Proof.
  rewrite !leb_lt_or_eq. intros [Hab|Hab] [Hba|Hba]; auto.
  exfalso. apply (StrictOrder_Irreflexive a).
  exact (StrictOrder_Transitive _ _ _ Hab Hba).
Qed.

(** With distinct keys there is one sorted arrangement only. *)
Lemma sorted_perm_unique {A : Type} (key : A -> string) (l1 : list A) :
  forall l2 : list A,
    StronglySorted (keyLe key) l1 ->
    StronglySorted (keyLe key) l2 ->
    NoDup (map key l1) ->
    Permutation l1 l2 ->
    l1 = l2.
Proof.
  induction l1 as [|x r1 IH]; intros l2 Hs1 Hs2 Hnd Hperm.
  - apply Permutation_nil in Hperm. now subst.
  - destruct l2 as [|y r2].
    { symmetry in Hperm. now apply Permutation_nil in Hperm. }
    inversion Hs1 as [|? ? Hr1 Hx]; subst.
    inversion Hs2 as [|? ? Hr2 Hy]; subst.
    inversion Hnd as [|? ? Hfresh Hnd1]; subst.
    assert (Hxy : x = y).
    { assert (Hx2 : In x (y :: r2))
        by (apply (Permutation_in _ Hperm); now left).
      assert (Hy1 : In y (x :: r1))
        by (apply (Permutation_in _ (Permutation_sym Hperm)); now left).
      destruct Hx2 as [E|Hx2]; [now symmetry|].
      destruct Hy1 as [E|Hy1]; [assumption|].
      exfalso. apply Hfresh.
      rewrite Forall_forall in Hx, Hy.
      rewrite (leb_antisym (key x) (key y) (Hx y Hy1) (Hy x Hx2)).
      now apply in_map. }
    subst y. f_equal.
    apply IH; try assumption. now apply Permutation_cons_inv in Hperm.
Qed.



Lemma build_cheatsheet (w : World) (log : list Effect) :
  Build.build svgo replaceFirst replaceAll w rootDir = (log, Ok tt) ->
  exists version loaded sprite before between,
    manifestVersion w = Some version
    /\ snd (Build.getSvgs w srcSvgDir rootDir distIoniconsDir) = Ok loaded
    /\ log
       = before
           +++ WriteFile (join distDir "ionicons.symbols.svg") (Text sprite)
           :: ReadFile (join (join rootDir "scripts") "cheatsheet-template.html")
           :: WriteFile (join distDir "cheatsheet.html")
                (Text (cheatsheetHtml replaceAll (cheatsheetTemplate w) version
                         (Js.sortStrings (map iconName loaded)) sprite))
           :: between
           +++ [CopyFile (join distDir "cheatsheet.html")
                         (join (join rootDir "www") "cheatsheet.html")].
Proof.
  intros Hrun.
  destruct (build_success svgo replaceFirst replaceAll rootDir w log Hrun)
    as [version [l1 [loaded [l2 [d [Hv [Hload [Hopt [-> _]]]]]]]]].
  assert (Hok : snd (Build.getSvgs w srcSvgDir rootDir distIoniconsDir) = Ok loaded)
    by (now rewrite Hload).
  assert (Hopt' : snd (Build.optimizeSvgs svgo loaded) = Ok d)
    by (now rewrite Hopt).
  pose proof (proj1 (optimizeSvgs_ok svgo loaded d) Hopt') as Hfrom.
  destruct (emit_form w version d (optimizeSvgs_hasContent loaded d Hopt'))
    as [sprite ->].
  rewrite sort_map_key,
    (optimizedFrom_field svgo iconName loaded d (fun _ _ => eq_refl) Hfrom).
  exists version, loaded, sprite.
  exists (opening +++ l1 +++ l2
            +++ fst (Build.createDataJson w version (join rootDir "src") distDir d)
            +++ fst (Build.createIconPackage version iconDir d)).
  exists (EnsureDir testSvgDir
            :: map (fun r => WriteFile (join testSvgDir (fileName r))
                                       (Text (markup r)))
                   (Js.sort (Js.compareBy iconName) d)).
  split; [exact Hv|]. split; [exact Hok|].
  cbn [fst]. rewrite <- !app_assoc. reflexivity.
Qed.

End BuildOutputs.


(** The values of [data.json] on which [createDataJson] throws, each in a
    directory with the one icon [add.svg]: [null], an [icons] that is no
    array, an entry that is [null], and tags that are a string. A missing
    template makes the run throw as well. *)
Example build_throws_on_unexpected_data :
  let svgo := fun (s : string) (_ : path) => Some s in
  let replace := fun s _ _ : string => s in
  let disk := fun file text =>
    {| manifest := Some "5.0.0";
       listing := [("add.svg", "<svg/>")];
       dataFile := file;
       template := text |} in
  let result := fun file text =>
    snd (Build.build svgo replace replace (disk file text) ["repo"]) in
  result NotObject (Some "{{content}}") = Err TypeError
  /\ result (TopObject [] IconsOther) (Some "{{content}}") = Err TypeError
  /\ result (TopObject [] (IconsArray [NullEntry])) (Some "{{content}}")
     = Err TypeError
  /\ result (TopObject [] (IconsArray [BadTags "add"])) (Some "{{content}}")
     = Err TypeError
  /\ result (TopObject [] (IconsArray [BadTags "gone"; Nameless]))
            (Some "{{content}}")
     = Ok tt
  /\ result Unreadable None = Err ReadError.
Proof. vm_compute. repeat split. Qed.


(** X11. A run that throws has not written the cheatsheet, and has written
    or copied nothing below [www]. When the manifest cannot be read or the
    loader throws, it has written nothing at all. When the exception is an
    [svgo] error, every file it put on disk is the optimized form of a
    listed file, under the same name in [dist/ionicons/svg]. The run throws
    for one of the reasons of [build_ends]: emptying and listing
    directories, reading the listed files, writing and copying are taken to
    succeed. *)
Theorem failed_build_writes
        (svgo : string -> path -> option string)
        (replaceFirst replaceAll : string -> string -> string -> string)
        (w : Disk) (rootDir : path) (e : Error) :
  snd (Build.build svgo replaceFirst replaceAll w rootDir) = Err e ->
  ~ In (join (join rootDir "dist") "cheatsheet.html")
       (targets (fst (Build.build svgo replaceFirst replaceAll w rootDir)))
  /\ Forall (fun p => ~ below (join rootDir "www") p)
            (targets (fst (Build.build svgo replaceFirst replaceAll w rootDir)))
  /\ (manifest w = None \/ (exists e', snd (loadSources w rootDir) = Err e') ->
      targets (fst (Build.build svgo replaceFirst replaceAll w rootDir)) = [])
  /\ ((exists f, e = SvgoError f) ->
      Forall (fun p => exists file,
                  In file (survivors w)
                  /\ p = join (optimizedDirOf rootDir) (fst file))
             (targets (fst (Build.build svgo replaceFirst replaceAll w rootDir)))).
Proof.
  destruct (Build.build svgo replaceFirst replaceAll w rootDir) as [log r] eqn:Hrun.
  cbn [fst snd]. intros ->.
  destruct (build_failed_log svgo replaceFirst replaceAll rootDir w log e Hrun)
    as [Hearly [Hnone Hsvgo]].
  rewrite Forall_forall in Hearly.
  split; [|split; [|split; [exact Hnone|exact Hsvgo]]].
  - intros Hin.
    now destruct (early_is_not_published rootDir _ (Hearly _ Hin)) as [H _].
  - apply Forall_forall. intros p Hin.
    now destruct (early_is_not_published rootDir _ (Hearly _ Hin)) as [_ H].
Qed.

Lemma failed_build_writes_witness :
  let svgo := fun (s : string) (_ : path) => Some s in
  let replace := fun s _ _ : string => s in
  let w := {| manifest := Some "5.0.0";
              listing := [("add.svg", "<svg/>")];
              dataFile := TopObject [] (IconsArray [BadTags "add"]);
              template := Some "{{content}}" |} in
  snd (Build.build svgo replace replace w ["repo"]) = Err TypeError
  /\ In ["repo"; "icons"; "package.json"]
        (targets (fst (Build.build svgo replace replace w ["repo"])))
  /\ ~ In ["repo"; "dist"; "cheatsheet.html"]
          (targets (fst (Build.build svgo replace replace w ["repo"])))
  /\ Forall (fun p => ~ below ["repo"; "www"] p)
            (targets (fst (Build.build svgo replace replace w ["repo"]))).
Proof.
  intros svgo replace w.
  assert (Herr : snd (Build.build svgo replace replace w ["repo"]) = Err TypeError)
    by (vm_compute; reflexivity).
  split; [exact Herr|].
  split; [vm_compute; tauto|].
  destruct (failed_build_writes svgo replace replace w ["repo"] _ Herr)
    as [Hsheet [Hwww _]].
  split; [exact Hsheet|exact Hwww].
Defined.

(** X12. The files a run that ends normally writes or copies are, in this
    order: the optimized file of every icon, the two catalogs, the module
    wrapper of every icon and the module index, the script wrapper of every
    icon and the script index, the type index, the package manifest, the
    sprite, the cheatsheet, the test copy of every icon in the order of the
    icon identifiers, and the test copy of the cheatsheet. The icons are
    those of the records the loader returned. *)
Theorem build_outputs
        (svgo : string -> path -> option string)
        (replaceFirst replaceAll : string -> string -> string -> string)
        (w : World) (rootDir : path) (log : list Effect) :
  Build.build svgo replaceFirst replaceAll w rootDir = (log, Ok tt) ->
  exists loaded,
    snd (loadSources w rootDir) = Ok loaded
    /\ targets log = outputs rootDir (map iconName loaded).
Proof. apply build_success_targets. Qed.

Lemma build_outputs_witness :
  let svgo := fun (s : string) (_ : path) => Some s in
  let replace := fun s _ _ : string => s in
  let w := {| manifestVersion := Some "5.0.0";
              svgDir := [("star.svg", "<svg/>"); ("add.svg", "<svg/>")];
              dataJson := None;
              cheatsheetTemplate := "{{content}}" |} in
  exists loaded,
    snd (loadSources w ["repo"]) = Ok loaded
    /\ targets (fst (Build.build svgo replace replace w ["repo"]))
       = outputs ["repo"] (map iconName loaded).
Proof.
  intros svgo replace w.
  assert (Hrun : Build.build svgo replace replace w ["repo"]
                 = (fst (Build.build svgo replace replace w ["repo"]), Ok tt))
    by (vm_compute; reflexivity).
  exact (build_outputs svgo replace replace w ["repo"] _ Hrun).
Defined.

(** X13. When the names of the listing are distinct, a run that ends
    normally writes or copies to no path twice: no output replaces another
    output of the same run. *)
Theorem build_targets_are_distinct
        (svgo : string -> path -> option string)
        (replaceFirst replaceAll : string -> string -> string -> string)
        (w : World) (rootDir : path) (log : list Effect) :
  NoDup (map fst (svgDir w)) ->
  Build.build svgo replaceFirst replaceAll w rootDir = (log, Ok tt) ->
  NoDup (targets log).
Proof.
  intros Hnd Hrun.
  exact (build_targets_distinct svgo replaceFirst replaceAll rootDir w log Hnd Hrun).
Qed.

Lemma build_targets_are_distinct_witness :
  let svgo := fun (s : string) (_ : path) => Some s in
  let replace := fun s _ _ : string => s in
  let w := {| manifestVersion := Some "5.0.0";
              svgDir := [("star.svg", "<svg/>"); ("add.svg", "<svg/>")];
              dataJson := None;
              cheatsheetTemplate := "{{content}}" |} in
  NoDup (targets (fst (Build.build svgo replace replace w ["repo"]))).
Proof.
  intros svgo replace w.
  assert (Hrun : Build.build svgo replace replace w ["repo"]
                 = (fst (Build.build svgo replace replace w ["repo"]), Ok tt))
    by (vm_compute; reflexivity).
  apply (build_targets_are_distinct svgo replace replace w ["repo"] _);
    [|exact Hrun].
  simpl. constructor; [intros [H|[]]; discriminate H|].
  constructor; [intros []|constructor].
Defined.

(** X14. In a run that ends normally, every listed file that passes the
    filter is optimized by [svgo] from its source, and that one result is
    written twice under the file's name: to [dist/ionicons/svg] and to
    [www/build/svg]. *)
Theorem optimized_files_are_mirrored
        (svgo : string -> path -> option string)
        (replaceFirst replaceAll : string -> string -> string -> string)
        (w : World) (rootDir : path) (log : list Effect)
        (file : string * string) :
  Build.build svgo replaceFirst replaceAll w rootDir = (log, Ok tt) ->
  In file (survivors w) ->
  exists data,
    svgo (snd file) (join (srcSvgDirOf rootDir) (fst file)) = Some data
    /\ In (WriteFile (join (optimizedDirOf rootDir) (fst file)) (Text data)) log
    /\ In (WriteFile (join (testSvgDirOf rootDir) (fst file)) (Text data)) log.
Proof.
  intros Hrun.
  exact (build_mirror svgo replaceFirst replaceAll rootDir w log Hrun file).
Qed.

Lemma optimized_files_are_mirrored_witness :
  let svgo := fun (s : string) (_ : path) => Some ("<!--o-->" ++ s) in
  let replace := fun s _ _ : string => s in
  let w := {| manifestVersion := Some "5.0.0";
              svgDir := [("add.svg", "<svg/>"); (".keep", EmptyString)];
              dataJson := None;
              cheatsheetTemplate := "{{content}}" |} in
  exists data,
    svgo "<svg/>" ["repo"; "src"; "svg"; "add.svg"] = Some data
    /\ In (WriteFile ["repo"; "dist"; "ionicons"; "svg"; "add.svg"] (Text data))
          (fst (Build.build svgo replace replace w ["repo"]))
    /\ In (WriteFile ["repo"; "www"; "build"; "svg"; "add.svg"] (Text data))
          (fst (Build.build svgo replace replace w ["repo"])).
Proof.
  intros svgo replace w.
  assert (Hrun : Build.build svgo replace replace w ["repo"]
                 = (fst (Build.build svgo replace replace w ["repo"]), Ok tt))
    by (vm_compute; reflexivity).
  assert (Hfile : In ("add.svg", "<svg/>") (survivors w)) by (now left).
  exact (optimized_files_are_mirrored svgo replace replace w ["repo"] _
                                      ("add.svg", "<svg/>") Hrun Hfile).
Defined.



(** ** The sprite and the icon package *)

Section SpriteAndPackage.

Variable replaceFirst : string -> string -> string -> string.

Lemma mapR_first_error {X Y : Type} (f : X -> result Y) (e : Error) (xs : list X) :
  (forall x e', f x = Err e' -> e' = e) ->
  Exists (fun x => exists e', f x = Err e') xs ->
  mapR f xs = Err e.
Proof.
  intros Hone. induction 1 as [x rest [e' He']|x rest Hrest IH]; simpl.
  - rewrite He'. simpl. now rewrite (Hone x e' He').
  - destruct (f x) as [y|e'] eqn:E; simpl.
    + now rewrite IH.
    + now rewrite (Hone x e' E).
Qed.

Lemma createSvgSymbols_without_content (version : string) (distDir : path)
      (srcSvgData : list SvgData) :
  Exists (fun r => optimizedSvgContent r = None) srcSvgData ->
  Build.createSvgSymbols replaceFirst version distDir srcSvgData
  = ([], Err TypeError).
Proof.
  intros Hex. unfold Build.createSvgSymbols.
  rewrite (mapR_first_error (Build.symbolOf replaceFirst) TypeError).
  - reflexivity.
  - intros r e'. unfold Build.symbolOf, Build.optimizedText.
    destruct (optimizedSvgContent r); simpl; congruence.
  - apply Exists_exists in Hex. destruct Hex as [r [Hr Hnone]].
    apply Exists_exists. exists r. split; [now apply sort_In|].
    exists TypeError. unfold Build.symbolOf, Build.optimizedText.
    now rewrite Hnone.
Qed.

Lemma sort_of_perm {A : Type} (key : A -> string) (l l' : list A) :
  Permutation l l' ->
  NoDup (map key l) ->
  Js.sort (Js.compareBy key) l' = Js.sort (Js.compareBy key) l.
Proof.
  intros Hperm Hnd. symmetry. apply (sorted_perm_unique key).
  - apply sorted_strongly, sort_sorted.
  - apply sorted_strongly, sort_sorted.
  - apply (Permutation_NoDup (Permutation_map key (sort_perm key l))). exact Hnd.
  - rewrite <- (sort_perm key l), <- (sort_perm key l'). exact Hperm.
Qed.

End SpriteAndPackage.

(** X16. The sprite builder, on records that all carry optimized markup,
    writes one file, [ionicons.symbols.svg], and returns the document it
    wrote together with the records arranged in ascending order of the icon
    identifier; with distinct identifiers the order in which the records
    arrive makes no difference. On a record without optimized markup it
    throws before anything is written. *)
Theorem sprite_follows_identifier_order
        (replaceFirst : string -> string -> string -> string)
        (version : string) (distDir : path) (srcSvgData : list SvgData) :
  (Forall hasContent srcSvgData ->
   exists content,
     Build.createSvgSymbols replaceFirst version distDir srcSvgData
     = ([WriteFile (join distDir "ionicons.symbols.svg") (Text content)],
        Ok (content, Js.sort (Js.compareBy iconName) srcSvgData))
     /\ StronglySorted (keyLe iconName) (Js.sort (Js.compareBy iconName) srcSvgData)
     /\ Permutation srcSvgData (Js.sort (Js.compareBy iconName) srcSvgData)
     /\ (forall arrived,
            Permutation srcSvgData arrived ->
            NoDup (map iconName srcSvgData) ->
            Build.createSvgSymbols replaceFirst version distDir arrived
            = Build.createSvgSymbols replaceFirst version distDir srcSvgData))
  /\ (Exists (fun r => optimizedSvgContent r = None) srcSvgData ->
      Build.createSvgSymbols replaceFirst version distDir srcSvgData
      = ([], Err TypeError)).
Proof.
  split; [|apply createSvgSymbols_without_content].
  intros Hall.
  destruct (createSvgSymbols_form replaceFirst version distDir srcSvgData Hall)
    as [content Hform].
  exists content. split; [exact Hform|].
  split; [apply sorted_strongly, sort_sorted|].
  split; [apply sort_perm|].
  intros arrived Hperm Hnd.
  unfold Build.createSvgSymbols.
  now rewrite (sort_of_perm iconName srcSvgData arrived Hperm Hnd).
Qed.

Lemma sprite_follows_identifier_order_witness :
  let replace := fun s _ _ : string => s in
  let star := Build.setOptimized (plainRecordAs "star" "star" "<svg/>") "<s/>" in
  let add := Build.setOptimized (plainRecordAs "add" "add" "<svg/>") "<a/>" in
  exists content,
    Build.createSvgSymbols replace "5.0.0" ["dist"] [star; add]
    = ([WriteFile ["dist"; "ionicons.symbols.svg"] (Text content)],
       Ok (content, [add; star])).
Proof.
  intros replace star add.
  assert (Hall : Forall hasContent [star; add])
    by (repeat constructor; discriminate).
  destruct (proj1 (sprite_follows_identifier_order replace "5.0.0" ["dist"]
                                                   [star; add]) Hall)
    as [content [Hform _]].
  exists content. exact Hform.
Defined.

(** X17. The icon package is built the same way for any records and never
    throws: the imports directory is emptied first, and after that only
    files are written, namely the module wrapper of every record, the module
    index, the script wrapper of every record, the script index, the type
    index and the package manifest: two files per record and four more. *)
Theorem icon_package_files
        (version : string) (iconDir : path) (srcSvgData : list SvgData) :
  snd (Build.createIconPackage version iconDir srcSvgData) = Ok tt
  /\ (exists rest,
         fst (Build.createIconPackage version iconDir srcSvgData)
         = EmptyDir (join iconDir "imports") :: rest
         /\ writes rest = rest)
  /\ targets (fst (Build.createIconPackage version iconDir srcSvgData))
     = map (fun r => join (join iconDir "imports") (fileNameMjs r)) srcSvgData
           +++ [join iconDir "index.mjs"]
           +++ map (fun r => join (join iconDir "imports") (fileNameCjs r)) srcSvgData
           +++ [join iconDir "index.js"; join iconDir "index.d.ts";
                join iconDir "package.json"]
  /\ List.length (targets (fst (Build.createIconPackage version iconDir srcSvgData)))
     = 2 * List.length srcSvgData + 4.
Proof.
  destruct (createIconPackage_targets version iconDir srcSvgData) as [Hok Htargets].
  split; [exact Hok|]. split; [|split; [exact Htargets|]].
  - unfold Build.createIconPackage. unfold effect at 1. rewrite bind_ok.
    cbn [fst app]. eexists. split; [reflexivity|].
    unfold writes. apply forallb_filter_id. apply forallb_forall.
    apply Forall_forall.
    change (logAll (fun e => isWrite e = true)
              (all [Build.createEsmIcons version iconDir (join iconDir "imports")
                                         srcSvgData;
                    Build.createCjsIcons version iconDir (join iconDir "imports")
                                         srcSvgData;
                    Build.createDtsIcons version iconDir srcSvgData] ;;;
               effect (WriteFile (join iconDir "package.json")
                         (JsonManifest
                            {| pkgName := "ionicons/icons";
                               pkgVersion := version;
                               pkgModule := "index.mjs";
                               pkgMain := "index.js";
                               pkgTypings := "index.d.ts";
                               pkgSideEffects := ["imports/"];
                               pkgPrivate := true |})))).
    unfold Build.createEsmIcons, Build.createCjsIcons, Build.createDtsIcons.
    repeat (log_step; try reflexivity).
  - rewrite Htargets. rewrite !length_app, !length_map. simpl. lia.
Qed.

(** ** The loader and the order of the listing *)

Section ListingOrder.

Variables (srcSvgDir rootDir distIoniconsDir : path).

Lemma filter_perm {X : Type} (keep : X -> bool) (l l' : list X) :
  Permutation l l' -> Permutation (filter keep l) (filter keep l').
Proof.
  induction 1 as [|x l l' Hperm IH|x y l|l l' l'' H1 IH1 H2 IH2]; simpl.
  - constructor.
  - destruct (keep x); [now constructor|assumption].
  - destruct (keep x), (keep y); try reflexivity. constructor.
  - now transitivity (filter keep l').
Qed.

Lemma builtFrom_recordOf (file : string * string) (r : SvgData) :
  builtFrom srcSvgDir (join distIoniconsDir "svg") file r ->
  r = recordOf srcSvgDir (join distIoniconsDir "svg") file.
Proof.
  intros [i [x [Hnames ->]]].
  apply svgNames_ok in Hnames. destruct Hnames as [_ [_ [-> Hcamel]]].
  apply camelize_ok in Hcamel. subst x. reflexivity.
Qed.

Lemma getSvgs_closed_form (w : World) (svgData : list SvgData) :
  snd (Build.getSvgs w srcSvgDir rootDir distIoniconsDir) = Ok svgData ->
  svgData
  = Js.sort (Js.compareBy exportName)
            (map (recordOf srcSvgDir (join distIoniconsDir "svg")) (survivors w)).
Proof.
  intros Hload.
  destruct (getSvgs_unsorted w srcSvgDir rootDir distIoniconsDir svgData Hload)
    as [loaded [Hbuilt ->]].
  f_equal. clear Hload.
  induction Hbuilt as [|file r files loaded Hr Hrest IH]; cbn [map];
    [reflexivity|].
  now rewrite <- (builtFrom_recordOf file r Hr), <- IH.
Qed.

Lemma getSvgs_of_permuted_listing
      (w : World) (listing : list (string * string)) (svgData : list SvgData) :
  snd (Build.getSvgs w srcSvgDir rootDir distIoniconsDir) = Ok svgData ->
  Permutation (svgDir w) listing ->
  NoDup (map exportName svgData) ->
  snd (Build.getSvgs (withSvgDir w listing) srcSvgDir rootDir distIoniconsDir)
  = Ok svgData.
Proof.
  intros Hload Hperm Hnd.
  assert (Hsurv : Permutation (survivors w) (survivors (withSvgDir w listing))).
  { unfold survivors. cbn [svgDir withSvgDir]. now apply filter_perm. }
  assert (Hok : exists arrived,
             snd (Build.getSvgs (withSvgDir w listing) srcSvgDir rootDir
                                distIoniconsDir) = Ok arrived).
  { apply getSvgs_valid_iff. intros file Hin.
    apply (Permutation_in _ (Permutation_sym Hsurv)) in Hin. revert file Hin.
    apply (getSvgs_valid_iff w srcSvgDir rootDir distIoniconsDir).
    now exists svgData. }
  destruct Hok as [arrived Harrived]. rewrite Harrived. f_equal.
  rewrite (getSvgs_closed_form _ _ Harrived), (getSvgs_closed_form _ _ Hload).
  apply sort_of_perm.
  - now apply Permutation_map.
  - rewrite (getSvgs_closed_form _ _ Hload) in Hnd.
    apply (Permutation_NoDup
             (Permutation_map exportName
                (Permutation_sym (sort_perm exportName _)))).
    exact Hnd.
Qed.

End ListingOrder.

(** X18. The records the loader returns are those of the listed files that
    pass the filter, built from the file name alone and sorted by export
    identifier with the stable sort. When the export identifiers are
    distinct, the order in which the directory is listed does not matter:
    any rearrangement of the listing gives the same records in the same
    order. *)
Theorem loader_ignores_listing_order
        (w : World) (srcSvgDir rootDir distIoniconsDir : path)
        (svgData : list SvgData) :
  snd (Build.getSvgs w srcSvgDir rootDir distIoniconsDir) = Ok svgData ->
  svgData
  = Js.sort (Js.compareBy exportName)
            (map (recordOf srcSvgDir (join distIoniconsDir "svg")) (survivors w))
  /\ (forall listing,
         Permutation (svgDir w) listing ->
         NoDup (map exportName svgData) ->
         snd (Build.getSvgs (withSvgDir w listing) srcSvgDir rootDir
                            distIoniconsDir)
         = Ok svgData).
Proof.
  intros Hload. split; [now apply (getSvgs_closed_form _ rootDir)|].
  intros listing. now apply getSvgs_of_permuted_listing.
Qed.

Lemma loader_ignores_listing_order_witness :
  let w := {| manifestVersion := Some "5.0.0";
              svgDir := [("star.svg", "<s/>"); ("add-circle.svg", "<a/>")];
              dataJson := None;
              cheatsheetTemplate := "{{content}}" |} in
  let svgData := [ plainRecordAs "add-circle" "addCircle" "<a/>";
                   plainRecordAs "star" "star" "<s/>" ] in
  snd (Build.getSvgs w ["src"; "svg"] [] ["dist"; "ionicons"]) = Ok svgData
  /\ snd (Build.getSvgs
            (withSvgDir w [("add-circle.svg", "<a/>"); ("star.svg", "<s/>")])
            ["src"; "svg"] [] ["dist"; "ionicons"])
     = Ok svgData.
Proof.
  intros w svgData.
  assert (Hload : snd (Build.getSvgs w ["src"; "svg"] [] ["dist"; "ionicons"])
                  = Ok svgData) by reflexivity.
  split; [exact Hload|].
  apply (proj2 (loader_ignores_listing_order w ["src"; "svg"] []
                                             ["dist"; "ionicons"] svgData Hload)).
  - apply perm_swap.
  - simpl. constructor; [intros [H|[]]; discriminate H|].
    constructor; [intros []|constructor].
Defined.

(** ** What the plugin leaves alone *)

(** X19. What the plugin leaves alone. A node that is no element is returned
    as it is. An element stays an element; it keeps every attribute the
    rules do not take away, with its value and in document order; it keeps
    the classes it had, in their order, and only the two classes of the
    rules are appended; and running the plugin on its result changes nothing. *)
Theorem addFillNoneCss_leaves_the_rest :
  (forall item : Optimizer.Item,
      Optimizer.isElem item = false -> Optimizer.addFillNoneCss item = item)
  /\ (forall item : Optimizer.Item,
         Optimizer.isElem (Optimizer.addFillNoneCss item) = Optimizer.isElem item
         /\ exists added,
              Optimizer.classes (Optimizer.addFillNoneCss item)
              = Optimizer.classes item +++ added
              /\ Forall (fun c => c = "ionicon-fill-none"
                                  \/ c = "ionicon-stroke-width") added)
  /\ (forall item : Optimizer.Item,
         Optimizer.isElem item = true ->
         NoDup (map Optimizer.attrName (Optimizer.attrs item)) ->
         Optimizer.attrs (Optimizer.addFillNoneCss item)
         = filter (fun a => negb (isRemoved a)) (Optimizer.attrs item)
         /\ Optimizer.addFillNoneCss (Optimizer.addFillNoneCss item)
            = Optimizer.addFillNoneCss item).
Proof.
  split; [|split].
  - intros item He. unfold Optimizer.addFillNoneCss. now rewrite He.
  - intros item. unfold Optimizer.addFillNoneCss, Optimizer.eachAttr.
    destruct (Optimizer.isElem item) eqn:He.
    + destruct (eachAttrFrom_frame (Optimizer.attrs item) item) as [Helem Hadd].
      split; [now rewrite Helem|exact Hadd].
    + split; [exact He|]. exists []. split; [now rewrite app_nil_r|constructor].
  - intros item He Hnd.
    destruct (addFillNoneCss_elem item He Hnd) as [Hattrs _].
    split; [exact Hattrs|].
    assert (Hout : Optimizer.isElem (Optimizer.addFillNoneCss item) = true).
    { unfold Optimizer.addFillNoneCss, Optimizer.eachAttr. rewrite He.
      now rewrite (proj1 (eachAttrFrom_frame _ item)). }
    unfold Optimizer.addFillNoneCss at 1. rewrite Hout.
    unfold Optimizer.eachAttr. apply eachAttrFrom_fixed.
    rewrite Hattrs. apply Forall_forall. intros a Ha.
    apply filter_In in Ha. destruct Ha as [_ Ha].
    now apply negb_true_iff in Ha.
Qed.

(** ** The length of an export identifier *)

Section CamelShape.

Local Abbreviation isSep := Camel.isDashOrUnderscore.















End CamelShape.



(** X21. In a run that ends normally the sprite is written, then the
    template is read and the cheatsheet written, and the copy of the
    cheatsheet to the test page is the last operation of the run. The
    cheatsheet is the template with its placeholders filled in: the version
    of the manifest, the number of icons, and one [use] element per icon in
    ascending order of the identifiers followed by the very document that
    was written as the sprite. *)
Theorem cheatsheet_embeds_sprite
        (svgo : string -> path -> option string)
        (replaceFirst replaceAll : string -> string -> string -> string)
        (w : World) (rootDir : path) (log : list Effect) :
  Build.build svgo replaceFirst replaceAll w rootDir = (log, Ok tt) ->
  exists version loaded sprite before between,
    manifestVersion w = Some version
    /\ snd (loadSources w rootDir) = Ok loaded
    /\ log
       = before
           +++ WriteFile (join (join rootDir "dist") "ionicons.symbols.svg")
                         (Text sprite)
           :: ReadFile (join (join rootDir "scripts") "cheatsheet-template.html")
           :: WriteFile (join (join rootDir "dist") "cheatsheet.html")
                (Text (cheatsheetHtml replaceAll (cheatsheetTemplate w) version
                         (Js.sortStrings (map iconName loaded)) sprite))
           :: between
           +++ [CopyFile (join (join rootDir "dist") "cheatsheet.html")
                         (join (join rootDir "www") "cheatsheet.html")].
Proof. apply build_cheatsheet. Qed.

Lemma cheatsheet_embeds_sprite_witness :
  let svgo := fun (s : string) (_ : path) => Some s in
  let replace := fun s _ _ : string => s in
  let w := {| manifestVersion := Some "5.0.0";
              svgDir := [("star.svg", "<svg/>"); ("add.svg", "<svg/>")];
              dataJson := None;
              cheatsheetTemplate := "{{content}}" |} in
  exists sprite before between,
    fst (Build.build svgo replace replace w ["repo"])
    = before
        +++ WriteFile ["repo"; "dist"; "ionicons.symbols.svg"] (Text sprite)
        :: ReadFile ["repo"; "scripts"; "cheatsheet-template.html"]
        :: WriteFile ["repo"; "dist"; "cheatsheet.html"]
                     (Text (cheatsheetTemplate w))
        :: between
        +++ [CopyFile ["repo"; "dist"; "cheatsheet.html"]
                      ["repo"; "www"; "cheatsheet.html"]].
Proof.
  intros svgo replace w.
  assert (Hrun : Build.build svgo replace replace w ["repo"]
                 = (fst (Build.build svgo replace replace w ["repo"]), Ok tt))
    by (vm_compute; reflexivity).
  destruct (cheatsheet_embeds_sprite svgo replace replace w ["repo"] _ Hrun)
    as [version [loaded [sprite [before [between [_ [_ Hlog]]]]]]].
  exists sprite, before, between. exact Hlog.
Defined.

(** ** Identifiers that differ in the separator only *)

Section SeparatorBlind.

Lemma split_hyphenate_segments (s : string) :
  Js.split Camel.isDashOrUnderscore (hyphenate s)
  = Js.split Camel.isDashOrUnderscore s.
Proof.
  induction s as [|c r IH]; [reflexivity|].
  cbn [hyphenate Js.split]. rewrite IH.
  destruct (Ascii.eqb_spec c "_") as [->|Hc]; [reflexivity|reflexivity].
Qed.

Lemma split_hyphenate_dots (s : string) :
  Js.split Build.isDot (hyphenate s) = map hyphenate (Js.split Build.isDot s).
Proof.
  induction s as [|c r IH]; [reflexivity|].
  cbn [hyphenate Js.split]. rewrite IH.
  destruct (Ascii.eqb_spec c "_") as [->|Hc].
  - simpl. destruct (Js.split Build.isDot r); reflexivity.
  - destruct (Build.isDot c); [reflexivity|].
    destruct (Js.split Build.isDot r); simpl;
      now rewrite (proj2 (Ascii.eqb_neq c "_") Hc).
Qed.

Lemma camelize_hyphenate (text : string) :
  Camel.camelize (hyphenate text) = Camel.camelize text.
Proof. unfold Camel.camelize. now rewrite split_hyphenate_segments. Qed.

Lemma iconNameOf_hyphenate (fileName : string) :
  iconNameOf (hyphenate fileName) = hyphenate (iconNameOf fileName).
Proof.
  unfold iconNameOf. rewrite split_hyphenate_dots.
  destruct (Js.split Build.isDot fileName); reflexivity.
Qed.

End SeparatorBlind.

(** X22. [camelize] does not tell a hyphen from an underscore: a text and
    the same text with its underscores turned into hyphens have the same
    conversion. So two file names that the loader accepts and that differ
    only in which of the two separators they use get the same export
    identifier. *)
Theorem export_identifier_ignores_separator_kind :
  (forall text, Camel.camelize (hyphenate text) = Camel.camelize text)
  /\ (forall f1 f2 i1 i2 x1 x2,
         Build.svgNames f1 = Ok (i1, x1) ->
         Build.svgNames f2 = Ok (i2, x2) ->
         hyphenate f1 = hyphenate f2 ->
         x1 = x2).
Proof.
  split; [exact camelize_hyphenate|].
  intros f1 f2 i1 i2 x1 x2 H1 H2 Hsame.
  apply svgNames_ok in H1. destruct H1 as [_ [_ [-> Hx1]]].
  apply svgNames_ok in H2. destruct H2 as [_ [_ [-> Hx2]]].
  rewrite <- camelize_hyphenate, <- iconNameOf_hyphenate in Hx1, Hx2.
  rewrite Hsame in Hx1. congruence.
Qed.

Lemma export_identifier_ignores_separator_kind_witness :
  Build.svgNames "arrow-up.svg" = Ok ("arrow-up", "arrowUp")
  /\ Build.svgNames "arrow_up.svg" = Ok ("arrow_up", "arrowUp").
Proof.
  assert (H1 : exists x, Build.svgNames "arrow-up.svg" = Ok ("arrow-up", x))
    by (eexists; reflexivity).
  assert (H2 : Build.svgNames "arrow_up.svg" = Ok ("arrow_up", "arrowUp"))
    by reflexivity.
  destruct H1 as [x H1].
  rewrite H1, H2.
  rewrite (proj2 export_identifier_ignores_separator_kind
                 "arrow-up.svg" "arrow_up.svg" _ _ x "arrowUp" H1 H2 eq_refl).
  split; reflexivity.
Defined.
